(** * Smart CV tailor: keyword extraction, job analysis, match scoring and
      the skills-section rewriter

    A shallow embedding of [cv_parser.py] and of [CVExporter] in
    [cv_exporter.py], with the properties the specification states about
    them.

    Conventions of the embedding.
    - Python [str] is [string]; a non-ASCII character is the sequence of its
      UTF-8 bytes (the bullet U+2022 is the three bytes of the literal "•").
      [str.lower], [str.upper], [str.strip], [str.split] and the
      regular-expression classes [\s], [\w], [\d], [\b] and the flag
      [re.IGNORECASE] are those of Python on plain text ([Text.is_plain]:
      ASCII characters and the bullet); on other characters they leave the
      bytes alone, which Python does not, so a property that rests on them
      is stated for plain text.  [len] of a paragraph text counts
      characters ([char_count]).
    - Python [set] is [gset string]; the order in which a set is iterated is
      a parameter wherever the code depends on it.
    - Python [float] is a rational rounded to 53 significant bits after
      every operation (binary64 without overflow or underflow).
    - File access goes through a small monad that reads a file system,
      records the operations performed and may raise.  A document is the
      sequence of blocks of its body.  Of python-docx, the embedding keeps
      the two calls of the rewriter that depend on the document or on the
      skills: [add_heading] raises [KeyError] when the document has no
      style "Heading 1", and [add_run] raises [ValueError] on a text with a
      control character. *)

From Stdlib Require Import Ascii QArith Qround Qpower Lqa.
From stdpp Require Import gmap strings list sorting.

Set Warnings "-clear-no-such-hyp".

(** ** Python text primitives, on plain text *)

Module Text.

Definition code (c : ascii) : N := N_of_ascii c.

Definition in_range (lo hi : N) (c : ascii) : bool :=
  ((lo <=? code c) && (code c <=? hi))%N.

(** The classes of one byte.  They are those of Python for an ASCII
    character; a byte of a longer character is in none of them, which is
    right for the bullet and wrong for a letter, a digit or a blank beyond
    ASCII (U+00E9, U+FF10, U+00A0, ...): such characters are outside plain
    text ([is_plain] below). *)
Definition is_upper (c : ascii) : bool := in_range 65 90 c.
Definition is_lower (c : ascii) : bool := in_range 97 122 c.
(** [\d] on an ASCII character. *)
Definition is_digit (c : ascii) : bool := in_range 48 57 c.

(** [str.isspace] and [\s] on one ASCII character: TAB, LF, VT, FF, CR,
    the four separators 0x1c-0x1f and the space. *)
Definition is_space (c : ascii) : bool :=
  in_range 9 13 c || in_range 28 32 c.

(** [\w] of the [re] module on an ASCII character. *)
Definition is_word (c : ascii) : bool :=
  is_upper c || is_lower c || is_digit c || (code c =? 95)%N.

Definition lower_char (c : ascii) : ascii :=
  if is_upper c then ascii_of_N (code c + 32) else c.
Definition upper_char (c : ascii) : ascii :=
  if is_lower c then ascii_of_N (code c - 32) else c.

Fixpoint map_chars (f : ascii → ascii) (s : string) : string :=
  match s with
  | EmptyString => EmptyString
  | String c s' => String (f c) (map_chars f s')
  end.

(** [s.lower()] and [s.upper()] of a plain text: the ASCII letters change
    case and the bullet has no other case. *)
Definition lower : string → string := map_chars lower_char.
Definition upper : string → string := map_chars upper_char.

Fixpoint lstrip (s : string) : string :=
  match s with
  | String c s' => if is_space c then lstrip s' else s
  | EmptyString => EmptyString
  end.
Definition rstrip (s : string) : string := String.rev (lstrip (String.rev s)).
(** [s.strip()]. *)
Definition strip (s : string) : string := rstrip (lstrip s).

(** [s.split()]: the maximal runs of non-blank characters. *)
Fixpoint split_go (cur : option string) (s : string) : list string :=
  match s with
  | EmptyString => option_list (String.rev <$> cur)
  | String c s' =>
      if is_space c
      then option_list (String.rev <$> cur) ++ split_go None s'
      else split_go (Some (String c (default EmptyString cur))) s'
  end.
Definition split : string → list string := split_go None.

(** [sep.join(l)]. *)
Definition join (sep : string) (l : list string) : string :=
  String.concat sep l.

(** [sub in s]. *)
Fixpoint contains (sub s : string) : bool :=
  String.prefix sub s ||
  match s with
  | EmptyString => false
  | String _ s' => contains sub s'
  end.

(** [s.endswith(suffix)]. *)
Definition endswith (s suffix : string) : bool :=
  String.prefix (String.rev suffix) (String.rev s).

Definition len (s : string) : nat := String.length s.

(** The line feed, ["\n"]. *)
Definition LF : string := String "010"%char EmptyString.

(** [s[n:]]. *)
Fixpoint drop_chars (n : nat) (s : string) : string :=
  match n, s with
  | S n', String _ s' => drop_chars n' s'
  | _, _ => s
  end.

Definition head (s : string) : option ascii :=
  match s with String c _ => Some c | EmptyString => None end.

Fixpoint last_char (prev : option ascii) (s : string) : option ascii :=
  match s with
  | EmptyString => prev
  | String c s' => last_char (Some c) s'
  end.

(** A plain text: every character is an ASCII character or the bullet
    U+2022, which the exporter writes between skills.  On a plain text
    the functions above are those of Python: the bullet is no blank, no
    letter, no digit and no word character, and has no other case. *)
Fixpoint is_plain (s : string) : bool :=
  match s with
  | EmptyString => true
  | String c s' =>
      if (code c <? 128)%N then is_plain s'
      else
        match s' with
        | String c2 (String c3 s'') =>
            (code c =? 226)%N && (code c2 =? 128)%N && (code c3 =? 162)%N
            && is_plain s''
        | _ => false
        end
  end.

End Text.

(** [len(s)] for a text that may hold characters of several bytes: the
    number of bytes that do not continue a character. *)
Fixpoint char_count (s : string) : nat :=
  match s with
  | EmptyString => 0
  | String c s' =>
      (if Text.in_range 128 191 c then 0 else 1) + char_count s'
  end.

(** ** The regular expressions of the two source files *)

Module Re.
Import Text.

Definition word_at (c : option ascii) : bool :=
  match c with Some c => is_word c | None => false end.

(** [\b] between the character before the position and the one after it
    ([None] at either end of the text). *)
Definition boundary (before after : option ascii) : bool :=
  xorb (word_at before) (word_at after).

(** The pattern [\b] + [re.escape(lit)] + [\b] matched at the start of
    [s], the character before [s] being [prev]. *)
Definition word_here (prev : option ascii) (lit s : string) : bool :=
  boundary prev (head s)
  && String.prefix lit s
  && boundary (last_char prev lit) (head (drop_chars (len lit) s)).

Fixpoint search_word_from (prev : option ascii) (lit s : string) : bool :=
  word_here prev lit s ||
  match s with
  | EmptyString => false
  | String c s' => search_word_from (Some c) lit s'
  end.

(** [re.search(r'\b' + re.escape(lit) + r'\b', s)] as a truth value. *)
Definition search_word (lit s : string) : bool :=
  search_word_from None lit s.

(** *** Pieces shared by the other patterns *)

(** A literal at the start of [s]; what follows it. *)
Definition literal (lit s : string) : option string :=
  if String.prefix lit s then Some (drop_chars (len lit) s) else None.

Fixpoint skip_while (p : ascii → bool) (s : string) : string :=
  match s with
  | String c s' => if p c then skip_while p s' else s
  | EmptyString => EmptyString
  end.

(** A greedy [X+] over a character class, when nothing after it can make
    the match fail for the longest run and succeed for a shorter one. *)
Definition plus (p : ascii → bool) (s : string) : option string :=
  match s with
  | String c _ => if p c then Some (skip_while p s) else None
  | EmptyString => None
  end.

(** The class [[:\s]]. *)
Definition is_colon_or_space (c : ascii) : bool :=
  (code c =? 58)%N || is_space c.

(** [$] without [re.MULTILINE]: the end of the text, or just before a
    final line feed. *)
Definition at_dollar (s : string) : bool :=
  match s with
  | EmptyString => true
  | String c EmptyString => (code c =? 10)%N
  | _ => false
  end.

(** The lookahead [(?=a1|...|an|$)]. *)
Definition lookahead (alts : list string) (s : string) : bool :=
  existsb (λ a, String.prefix a s) alts || at_dollar s.

(** [(.*?)(?=a1|...|an|$)] under [re.DOTALL]: the shortest prefix after
    which the lookahead holds. *)
Fixpoint lazy_until (alts : list string) (s : string) : string :=
  if lookahead alts s then EmptyString
  else match s with
       | String c s' => String c (lazy_until alts s')
       | EmptyString => EmptyString
       end.

(** [re.search]: the leftmost position at which the pattern matches; the
    value is group 1 of the match. *)
Fixpoint search (here : string → option string) (s : string)
    : option string :=
  match here s with
  | Some g => Some g
  | None =>
      match s with
      | EmptyString => None
      | String _ s' => search here s'
      end
  end.

(** [required(?:\s+(?:skills|qualifications))?[:\s]+(.*?)(?=preferred|nice|bonus|responsibilities|$)]
    at the start of [s].  The optional group is tried first; when the
    class [[:\s]+] cannot follow it the matcher backtracks and goes on
    without the group. *)
Definition required_here (s : string) : option string :=
  rest ← literal "required" s;
  let with_group :=
    ws ← plus is_space rest;
    w ← (match literal "skills" ws with
         | Some w => Some w
         | None => literal "qualifications" ws
         end);
    plus is_colon_or_space w in
  body ← (match with_group with
          | Some b => Some b
          | None => plus is_colon_or_space rest
          end);
  Some (lazy_until ["preferred"; "nice"; "bonus"; "responsibilities"] body).

(** [must\s+have[:\s]+(.*?)(?=preferred|nice|$)] at the start of [s]. *)
Definition must_have_here (s : string) : option string :=
  rest ← literal "must" s;
  ws ← plus is_space rest;
  h ← literal "have" ws;
  body ← plus is_colon_or_space h;
  Some (lazy_until ["preferred"; "nice"] body).

(** The character class of [re.split(r'[•\-\*,]', ...)]: the separator at
    the start of [s], if there is one, and what follows it. *)
Definition separator (s : string) : option string :=
  match literal "•" s with
  | Some s' => Some s'
  | None =>
      match s with
      | String c s' =>
          if (code c =? 45)%N || (code c =? 42)%N || (code c =? 44)%N
          then Some s' else None
      | EmptyString => None
      end
  end.

(** [re.split(r'[•\-\*,]', s)]; [n] bounds the number of characters
    read and is the length of [s] at the call. *)
Fixpoint split_items_go (n : nat) (cur : string) (s : string)
    : list string :=
  match n with
  | O => [String.rev cur]
  | S n' =>
      match separator s with
      | Some s' => String.rev cur :: split_items_go n' EmptyString s'
      | None =>
          match s with
          | String c s' => split_items_go n' (String c cur) s'
          | EmptyString => [String.rev cur]
          end
      end
  end.
Definition split_items (s : string) : list string :=
  split_items_go (S (len s)) EmptyString s.

(** The label patterns [soft skills?:?] and [hard skills?:?] under
    [re.IGNORECASE], at the start of [s]: the length of the match. *)
Definition label_here (stem : string) (s : string) : option nat :=
  rest ← literal stem (lower s);
  let n1 := len stem in
  let '(n2, rest) :=
    match rest with
    | String "s"%char r => (S n1, r)
    | _ => (n1, rest)
    end in
  Some (match rest with
        | String ":"%char _ => S n2
        | _ => n2
        end).

(** The text up to the first match of the label pattern in [s]. *)
Fixpoint until_label (n : nat) (stem s : string) : string :=
  match n with
  | O => s
  | S n' =>
      match label_here stem s with
      | Some _ => EmptyString
      | None =>
          match s with
          | String c s' => String c (until_label n' stem s')
          | EmptyString => EmptyString
          end
      end
  end.

(** What follows the first match of the label pattern in [s]. *)
Fixpoint after_label (stem s : string) : option string :=
  match label_here stem s with
  | Some k => Some (drop_chars k s)
  | None =>
      match s with
      | String _ s' => after_label stem s'
      | EmptyString => None
      end
  end.

(** [re.split(label, s, flags=re.IGNORECASE)[1]] when the list has more
    than one element: the text between the first and the second match. *)
Definition second_piece (stem s : string) : option string :=
  rest ← after_label stem s;
  Some (until_label (S (len rest)) stem rest).

End Re.

(** ** [KeywordExtractor] *)

Definition technical_skills : list string :=
  [ "python"; "java"; "javascript"; "typescript"; "c++"; "c#"; "ruby"; "go";
    "php"; "swift"; "kotlin"; "scala"; "rust"; "r"; "matlab";
    "html"; "css"; "react"; "angular"; "vue"; "node.js"; "nodejs";
    "django"; "flask"; "fastapi"; "express"; "spring boot"; "asp.net";
    "next.js"; "svelte"; "jquery"; "bootstrap"; "tailwind";
    "sql"; "mysql"; "postgresql"; "mongodb"; "redis"; "oracle"; "nosql";
    "dynamodb"; "cassandra"; "elasticsearch"; "sqlite";
    "aws"; "azure"; "gcp"; "google cloud"; "docker"; "kubernetes"; "k8s";
    "terraform"; "ansible"; "jenkins"; "gitlab"; "github actions"; "ci/cd";
    "machine learning"; "deep learning"; "data science";
    "artificial intelligence";
    "tensorflow"; "pytorch"; "keras"; "scikit-learn"; "pandas"; "numpy";
    "matplotlib"; "nlp"; "computer vision"; "opencv";
    "spark"; "hadoop"; "kafka"; "airflow"; "databricks";
    "git"; "jira"; "agile"; "scrum"; "devops";
    "rest api"; "graphql"; "microservices"; "linux"; "bash";
    "api"; "etl"; "tableau"; "power bi"; "excel" ].

(** The three abbreviations and what each one stands for. *)
Definition abbreviations : list (string * string) :=
  [ ("ml", "machine learning");
    ("ai", "artificial intelligence");
    ("js", "javascript") ].

(** One turn of [for skill in self.technical_skills]. *)
Definition scan_skill (text_lower : string) (found : gset string)
    (skill : string) : gset string :=
  if Re.search_word skill text_lower then found ∪ {[ skill ]} else found.

(** One of the three [if re.search(r'\babbr\b', ...)] statements. *)
Definition scan_abbreviation (text_lower : string) (found : gset string)
    (ab : string * string) : gset string :=
  if Re.search_word ab.1 text_lower then found ∪ {[ ab.2 ]} else found.

Definition extract_skills_from_text (text : string) : gset string :=
  let text_lower := Text.lower text in
  let found_skills := foldl (scan_skill text_lower) ∅ technical_skills in
  foldl (scan_abbreviation text_lower) found_skills abbreviations.

(** ** Python numbers *)

(** Binary64 arithmetic on the rationals: every operation is the exact one
    followed by rounding to 53 significant bits, ties to even. *)
Module Float.
Local Open Scope Q_scope.

Definition pow2 (e : Z) : Q := 2 ^ e.

(** The integer [e] with [2^e <= x < 2^(e+1)], for positive [x]. *)
Definition ilog2 (x : Q) : Z :=
  let k := (Z.log2 (Qnum x) - Z.log2 (Zpos (Qden x)))%Z in
  if Qle_bool (pow2 k) x then k else (k - 1)%Z.

(** The nearest integer, a tie going to the even neighbour. *)
Definition round_half_even (x : Q) : Z :=
  let f := Qfloor x in
  match Qcompare (x - inject_Z f) (1 # 2) with
  | Lt => f
  | Gt => (f + 1)%Z
  | Eq => if Z.even f then f else (f + 1)%Z
  end.

Definition rnd_pos (x : Q) : Q :=
  let e := (ilog2 x - 52)%Z in
  Qred (inject_Z (round_half_even (x / pow2 e)) * pow2 e).

(** The float nearest to the rational [x]. *)
Definition rnd (x : Q) : Q :=
  match Qnum x with
  | Z0 => 0
  | Zpos _ => rnd_pos x
  | Zneg _ => Qred (- rnd_pos (- x))
  end.

(** [float(z)]. *)
Definition of_int (z : Z) : Q := rnd (inject_Z z).
(** [a * b] and [a + b] on floats. *)
Definition mul (a b : Q) : Q := rnd (a * b).
Definition add (a b : Q) : Q := rnd (a + b).
(** [a / b] on two [int]s: the correctly rounded quotient. *)
Definition int_div (a b : Z) : Q := rnd (inject_Z a / inject_Z b).
(** [int(x)]: truncation towards zero. *)
Definition trunc (x : Q) : Z := Z.quot (Qnum x) (Zpos (Qden x)).
(** [round(x, 1)]: the exact value of [x] rounded to one decimal, ties to
    even, and the float nearest to that decimal. *)
Definition round1 (x : Q) : Q :=
  rnd (inject_Z (round_half_even (x * 10)) / 10).

(** The literals [0.7] and [0.3], that is 0x1.6666666666666p-1 and
    0x1.3333333333333p-2. *)
Definition lit_0_7 : Q := 3152519739159347 # 4503599627370496.
Definition lit_0_3 : Q := 5404319552844595 # 18014398509481984.
End Float.

(** A score is the [int] 100 or a [float]. *)
Inductive pynum :=
  | PyInt (z : Z)
  | PyFloat (q : Q).

(** The value of a number; [==] and [<=] of Python compare values. *)
Definition num_value (n : pynum) : Q :=
  match n with
  | PyInt z => inject_Z z
  | PyFloat q => q
  end.

(** The operand of a mixed operation, converted to [float]. *)
Definition as_float (n : pynum) : Q :=
  match n with
  | PyInt z => Float.of_int z
  | PyFloat q => q
  end.

(** [round(n, 1)]: an [int] is returned as it is. *)
Definition py_round1 (n : pynum) : pynum :=
  match n with
  | PyInt z => PyInt z
  | PyFloat q => PyFloat (Float.round1 q)
  end.

(** [sorted(l)] on strings. *)
Definition sorted (l : list string) : list string :=
  merge_sort String.le l.

(** ** Data structures of [cv_parser.py] *)

Record PersonalInfo := {
  name : string;
  email : string;
  phone : string;
  location : string;
  linkedin : string;
  github : string
}.

(** [skills] is a [dict] from a category name to a list of skills; a
    Python [dict] keeps its keys in insertion order. *)
Record CVData := {
  personal_info : PersonalInfo;
  skills : list (string * list string);
  raw_text : string;
  original_file_path : string
}.

Record JobRequirements := {
  job_title : string;
  company : string;
  required_skills : list string;
  preferred_skills : list string;
  all_skills : list string;
  responsibilities : list string
}.

(** ** [JobDescriptionAnalyzer.extract_skills_from_job] *)

(** The dictionary the method returns. *)
Record job_skills := {
  js_required : list string;
  js_preferred : list string;
  js_all : list string
}.

(** The loop over [required_patterns]: group 1 of the first pattern that
    matches, the empty string when neither does.  The text is the
    lower-cased posting; for a plain posting [re.IGNORECASE] changes
    nothing on it. *)
Definition find_required_text (text_lower : string) : string :=
  match Re.search Re.required_here text_lower with
  | Some g => g
  | None =>
      match Re.search Re.must_have_here text_lower with
      | Some g => g
      | None => EmptyString
      end
  end.

(** [required_text and skill in required_text]. *)
Definition in_required (required_text skill : string) : bool :=
  negb (String.eqb required_text EmptyString)
  && Text.contains skill required_text.

(** The loop [for skill in all_skills], over the skills in the order the
    set yields them: the two lists it appends to. *)
Fixpoint categorize (required_text : string) (todo : list string)
    : list string * list string :=
  match todo with
  | [] => ([], [])
  | skill :: todo' =>
      let '(required, preferred) := categorize required_text todo' in
      if in_required required_text skill
      then (skill :: required, preferred)
      else (required, skill :: preferred)
  end.

(** [int(n * 0.7)]. *)
Definition split_point (n : nat) : nat :=
  Z.to_nat (Float.trunc (Float.mul (Float.of_int (Z.of_nat n)) Float.lit_0_7)).

Section JobDescriptionAnalyzer.

(** The order in which a set yields its elements.  The method iterates
    over three sets: [all_skills] (0), [set(required_skills)] (1) and
    [set(preferred_skills)] (2). *)
Variable set_iter : nat → gset string → list string.

Definition extract_skills_from_job (text : string) : job_skills :=
  let all_skills := extract_skills_from_text text in
  let text_lower := Text.lower text in
  let required_text := find_required_text text_lower in
  let '(required_skills, preferred_skills) :=
    categorize required_text (set_iter 0 all_skills) in
  let required_skills := set_iter 1 (list_to_set required_skills) in
  let preferred_skills := set_iter 2 (list_to_set preferred_skills) in
  let '(required_skills, preferred_skills) :=
    if bool_decide (preferred_skills = [])
       && bool_decide (3 < length required_skills)
    then
      let split_point := split_point (length required_skills) in
      (take split_point required_skills, drop split_point required_skills)
    else (required_skills, preferred_skills) in
  {| js_required := sorted required_skills;
     js_preferred := sorted preferred_skills;
     js_all := sorted (set_iter 0 all_skills) |}.

End JobDescriptionAnalyzer.

(** ** [KeywordMatcher.calculate_match_score] *)

Record match_result := {
  overall_score : pynum;
  required_score : pynum;
  preferred_score : pynum;
  matched_required : list string;
  missing_required : list string;
  matched_preferred : list string;
  missing_preferred : list string
}.

(** The loop over [cv_data.skills.values()]: the lower-cased skills of
    every category. *)
Definition cv_skill_set (cv_data : CVData) : gset string :=
  foldl (λ cv_skills skill_category,
           cv_skills ∪ list_to_set (Text.lower <$> skill_category))
        ∅ (snd <$> skills cv_data).

(** [(len(matched) / len(wanted) * 100) if wanted else 100]. *)
Definition percentage (matched wanted : gset string) : pynum :=
  if bool_decide (wanted = ∅) then PyInt 100
  else PyFloat (Float.mul
                  (Float.int_div (Z.of_nat (size matched))
                                 (Z.of_nat (size wanted)))
                  (Float.of_int 100)).

(** [sorted(list(s))] for a set [s]; the order in which the set is listed
    does not show in the sorted list. *)
Definition sorted_set (s : gset string) : list string :=
  sorted (elements s).

Definition calculate_match_score (cv_data : CVData)
    (job_req : JobRequirements) : match_result :=
  let cv_skills := cv_skill_set cv_data in
  let job_required : gset string :=
    list_to_set (Text.lower <$> required_skills job_req) in
  let job_preferred : gset string :=
    list_to_set (Text.lower <$> preferred_skills job_req) in
  let matched_required := cv_skills ∩ job_required in
  let missing_required := job_required ∖ cv_skills in
  let matched_preferred := cv_skills ∩ job_preferred in
  let missing_preferred := job_preferred ∖ cv_skills in
  let required_score := percentage matched_required job_required in
  let preferred_score := percentage matched_preferred job_preferred in
  let overall_score :=
    PyFloat (Float.add (Float.mul (as_float required_score) Float.lit_0_7)
                       (Float.mul (as_float preferred_score) Float.lit_0_3)) in
  {| overall_score := py_round1 overall_score;
     required_score := py_round1 required_score;
     preferred_score := py_round1 preferred_score;
     matched_required := sorted_set matched_required;
     missing_required := sorted_set missing_required;
     matched_preferred := sorted_set matched_preferred;
     missing_preferred := sorted_set missing_preferred |}.

(** ** Files, exceptions and the operations performed on them *)

(** A run of a paragraph with the character formatting the exporter sets:
    bold, size in points, colour, and whether the run holds a page break. *)
Record run := {
  run_text : string;
  run_bold : option bool;
  run_size : option Z;
  run_color : option (Z * Z * Z);
  run_page_break : bool
}.

Record paragraph := {
  par_style : string;
  par_runs : list run
}.

(** The body of a document: its paragraphs, and between them blocks of
    other kinds (tables), which [doc.paragraphs] does not list. *)
Inductive block :=
  | Par (p : paragraph)
  | Other (xml : string).

Definition document := list block.

(** What a path of the file system holds.  [DocxFile d] is a Word
    document whose styles include "Heading 1", as a document made from the
    default template of python-docx has it; [DocxFileWithoutHeadings d] is
    a Word document that defines no such style.  A page of a PDF file either yields its text or makes
    [extract_text] raise. *)
Inductive file :=
  | DocxFile (d : document)
  | DocxFileWithoutHeadings (d : document)
  | PdfFile (pages : list (option string))
  | OtherFile.

(** [KeyError] is what python-docx raises for the name of a style the
    document does not define. *)
Inductive exn :=
  | FileNotFoundError (msg : string)
  | ValueError (msg : string)
  | KeyError (msg : string)
  | ReadError (path : string)
  | IndexError.

Inductive event :=
  | EvExists (path : string)
  | EvOpen (path : string)
  | EvPrint (label : string) (e : exn)
  | EvSave.

Inductive outcome (A : Type) :=
  | Return (a : A)
  | Raise (e : exn).
Arguments Return {A} a.
Arguments Raise {A} e.

(** A computation reads the file system and yields the operations it
    performed, in order, with its outcome. *)
Definition io (A : Type) : Type := gmap string file → list event * outcome A.

Definition io_ret {A} (a : A) : io A := λ _, ([], Return a).

Definition io_bind {A B} (k : A → io B) (m : io A) : io B :=
  λ fs,
    match m fs with
    | (t, Return a) => let '(t', r) := k a fs in (t ++ t', r)
    | (t, Raise e) => (t, Raise e)
    end.

#[global] Instance io_mret : MRet io := @io_ret.
#[global] Instance io_mbind : MBind io := @io_bind.

(** The steps between opening and saving touch no file: they return or
    raise. *)
#[global] Instance outcome_mret : MRet outcome := λ A a, Return a.
#[global] Instance outcome_mbind : MBind outcome :=
  λ A B k m, match m with Return a => k a | Raise e => Raise e end.

Definition lift {A} (r : outcome A) : io A := λ _, ([], r).

(** An index out of range raises [IndexError]. *)
Definition index_or_raise {A} (o : option A) : outcome A :=
  match o with
  | Some a => Return a
  | None => Raise IndexError
  end.

Definition raise {A} (e : exn) : io A := λ _, ([], Raise e).
Definition emit (ev : event) : io unit := λ _, ([ev], Return ()).
Definition lookup_file (path : string) : io (option file) :=
  λ fs, ([], Return (fs !! path)).

(** [os.path.exists(path)]. *)
Definition os_path_exists (path : string) : io bool :=
  emit (EvExists path);;
  f ← lookup_file path;
  mret (bool_decide (is_Some f)).

(** [Document(path)]: whether the document defines the style
    "Heading 1", and its body. *)
Definition open_document (path : string) : io (bool * document) :=
  emit (EvOpen path);;
  f ← lookup_file path;
  match f with
  | Some (DocxFile d) => mret (true, d)
  | Some (DocxFileWithoutHeadings d) => mret (false, d)
  | _ => raise (ReadError path)
  end.

(** The file of a document that has the heading style, or has not. *)
Definition docx_file (heading_style : bool) (d : document) : file :=
  if heading_style then DocxFile d else DocxFileWithoutHeadings d.

(** [doc.save(buffer)]; the buffer is identified with the document it
    serialises. *)
Definition save (doc : document) : io document :=
  emit EvSave;; mret doc.

(** ** [CVExporter] *)

(** [paragraph.text]. *)
Definition par_text (p : paragraph) : string :=
  String.concat EmptyString (run_text <$> par_runs p).

(** [doc.paragraphs]. *)
Fixpoint paragraphs (d : document) : list paragraph :=
  match d with
  | [] => []
  | Par p :: d' => p :: paragraphs d'
  | Other _ :: d' => paragraphs d'
  end.

(** [p = doc.paragraphs[i]._element; p.getparent().remove(p)]. *)
Fixpoint remove_paragraph (i : nat) (d : document) : option document :=
  match d with
  | [] => None
  | Par p :: d' =>
      match i with
      | O => Some d'
      | S i' => (Par p ::.) <$> remove_paragraph i' d'
      end
  | b :: d' => (b ::.) <$> remove_paragraph i d'
  end.

(** [doc.paragraphs[i]._element.addnext(new._element)]. *)
Fixpoint addnext (i : nat) (new : paragraph) (d : document)
    : option document :=
  match d with
  | [] => None
  | Par p :: d' =>
      match i with
      | O => Some (Par p :: Par new :: d')
      | S i' => (Par p ::.) <$> addnext i' new d'
      end
  | b :: d' => (b ::.) <$> addnext i new d'
  end.

(** [' '.join(para.text.strip().upper().split())], for a paragraph whose
    text is plain. *)
Definition text_clean (p : paragraph) : string :=
  Text.join " " (Text.split (Text.upper (Text.strip (par_text p)))).

Definition skills_headers : list string :=
  [ "SKILLS"; "TECHNICAL SKILLS"; "COMPETENCIES"; "EXPERTISE";
    "TECHNOLOGIES"; "CORE SKILLS"; "HARD SKILLS"; "PROFESSIONAL SKILLS" ].

Definition other_section_words : list string :=
  [ "EXPERIENCE"; "EDUCATION"; "PROFESSIONAL"; "WORK"; "INTERNSHIP";
    "PROJECT" ].

Definition next_section_keywords : list string :=
  [ "EXPERIENCE"; "EDUCATION"; "PROJECTS"; "CERTIFICATIONS";
    "LANGUAGES"; "AWARDS"; "PUBLICATIONS"; "WORK EXPERIENCE";
    "PROFESSIONAL EXPERIENCE"; "TRAINING"; "CERTIFICATES" ].

(** [any(word in text for word in words)]. *)
Definition contains_any (words : list string) (text : string) : bool :=
  existsb (λ w, Text.contains w text) words.

Definition is_exact_header (p : paragraph) : bool :=
  bool_decide (text_clean p ∈ skills_headers).

Definition is_loose_header (p : paragraph) : bool :=
  Text.contains "SKILLS" (text_clean p)
  && negb (contains_any other_section_words (text_clean p)).

Definition is_next_section (p : paragraph) : bool :=
  contains_any next_section_keywords (text_clean p)
  && bool_decide (char_count (text_clean p) < 50).

(** A loop that stops at the first element satisfying [f]: its index. *)
Fixpoint first_index {A} (f : A → bool) (l : list A) : option nat :=
  match l with
  | [] => None
  | x :: l' => if f x then Some 0 else S <$> first_index f l'
  end.

(** The two passes that look for the header; [None] is the value -1 of
    [skills_start]. *)
Definition find_skills_start (ps : list paragraph) : option nat :=
  match first_index is_exact_header ps with
  | Some i => Some i
  | None => first_index is_loose_header ps
  end.

(** The loop over [range(skills_start + 1, len(doc.paragraphs))]. *)
Definition find_skills_end (ps : list paragraph) (skills_start : nat) : nat :=
  match first_index is_next_section (drop (S skills_start) ps) with
  | Some k => S skills_start + k
  | None => length ps
  end.

Record existing_skills := {
  soft_skills : list string;
  hard_skills : list string;
  raw_lines : list string
}.

(** [[s.strip() for s in re.split(r'[•\-\*,]', part) if s.strip()]]. *)
Definition skill_items (part : string) : list string :=
  filter (λ s, s ≠ EmptyString) (Text.strip <$> Re.split_items part).

Definition add_soft (e : existing_skills) (l : list string) : existing_skills :=
  {| soft_skills := soft_skills e ++ l;
     hard_skills := hard_skills e;
     raw_lines := raw_lines e |}.

Definition add_hard (e : existing_skills) (l : list string) : existing_skills :=
  {| soft_skills := soft_skills e;
     hard_skills := hard_skills e ++ l;
     raw_lines := raw_lines e |}.

Definition technical_cues : list string :=
  [ "python"; "machine learning"; "docker"; "sql"; "programming" ].
Definition interpersonal_cues : list string :=
  [ "communication"; "teamwork"; "problem"; "creativity"; "leadership" ].

(** One turn of the loop [for text in existing_skills['raw_text']]. *)
Definition parse_line (e : existing_skills) (text : string)
    : existing_skills :=
  let text_lower := Text.lower text in
  if Text.contains "soft skill" text_lower then
    match Re.second_piece "soft skill" text with
    | Some part => add_soft e (skill_items part)
    | None => e
    end
  else if Text.contains "hard skill" text_lower then
    match Re.second_piece "hard skill" text with
    | Some part => add_hard e (skill_items part)
    | None => e
    end
  else
    let skills := skill_items text in
    if contains_any technical_cues text_lower then add_hard e skills
    else if contains_any interpersonal_cues text_lower then add_soft e skills
    else add_hard e skills.

(** [[doc.paragraphs[i] for i in range(lo, hi)]]; an index out of range
    raises. *)
Definition paragraphs_in (d : document) (lo hi : nat)
    : option (list paragraph) :=
  mapM (λ i, paragraphs d !! i) (seq lo (hi - lo)).

Definition extract_existing_skills (doc : document)
    (skills_start skills_end : nat) : option existing_skills :=
  ps ← paragraphs_in doc (S skills_start) skills_end;
  let raw_text :=
    filter (λ s, s ≠ EmptyString) ((λ p, Text.strip (par_text p)) <$> ps) in
  Some (foldl parse_line
          {| soft_skills := []; hard_skills := []; raw_lines := raw_text |}
          raw_text).

(** The loop [for i in reversed(paragraphs_to_remove)]. *)
Definition remove_paragraphs (doc : document) (lo hi : nat)
    : option document :=
  foldl (λ acc i, d ← acc; remove_paragraph i d) (Some doc)
        (reverse (seq lo (hi - lo))).

(** The deduplication loop, [seen] being the set of the same name. *)
Fixpoint merge_skills (seen : gset string) (all_hard_skills : list string)
    : list string :=
  match all_hard_skills with
  | [] => []
  | skill :: rest =>
      let skill_lower := Text.strip (Text.lower skill) in
      if bool_decide (skill_lower ∉ seen)
         && negb (String.eqb skill_lower EmptyString)
      then Text.strip skill :: merge_skills (seen ∪ {[ skill_lower ]}) rest
      else merge_skills seen rest
  end.

(** The paragraphs the exporter creates. *)

Definition plain_run (text : string) : run :=
  {| run_text := text; run_bold := None; run_size := None;
     run_color := None; run_page_break := false |}.

(** [add_run(label)] made bold, 11 pt, of colour (44, 62, 80). *)
Definition label_run (label : string) : run :=
  {| run_text := label; run_bold := Some true; run_size := Some 11%Z;
     run_color := Some (44, 62, 80)%Z; run_page_break := false |}.

(** [run.text] of the run that [add_run(text)] makes: python-docx turns a
    carriage return of the text into a line break, which reads as a line
    feed. *)
Definition run_text_of (text : string) : string :=
  Text.map_chars (λ c, if (Text.code c =? 13)%N then "010"%char else c) text.

(** [add_run(text).font.size = Pt(11)]. *)
Definition sized_run (text : string) : run :=
  {| run_text := run_text_of text; run_bold := None; run_size := Some 11%Z;
     run_color := None; run_page_break := false |}.

(** [doc.add_paragraph()], detached from the body by the next statement
    of the source. *)
Definition blank_paragraph : paragraph :=
  {| par_style := "Normal"; par_runs := [] |}.

Definition labelled_paragraph (label : string) (items : list string)
    : paragraph :=
  {| par_style := "Normal";
     par_runs := [ label_run label; sized_run (Text.join " • " items) ] |}.

(** [doc.add_page_break()]. *)
Definition page_break_paragraph : paragraph :=
  {| par_style := "Normal";
     par_runs := [ {| run_text := EmptyString; run_bold := None; run_size := None;
                     run_color := None; run_page_break := true |} ] |}.

(** [doc.add_heading(text, level=1)]. *)
Definition heading1 (text : string) : paragraph :=
  {| par_style := "Heading 1"; par_runs := [ plain_run text ] |}.

(** The control characters that lxml, which python-docx writes the text of
    a run with, does not accept: those below the space other than the tab,
    the line feed and the carriage return. *)
Definition is_forbidden (c : ascii) : bool :=
  (Text.code c <? 32)%N
  && negb ((Text.code c =? 9)%N || (Text.code c =? 10)%N
           || (Text.code c =? 13)%N).

(** Whether [add_run(text)] accepts a plain text. *)
Fixpoint accepts_text (text : string) : bool :=
  match text with
  | EmptyString => true
  | String c text' => negb (is_forbidden c) && accepts_text text'
  end.

(** What [add_run] raises for a text it does not accept. *)
Definition not_xml_compatible : exn :=
  ValueError ("All strings must be XML compatible: Unicode or ASCII, "
              +:+ "no NULL bytes or control characters").

(** [doc.add_paragraph()], [add_run(label)] and
    [add_run(" • ".join(items))]: the second run is where a text that is
    not accepted raises. *)
Definition add_labelled_paragraph (label : string) (items : list string)
    : outcome paragraph :=
  if accepts_text (Text.join " • " items)
  then Return (labelled_paragraph label items)
  else Raise not_xml_compatible.

(** The branch [if skills_start != -1]. *)
Definition replace_skills_section (doc : document) (skills_start : nat)
    (tailored_skills : list string) : outcome document :=
  let skills_end := find_skills_end (paragraphs doc) skills_start in
  existing_skills_data ←
    index_or_raise (extract_existing_skills doc skills_start skills_end);
  doc ← index_or_raise (remove_paragraphs doc (S skills_start) skills_end);
  let all_hard_skills := hard_skills existing_skills_data ++ tailored_skills in
  let merged_skills := merge_skills ∅ all_hard_skills in
  let insert_position := S skills_start in
  doc ← index_or_raise (addnext skills_start blank_paragraph doc);
  '(doc, insert_position) ←
    match soft_skills existing_skills_data with
    | [] => Return (doc, insert_position)
    | _ :: _ =>
        soft_para ← add_labelled_paragraph "Soft Skills: "
                      (soft_skills existing_skills_data);
        doc ← index_or_raise (addnext insert_position soft_para doc);
        let insert_position := S insert_position in
        doc ← index_or_raise (addnext insert_position blank_paragraph doc);
        Return (doc, S insert_position)
    end;
  hard_para ← add_labelled_paragraph "Hard Skills: " merged_skills;
  doc ← index_or_raise (addnext insert_position hard_para doc);
  let insert_position := S insert_position in
  index_or_raise (addnext insert_position blank_paragraph doc).

(** The branch [else]: the new section goes to the end of the body.
    [doc.add_heading] looks up the style "Heading 1" and raises when the
    document does not define it. *)
Definition append_skills_section (heading_style : bool) (doc : document)
    (tailored_skills : list string) : outcome document :=
  if negb heading_style
  then Raise (KeyError "no style with name 'Heading 1'")
  else
    hard_para ← add_labelled_paragraph "Hard Skills: " tailored_skills;
    Return (doc ++ [ Par page_break_paragraph;
                     Par (heading1 "TECHNICAL SKILLS");
                     Par hard_para ]).

Definition export_docx (original_file_path : string)
    (tailored_skills : list string) : io document :=
  found ← os_path_exists original_file_path;
  if negb found
  then raise (FileNotFoundError ("File not found: " +:+ original_file_path))
  else
    '(heading_style, doc) ← open_document original_file_path;
    doc ← lift
            match find_skills_start (paragraphs doc) with
            | Some skills_start =>
                replace_skills_section doc skills_start tailored_skills
            | None => append_skills_section heading_style doc tailored_skills
            end;
    save doc.

(** ** [CVParser] *)

(** The body of the [try] of [extract_text_from_pdf] once the file is open:
    the text gathered, and the exception that stopped the loop if one
    did. *)
Fixpoint read_pages (path : string) (pages : list (option string))
    (text : string) : string * option exn :=
  match pages with
  | [] => (text, None)
  | Some page_text :: pages' =>
      read_pages path pages' (text +:+ page_text +:+ Text.LF)
  | None :: _ => (text, Some (ReadError path))
  end.

(** The handler [except Exception as e: print(...)]. *)
Definition report (label : string) (err : option exn) : io unit :=
  match err with
  | Some e => emit (EvPrint label e)
  | None => mret ()
  end.

Definition extract_text_from_pdf (file_path : string) : io string :=
  emit (EvOpen file_path);;
  f ← lookup_file file_path;
  let '(text, err) :=
    match f with
    | Some (PdfFile pages) => read_pages file_path pages EmptyString
    | Some _ => (EmptyString, Some (ReadError file_path))
    | None => (EmptyString, Some (FileNotFoundError file_path))
    end in
  report "Error reading PDF: " err;;
  mret text.

Definition extract_text_from_docx (file_path : string) : io string :=
  emit (EvOpen file_path);;
  f ← lookup_file file_path;
  let '(text, err) :=
    match f with
    | Some (DocxFile doc) | Some (DocxFileWithoutHeadings doc) =>
        (foldl (λ text p, text +:+ par_text p +:+ Text.LF) EmptyString (paragraphs doc),
         None)
    | _ => (EmptyString, Some (ReadError file_path))
    end in
  report "Error reading DOCX: " err;;
  mret text.

Definition extract_text (file_path : string) : io string :=
  if Text.endswith file_path ".pdf" then extract_text_from_pdf file_path
  else if Text.endswith file_path ".docx" then extract_text_from_docx file_path
  else raise (ValueError "Unsupported file format").

Section CVParser.

(** [CVParser.extract_personal_info]: the contact fields found in the
    text, which no property below depends on. *)
Variable extract_personal_info : string → PersonalInfo.

Definition parse_cv (file_path : string) : io CVData :=
  raw_text ← extract_text file_path;
  let personal_info := extract_personal_info raw_text in
  let all_cv_skills := extract_skills_from_text raw_text in
  let skills_dict := [ ("technical", sorted_set all_cv_skills) ] in
  mret {| personal_info := personal_info;
          skills := skills_dict;
          raw_text := raw_text;
          original_file_path := file_path |}.

End CVParser.

(** What it means to add a skill to the candidate's skills: the skill is
    appended to the list of its category, the category being created when
    the dictionary does not have it. *)
Fixpoint add_to_category (category skill : string)
    (d : list (string * list string)) : list (string * list string) :=
  match d with
  | [] => [ (category, [skill]) ]
  | (k, l) :: d' =>
      if String.eqb k category then (k, l ++ [skill]) :: d'
      else (k, l) :: add_to_category category skill d'
  end.

Definition add_skill (category skill : string) (cv_data : CVData) : CVData :=
  {| personal_info := personal_info cv_data;
     skills := add_to_category category skill (skills cv_data);
     raw_text := raw_text cv_data;
     original_file_path := original_file_path cv_data |}.

(** ** Notions used to state the properties *)



(** The file at [path] cannot be opened by the reader that its extension
    selects. *)
Definition cannot_open (fs : gmap string file) (path : string) : Prop :=
  (Text.endswith path ".pdf" = true
   ∧ ∀ pages, fs !! path ≠ Some (PdfFile pages))
  ∨ (Text.endswith path ".pdf" = false
     ∧ Text.endswith path ".docx" = true
     ∧ ∀ d, fs !! path ≠ Some (DocxFile d)
            ∧ fs !! path ≠ Some (DocxFileWithoutHeadings d)).

(** The profile of an empty text. *)
Definition empty_profile (info : PersonalInfo) (path : string) : CVData :=
  {| personal_info := info;
     skills := [ ("technical", []) ];
     raw_text := EmptyString;
     original_file_path := path |}.

Definition no_contact : PersonalInfo :=
  Build_PersonalInfo EmptyString EmptyString EmptyString
                     EmptyString EmptyString EmptyString.

(** An [extract_personal_info] that finds no contact field, as the source
    finds none in an empty text. *)
Definition no_personal_info : string → PersonalInfo := λ _, no_contact.

(** A term that begins and ends with a word character. *)
Definition word_bounded (lit : string) : bool :=
  Re.word_at (Text.head lit) && Re.word_at (Text.last_char None lit).

(** ** Examples *)

Definition scorer_example_cv : CVData :=
  {| personal_info := no_contact;
     skills := [ ("technical", ["django"; "python"]) ];
     raw_text := "5 years of Python and Django experience";
     original_file_path := "cv.docx" |}.

Definition scorer_example_job : JobRequirements :=
  {| job_title := EmptyString; company := EmptyString;
     required_skills := ["aws"; "django"; "python"];
     preferred_skills := ["docker"];
     all_skills := ["aws"; "django"; "docker"; "python"];
     responsibilities := [] |}.

Definition scorer_empty_job : JobRequirements :=
  {| job_title := EmptyString; company := EmptyString;
     required_skills := []; preferred_skills := [];
     all_skills := []; responsibilities := [] |}.

Definition labelled_posting : string :=
  "Required: Python, Django, AWS. Preferred: Docker".

(** A posting that names ten skills of the vocabulary and has no
    "required", "must have" or "preferred" label. *)
Definition unlabelled_posting : string :=
  "We are looking for a backend engineer with Python, Java, SQL, Docker, "
  +:+ "AWS, React, Django, Flask, Redis and Kafka.".

Definition unlabelled_posting_skills : list string :=
  [ "aws"; "django"; "docker"; "flask"; "java"; "kafka"; "python"; "react";
    "redis"; "sql" ].

(** A posting whose "Required:" section names all ten of its skills. *)
Definition fully_required_posting : string :=
  "Required: Python, Java, SQL, Docker, AWS, React, Django, Flask, "
  +:+ "Redis, Kafka".

(** The profile and the requirements of the scenario "5 years of Python and
    Django experience" against "Required: Python, Django, AWS. Preferred:
    Docker", the sets being iterated in the order of [elements]. *)
Definition scenario_cv : CVData :=
  {| personal_info := no_contact;
     skills := [ ("technical",
                  sorted_set (extract_skills_from_text
                                "5 years of Python and Django experience")) ];
     raw_text := "5 years of Python and Django experience";
     original_file_path := "cv.docx" |}.

Definition scenario_job : JobRequirements :=
  let skills_dict := extract_skills_from_job (λ _, elements) labelled_posting in
  {| job_title := EmptyString; company := EmptyString;
     required_skills := js_required skills_dict;
     preferred_skills := js_preferred skills_dict;
     all_skills := js_all skills_dict;
     responsibilities := [] |}.

(** A document with a skills section between its header and the
    "EXPERIENCE" heading, and a document without a skills header. *)
Definition text_paragraph (style text : string) : paragraph :=
  {| par_style := style; par_runs := [ plain_run text ] |}.

Definition example_header : paragraph := text_paragraph "Heading 1" "SKILLS".
Definition example_skills_line : paragraph :=
  text_paragraph "Normal" "Hard Skills: Java, SQL".
Definition example_experience : paragraph :=
  text_paragraph "Heading 1" "EXPERIENCE".
Definition example_rest : document :=
  [ Par (text_paragraph "Normal" "Backend developer, 2019-2024");
    Other "<w:tbl/>";
    Par (text_paragraph "Heading 1" "EDUCATION") ].

Definition example_files : gmap string file :=
  {[ "cv.docx" := DocxFile (Par example_header :: Par example_skills_line
                              :: Par example_experience :: example_rest);
     "plain.docx" := DocxFile (Par (text_paragraph "Title" "Jane Doe")
                                 :: Par example_experience :: example_rest) ]}.

(** A document whose paragraph texts are plain: on such a document the
    header tests of the rewriter are those of Python. *)
Definition plain_document (doc : document) : Prop :=
  Forall (λ p, Text.is_plain (par_text p) = true) (paragraphs doc).

(** The same files, with one more document: it has no skills header and,
    as a document in which no heading was ever used, no style
    "Heading 1". *)
Definition example_bare_body : document :=
  [ Par (text_paragraph "Normal" "Jane Doe");
    Par (text_paragraph "Normal" "Backend developer, 2019-2024") ].

Definition example_files_with_bare_document : gmap string file :=
  <[ "bare.docx" := DocxFileWithoutHeadings example_bare_body ]> example_files.

(** * Further code of the repository and further notions

    The rest of [cv_parser.py] ([JobRequirements.__post_init__],
    [CVParser.extract_personal_info],
    [JobDescriptionAnalyzer.extract_responsibilities] and [analyze]) and
    [MotivationLetterGenerator.generate] of [cv_exporter.py], with the
    notions their properties are stated with.

    - [len] of a line or of an item is counted in characters
      ([char_count]), a character of several bytes counting once.
    - The regular expressions of [extract_personal_info] and of
      [extract_responsibilities] are values of [Regex.regex], run by a
      backtracking matcher that tries the alternatives in the order of the
      [re] module; the classes [\d], [\s] and [\w] are the ASCII ones. *)

(** The skill list the pages pass to the exporter:
    [all_skills = existing_skills + missing_skills]. *)
Definition tailored_skills (results : match_result) : list string :=
  matched_preferred results ++ missing_preferred results.

(** An occurrence of [lit] in [text] with no word character before it and
    none after it. *)
Definition whole_word_occurrence (lit text : string) : Prop :=
  ∃ pre post,
    text = pre +:+ lit +:+ post
    ∧ Re.word_at (Text.last_char None pre) = false
    ∧ Re.word_at (Text.head post) = false.

(** The skill lists of a profile, in lower case. *)
Definition lower_case_skills (cv_data : CVData) : list (list string) :=
  (λ skill_category : list string, Text.lower <$> skill_category)
    <$> (snd <$> skills cv_data).

(** The blocks of a body that are not paragraphs. *)
Fixpoint other_blocks (d : document) : list string :=
  match d with
  | [] => []
  | Par _ :: d' => other_blocks d'
  | Other xml :: d' => xml :: other_blocks d'
  end.

(** The paragraphs that replace the body of the skills section. *)
Definition new_section (existing : existing_skills)
    (tailored_skills : list string) : list paragraph :=
  [ blank_paragraph ]
  ++ match soft_skills existing with
     | [] => []
     | _ :: _ => [ labelled_paragraph "Soft Skills: " (soft_skills existing);
                   blank_paragraph ]
     end
  ++ [ labelled_paragraph "Hard Skills: "
         (merge_skills ∅ (hard_skills existing ++ tailored_skills));
       blank_paragraph ].

(** The texts that [add_run] is given, the labels apart, when the section
    is rewritten: the soft skills of the section, if it has any, and the
    merged hard skills. *)
Definition section_runs (existing : existing_skills)
    (tailored_skills : list string) : list string :=
  match soft_skills existing with
  | [] => []
  | _ :: _ => [ Text.join " • " (soft_skills existing) ]
  end
  ++ [ Text.join " • "
         (merge_skills ∅ (hard_skills existing ++ tailored_skills)) ].

(** The same for a whole export: the runs of the section when a header is
    found, the joined incoming skills when none is. *)
Definition written_texts (doc : document) (tailored_skills : list string)
    : list string :=
  match find_skills_start (paragraphs doc) with
  | Some skills_start =>
      match extract_existing_skills doc skills_start
              (find_skills_end (paragraphs doc) skills_start) with
      | Some existing => section_runs existing tailored_skills
      | None => []
      end
  | None => [ Text.join " • " tailored_skills ]
  end.

(** A job all of whose skills the example profile has. *)
Definition scorer_covered_job : JobRequirements :=
  {| job_title := EmptyString; company := EmptyString;
     required_skills := ["Python"]; preferred_skills := ["Django"];
     all_skills := ["Django"; "Python"]; responsibilities := [] |}.

(** A job without required skills. *)
Definition scorer_preferred_only_job : JobRequirements :=
  {| job_title := EmptyString; company := EmptyString;
     required_skills := []; preferred_skills := ["docker"; "python"];
     all_skills := ["docker"; "python"]; responsibilities := [] |}.

(** The example profile and the example job with capital letters. *)
Definition scorer_example_cv_capitals : CVData :=
  {| personal_info := no_contact;
     skills := [ ("technical", ["Django"; "PYTHON"]) ];
     raw_text := "5 years of Python and Django experience";
     original_file_path := "cv.docx" |}.

Definition scorer_example_job_capitals : JobRequirements :=
  {| job_title := EmptyString; company := EmptyString;
     required_skills := ["AWS"; "Django"; "Python"];
     preferred_skills := ["Docker"];
     all_skills := ["aws"; "django"; "docker"; "python"];
     responsibilities := [] |}.

(** The body of "cv.docx". *)
Definition example_cv_body : document :=
  Par example_header :: Par example_skills_line
    :: Par example_experience :: example_rest.

(** The texts of the pages read before the first page whose text cannot be
    extracted. *)
Fixpoint readable_prefix (pages : list (option string)) : list string :=
  match pages with
  | Some page_text :: pages' => page_text :: readable_prefix pages'
  | _ => []
  end.

Definition all_readable (pages : list (option string)) : bool :=
  forallb (λ page, bool_decide (is_Some page)) pages.

(** The text of a list of pages or paragraphs: each one followed by a line
    feed. *)
Definition lines_text (l : list string) : string :=
  String.concat EmptyString ((λ t, t +:+ Text.LF) <$> l).

(** A separator of the class [[•\-\*,]] occurs somewhere in [s]. *)
Fixpoint has_separator (s : string) : bool :=
  match Re.separator s with
  | Some _ => true
  | None =>
      match s with
      | String _ s' => has_separator s'
      | EmptyString => false
      end
  end.

(** An item as the section parser keeps it. *)
Definition clean_item (item : string) : Prop :=
  item ≠ EmptyString ∧ has_separator item = false.

(** No separator begins in [p] when [p] is followed by [s]. *)
Fixpoint separator_free_before (p s : string) : bool :=
  match p with
  | EmptyString => true
  | String c p' =>
      match Re.separator (p +:+ s) with
      | Some _ => false
      | None => separator_free_before p' s
      end
  end.

(** [s.split('\n')]. *)
Fixpoint split_lines_go (cur : string) (s : string) : list string :=
  match s with
  | EmptyString => [String.rev cur]
  | String c s' =>
      if (Text.code c =? 10)%N
      then String.rev cur :: split_lines_go EmptyString s'
      else split_lines_go (String c cur) s'
  end.
Definition split_lines : string → list string := split_lines_go EmptyString.

(** [line and 5 < len(line) < 100 and not line.startswith(('http', 'www'))]. *)
Definition is_heading_line (line : string) : bool :=
  negb (String.eqb line EmptyString)
  && (5 <? char_count line) && (char_count line <? 100)
  && negb (String.prefix "http" line || String.prefix "www" line).

(** The loop [for line in lines[:10]] of [analyze], from the values
    [job_title] and [company] have when a turn begins. *)
Fixpoint title_and_company (job_title company : string)
    (lines : list string) : string * string :=
  match lines with
  | [] => (job_title, company)
  | line :: lines' =>
      let line := Text.strip line in
      if is_heading_line line then
        if String.eqb job_title EmptyString
        then title_and_company line company lines'
        else if String.eqb company EmptyString
                && negb (String.eqb line job_title)
             then (job_title, line)
             else title_and_company job_title company lines'
      else title_and_company job_title company lines'
  end.

Section Analyze.

Variable set_iter : nat → gset string → list string.

(** [JobRequirements.__post_init__] on a record whose four lists are
    given; [list(set(...))] iterates over a fourth set. *)
Definition post_init (job_req : JobRequirements) : JobRequirements :=
  if bool_decide (all_skills job_req = [])
     && negb (bool_decide (required_skills job_req = [])
              && bool_decide (preferred_skills job_req = []))
  then {| job_title := job_title job_req;
          company := company job_req;
          required_skills := required_skills job_req;
          preferred_skills := preferred_skills job_req;
          all_skills :=
            set_iter 3 (list_to_set (required_skills job_req
                                     ++ preferred_skills job_req));
          responsibilities := responsibilities job_req |}
  else job_req.

(** [JobDescriptionAnalyzer.extract_responsibilities]. *)
Variable extract_responsibilities : string → list string.

Definition analyze (job_description : string) : JobRequirements :=
  let lines := split_lines job_description in
  let '(job_title, company) :=
    title_and_company EmptyString EmptyString (take 10 lines) in
  let skills_dict := extract_skills_from_job set_iter job_description in
  let responsibilities := extract_responsibilities job_description in
  post_init {| job_title := job_title;
               company := company;
               required_skills := js_required skills_dict;
               preferred_skills := js_preferred skills_dict;
               all_skills := js_all skills_dict;
               responsibilities := responsibilities |}.

End Analyze.

(** The lines the loop may take as a title or a company. *)
Definition heading_lines (job_description : string) : list string :=
  filter (λ line, is_heading_line line = true)
    (Text.strip <$> take 10 (split_lines job_description)).

(** A skills section whose one line names a hyphenated skill. *)
Definition example_hyphen_body : document :=
  [ Par example_header;
    Par (text_paragraph "Normal" "Python, scikit-learn");
    Par example_experience ].

(** The skills read from that section. *)
Definition example_hyphen_skills : existing_skills :=
  {| soft_skills := [];
     hard_skills := ["Python"; "scikit"; "learn"];
     raw_lines := ["Python, scikit-learn"] |}.

(** A PDF file whose third page cannot be read. *)
Definition example_pdf_files : gmap string file :=
  {[ "cv.pdf" := PdfFile [ Some "Jane Doe"; Some "Python, SQL"; None;
                           Some "Docker" ] ]}.

(** The profile the parser returns for "cv.pdf", whose third page cannot
    be read. *)
Definition example_pdf_profile : CVData :=
  {| personal_info := no_contact;
     skills := [ ("technical", ["python"; "sql"]) ];
     raw_text := lines_text ["Jane Doe"; "Python, SQL"];
     original_file_path := "cv.pdf" |}.

(** Requirements built without a list of all skills. *)
Definition example_partial_job : JobRequirements :=
  {| job_title := EmptyString; company := EmptyString;
     required_skills := ["python"; "sql"];
     preferred_skills := ["docker"; "python"];
     all_skills := []; responsibilities := [] |}.

(** ** [MotivationLetterGenerator] *)

(** The truth value of a string and of a list: not empty. *)
Definition truthy (s : string) : bool := negb (String.eqb s EmptyString).

Definition nonempty {A} (l : list A) : bool :=
  match l with [] => false | _ :: _ => true end.

(** The text added under a condition. *)
Definition when (b : bool) (pieces : list string) : list string :=
  if b then pieces else [].

(** [[s for s in matched_skills if s.lower() in category]]. *)
Definition skills_in (category matched_skills : list string) : list string :=
  filter (λ s, Text.lower s ∈ category) matched_skills.

Definition programming_terms : list string :=
  [ "python"; "java"; "javascript"; "typescript"; "c++"; "c#"; "r"; "scala";
    "go" ].
Definition framework_terms : list string :=
  [ "react"; "angular"; "vue"; "django"; "flask"; "spring boot"; "node.js";
    "express" ].
Definition data_terms : list string :=
  [ "sql"; "postgresql"; "mongodb"; "pandas"; "numpy"; "spark"; "hadoop";
    "tableau"; "power bi" ].
Definition cloud_terms : list string :=
  [ "aws"; "azure"; "gcp"; "docker"; "kubernetes"; "terraform"; "jenkins";
    "ci/cd" ].
Definition ml_terms : list string :=
  [ "machine learning"; "deep learning"; "tensorflow"; "pytorch"; "nlp";
    "computer vision" ].

(** [s.capitalize()]. *)
Definition capitalize (s : string) : string :=
  match s with
  | EmptyString => EmptyString
  | String c s' => String (Text.upper_char c) (Text.lower s')
  end.

(** [", ".join(l[:-1]) + f" and {l[-1]}" if len(l) > 1 else l[0]], for a
    list that is not empty. *)
Definition langs_str (programming_langs : list string) : string :=
  match programming_langs with
  | _ :: _ :: _ =>
      Text.join ", " (removelast programming_langs)
      +:+ " and " +:+ default EmptyString (last programming_langs)
  | _ => default EmptyString (head programming_langs)
  end.

(** One turn of the loop [for resp in responsibilities[:3]]. *)
Definition responsibility_line (resp : string) : list string :=
  [ "• ";
    if truthy resp then capitalize resp
    else "Contribute to innovative projects";
    Text.LF ].

(** [MotivationLetterGenerator.generate]: the pieces that [letter +=] adds,
    in order.  [current_date] is the value of
    [datetime.now().strftime("%B %d, %Y")]. *)
Definition letter_pieces (current_date : string)
    (candidate_name candidate_email candidate_phone candidate_address
       job_title company_name : string)
    (matched_skills responsibilities : list string)
    (candidate_education portfolio_url github_url : string) : list string :=
  let programming_langs := skills_in programming_terms matched_skills in
  let frameworks := skills_in framework_terms matched_skills in
  let data_tools := skills_in data_terms matched_skills in
  let cloud_devops := skills_in cloud_terms matched_skills in
  let ml_ai := skills_in ml_terms matched_skills in
  let subject :=
    if truthy job_title then "Application for " +:+ job_title
    else "Application for Position" in
  [ candidate_name; Text.LF ]
  ++ when (truthy candidate_address) [ candidate_address; Text.LF ]
  ++ [ "Email: "; candidate_email; Text.LF ]
  ++ when (truthy candidate_phone) [ "Mobile: "; candidate_phone; Text.LF ]
  ++ [ current_date; Text.LF; Text.LF ]
  ++ [ company_name; Text.LF;
       "Hiring Team"; Text.LF ]
  ++ when (truthy job_title) [ job_title; Text.LF ]
  ++ [ Text.LF ]
  ++ [ "Subject: "; subject; Text.LF; Text.LF ]
  ++ [ "Dear "; company_name; " Team,"; Text.LF; Text.LF ]
  ++ [ "My name is "; candidate_name ]
  ++ when (truthy candidate_education) [ ", and "; candidate_education ]
  ++ [ ". I am writing to express my strong interest in the "; job_title;
       " position at "; company_name; "."; Text.LF; Text.LF ]
  ++ [ company_name;
       "'s mission and commitment to innovation deeply resonate with me. ";
       "I am particularly inspired by your approach to delivering cutting-edge solutions and ";
       "creating meaningful impact in your industry. This philosophy aligns perfectly with my ";
       "passion for leveraging technology to solve real-world problems and drive positive change.";
       Text.LF; Text.LF ]
  ++ [ "Why I am a strong fit for this role"; Text.LF; Text.LF ]
  ++ [ "I bring hands-on experience in creating data-driven solutions, building robust applications, ";
       "and delivering projects that combine technical excellence with real business value. " ]
  ++ when (nonempty ml_ai || nonempty data_tools)
       [ "Throughout my experience, I have developed and deployed machine learning solutions, ";
         "designed data pipelines, and transformed complex datasets into actionable insights. " ]
  ++ when (nonempty frameworks || nonempty programming_langs)
       [ "I have built full-stack applications, integrated APIs, and created user-friendly interfaces ";
         "that prioritize both functionality and user experience. " ]
  ++ [ "This experience has taught me how to bridge the gap between technical complexity and practical, ";
       "scalable solutions."; Text.LF; Text.LF ]
  ++ when (nonempty matched_skills)
       ([ "Technical Expertise"; Text.LF; Text.LF ]
        ++ when (nonempty programming_langs)
             [ "I am proficient in "; langs_str programming_langs;
               ", enabling me to tackle diverse technical challenges. " ]
        ++ when (nonempty frameworks)
             [ "I have experience with "; Text.join ", " (take 2 frameworks);
               " and other modern frameworks, ";
               "allowing me to build scalable and maintainable applications. " ]
        ++ when (nonempty data_tools)
             [ "My expertise in "; Text.join ", " (take 3 data_tools);
               " helps me design data pipelines, ";
               "perform complex analyses, and create compelling visualizations. " ]
        ++ when (nonempty cloud_devops)
             [ "I work with "; Text.join ", " (take 2 cloud_devops);
               " to deploy, monitor, and scale applications ";
               "in production environments. " ]
        ++ when (nonempty ml_ai)
             [ "My machine learning experience includes ";
               Text.join ", " (take 2 ml_ai); ", ";
               "where I've built predictive models and deployed AI-driven features." ]
        ++ [ Text.LF; Text.LF ])
  ++ [ "Beyond technical skills, I bring creativity, initiative, and meticulous attention to detail. ";
       "I work independently, think in solutions, and value quality in everything I deliver. ";
       "My strong communication and organizational abilities enable me to collaborate effectively with ";
       "cross-functional teams and translate complex technical concepts into clear, actionable insights.";
       Text.LF; Text.LF ]
  ++ when (nonempty responsibilities)
       ([ "I am particularly excited about the opportunity to:"; Text.LF ]
        ++ concat (responsibility_line <$> take 3 responsibilities)
        ++ [ Text.LF ])
  ++ [ "Why "; company_name; " and why me?"; Text.LF; Text.LF ]
  ++ [ "I am highly motivated to contribute to "; company_name;
       "'s mission because it combines my ";
       "technical expertise with my genuine passion for innovation and continuous learning. ";
       "The opportunity to work on impactful projects, collaborate with talented teams, and grow ";
       "professionally in an environment that values excellence excites me greatly.";
       Text.LF; Text.LF ]
  ++ [ "I am eager to learn from your experienced team, contribute meaningfully to real projects, ";
       "and help drive {company_name}'s success through dedication, technical skill, and innovative thinking.";
       Text.LF; Text.LF ]
  ++ [ "I would be honored to join "; company_name; " as a "; job_title;
       " and help make a positive impact. " ]
  ++ when (truthy portfolio_url || truthy github_url)
       ([ "You can explore examples of my work and projects " ]
        ++ (if truthy portfolio_url && truthy github_url
            then [ "on my portfolio ("; portfolio_url; ") and GitHub (";
                   github_url; ")." ]
            else if truthy portfolio_url
            then [ "on my portfolio ("; portfolio_url; ")." ]
            else [ "on my GitHub ("; github_url; ")." ]))
  ++ [ Text.LF; Text.LF ]
  ++ [ "Thank you very much for considering my application. I would be delighted to further discuss ";
       "how my skills, creativity, and enthusiasm can support your mission.";
       Text.LF; Text.LF ]
  ++ [ "Warm regards,"; Text.LF; Text.LF ]
  ++ [ candidate_name; Text.LF ]
  ++ [ candidate_email ]
  ++ when (truthy candidate_phone) [ Text.LF; candidate_phone ].

Definition generate (current_date : string)
    (candidate_name candidate_email candidate_phone candidate_address
       job_title company_name : string)
    (matched_skills responsibilities : list string)
    (candidate_education portfolio_url github_url : string) : string :=
  String.concat EmptyString
    (letter_pieces current_date candidate_name candidate_email
       candidate_phone candidate_address job_title company_name
       matched_skills responsibilities candidate_education portfolio_url
       github_url).

(** ** The backtracking matcher of the [re] module *)

Module Regex.

(** The patterns of [extract_personal_info] and [extract_responsibilities]
    are built from these forms.  [NotStr lit] is the lookahead [(?!lit)],
    used to keep a character of several bytes out of a negated class. *)
Inductive regex :=
  | Eps
  | Chr (p : ascii → bool)
  | Str (lit : string)
  | NotStr (lit : string)
  | Seq (r1 r2 : regex)
  | Alt (r1 r2 : regex)
  | Star (r : regex)
  | Lazy (r : regex)
  | Bound
  | Dollar
  | Ahead (r : regex)
  | Group (r : regex).

(** [r+], [r?], [r{2}], [r{3}], [r{4}], [r{1,3}] and [r{2,}]. *)
Definition Plus (r : regex) : regex := Seq r (Star r).
Definition Opt (r : regex) : regex := Alt r Eps.
Definition Rep2 (r : regex) : regex := Seq r r.
Definition Rep3 (r : regex) : regex := Seq r (Seq r r).
Definition Rep4 (r : regex) : regex := Seq r (Seq r (Seq r r)).
Definition Rep1to3 (r : regex) : regex := Seq r (Opt (Seq r (Opt r))).
Definition Rep2up (r : regex) : regex := Seq r (Seq r (Star r)).

(** [s[:n]]. *)
Fixpoint take_chars (n : nat) (s : string) : string :=
  match n, s with
  | S n', String c s' => String c (take_chars n' s')
  | _, _ => EmptyString
  end.

(** The text consumed between [s] and its suffix [s']. *)
Definition consumed (s s' : string) : string :=
  take_chars (Text.len s - Text.len s') s.

(** One character of a plain text against a class, under [re.IGNORECASE]
    when [ci]. *)
Definition in_class (ci : bool) (p : ascii → bool) (c : ascii) : bool :=
  p c || (ci && (p (Text.lower_char c) || p (Text.upper_char c))).

(** A literal at the start of a plain text [s], under [re.IGNORECASE]
    when [ci]: the characters are equal once lower-cased. *)
Definition at_literal (ci : bool) (lit s : string) : bool :=
  if ci then String.prefix (Text.lower lit) (Text.lower s)
  else String.prefix lit s.

(** The matcher: [r] is matched at the start of [s], the character before
    [s] being [prev] and group 1 holding [cap]; what follows the pattern
    is the continuation [k], and a failure of [k] makes the matcher try
    the next alternative, as the [re] module does: the left branch of an
    alternation before the right one, one more repetition of a greedy
    star before none, none of a lazy star before one more.  A repetition
    that consumes nothing ends the star. *)
Fixpoint exec (r : regex) {R : Type} (ci : bool) (prev : option ascii)
    (s : string) (cap : option string)
    (k : option ascii → string → option string → option R) : option R :=
  match r with
  | Eps => k prev s cap
  | Chr p =>
      match s with
      | String c s' => if in_class ci p c then k (Some c) s' cap else None
      | EmptyString => None
      end
  | Str lit =>
      if at_literal ci lit s
      then k (Text.last_char prev (consumed s (Text.drop_chars (Text.len lit) s)))
             (Text.drop_chars (Text.len lit) s) cap
      else None
  | NotStr lit => if String.prefix lit s then None else k prev s cap
  | Seq r1 r2 =>
      exec r1 ci prev s cap (λ prev' s' cap', exec r2 ci prev' s' cap' k)
  | Alt r1 r2 =>
      match exec r1 ci prev s cap k with
      | Some x => Some x
      | None => exec r2 ci prev s cap k
      end
  | Star r1 =>
      (fix star (n : nat) (prev : option ascii) (s : string)
           (cap : option string) : option R :=
         match n with
         | O => k prev s cap
         | S n' =>
             match exec r1 ci prev s cap
                     (λ prev' s' cap',
                        if Text.len s' <? Text.len s
                        then star n' prev' s' cap' else None)
             with
             | Some x => Some x
             | None => k prev s cap
             end
         end) (Text.len s) prev s cap
  | Lazy r1 =>
      (fix lazy (n : nat) (prev : option ascii) (s : string)
           (cap : option string) : option R :=
         match k prev s cap with
         | Some x => Some x
         | None =>
             match n with
             | O => None
             | S n' =>
                 exec r1 ci prev s cap
                   (λ prev' s' cap',
                      if Text.len s' <? Text.len s
                      then lazy n' prev' s' cap' else None)
             end
         end) (Text.len s) prev s cap
  | Bound => if Re.boundary prev (Text.head s) then k prev s cap else None
  | Dollar => if Re.at_dollar s then k prev s cap else None
  | Ahead r1 =>
      match exec r1 ci prev s cap (λ _ _ _, Some ()) with
      | Some _ => k prev s cap
      | None => None
      end
  | Group r1 =>
      exec r1 ci prev s cap (λ prev' s' _, k prev' s' (Some (consumed s s')))
  end.

(** A match: [group(0)], [group(1)], the text after the match and the
    character before that text. *)
Record found := {
  group0 : string;
  group1 : option string;
  after : string;
  before_after : option ascii
}.

Definition match_at (r : regex) (ci : bool) (prev : option ascii)
    (s : string) : option found :=
  exec r ci prev s None
    (λ prev' s' cap,
       Some {| group0 := consumed s s'; group1 := cap; after := s';
               before_after := prev' |}).

(** [re.search]: the match at the leftmost position that has one. *)
Fixpoint search_from (r : regex) (ci : bool) (prev : option ascii)
    (s : string) : option found :=
  match match_at r ci prev s with
  | Some f => Some f
  | None =>
      match s with
      | String c s' => search_from r ci (Some c) s'
      | EmptyString => None
      end
  end.

Definition search (r : regex) (ci : bool) (s : string) : option found :=
  search_from r ci None s.

(** [re.findall] for a pattern that matches no empty text: the matches
    from left to right, each search beginning where the match before it
    ended; [n] bounds the number of matches. *)
Fixpoint findall_from (n : nat) (r : regex) (ci : bool)
    (prev : option ascii) (s : string) : list found :=
  match n with
  | O => []
  | S n' =>
      match search_from r ci prev s with
      | Some f => f :: findall_from n' r ci (before_after f) (after f)
      | None => []
      end
  end.

Definition findall (r : regex) (ci : bool) (s : string) : list found :=
  findall_from (Text.len s) r ci None s.

(** What the matcher has at a position: the character before it, the
    text from it on, and group 1. *)
Definition state : Type := option ascii * string * option string.

(** [r] can take the matcher from one state to another. *)
Fixpoint matches (ci : bool) (r : regex) (a b : state) : Prop :=
  match r with
  | Eps => b = a
  | Chr p =>
      ∃ c s', a.1.2 = String c s' ∧ in_class ci p c = true
              ∧ b = (Some c, s', a.2)
  | Str lit =>
      at_literal ci lit a.1.2 = true
      ∧ b = (Text.last_char a.1.1
               (consumed a.1.2 (Text.drop_chars (Text.len lit) a.1.2)),
             Text.drop_chars (Text.len lit) a.1.2, a.2)
  | NotStr lit => String.prefix lit a.1.2 = false ∧ b = a
  | Seq r1 r2 => ∃ m, matches ci r1 a m ∧ matches ci r2 m b
  | Alt r1 r2 => matches ci r1 a b ∨ matches ci r2 a b
  | Star r1 => rtc (matches ci r1) a b
  | Lazy r1 => rtc (matches ci r1) a b
  | Bound => Re.boundary a.1.1 (Text.head a.1.2) = true ∧ b = a
  | Dollar => Re.at_dollar a.1.2 = true ∧ b = a
  | Ahead r1 => (∃ m, matches ci r1 a m) ∧ b = a
  | Group r1 =>
      ∃ m, matches ci r1 a m
           ∧ b = (m.1.1, m.1.2, Some (consumed a.1.2 m.1.2))
  end.

End Regex.

Import Regex.

(** ** [CVParser.extract_personal_info] *)

Definition is_char (c d : ascii) : bool := (Text.code c =? Text.code d)%N.

(** A class given by the list of its characters. *)
Fixpoint one_of (chars : string) (c : ascii) : bool :=
  match chars with
  | EmptyString => false
  | String d chars' => is_char c d || one_of chars' c
  end.

Definition is_letter (c : ascii) : bool := Text.is_upper c || Text.is_lower c.

(** [\b[A-Za-z0-9._%+-]+@[A-Za-z0-9.-]+\.[A-Z|a-z]{2,}\b]. *)
Definition email_pattern : regex :=
  Seq Bound
   (Seq (Plus (Chr (λ c, is_letter c || Text.is_digit c || one_of "._%+-" c)))
   (Seq (Chr (one_of "@"))
   (Seq (Plus (Chr (λ c, is_letter c || Text.is_digit c || one_of ".-" c)))
   (Seq (Chr (one_of "."))
   (Seq (Rep2up (Chr (λ c, is_letter c || one_of "|" c)))
        Bound))))).

(** The class [[-.\s]]. *)
Definition is_phone_separator (c : ascii) : bool :=
  one_of "-." c || Text.is_space c.

(** [(\+\d{1,3}[-.\s]?)?\(?\d{3}\)?[-.\s]?\d{3}[-.\s]?\d{4}]. *)
Definition phone_pattern : regex :=
  Seq (Opt (Group (Seq (Chr (one_of "+"))
                  (Seq (Rep1to3 (Chr Text.is_digit))
                       (Opt (Chr is_phone_separator))))))
   (Seq (Opt (Chr (one_of "(")))
   (Seq (Rep3 (Chr Text.is_digit))
   (Seq (Opt (Chr (one_of ")")))
   (Seq (Opt (Chr is_phone_separator))
   (Seq (Rep3 (Chr Text.is_digit))
   (Seq (Opt (Chr is_phone_separator))
        (Rep4 (Chr Text.is_digit)))))))).

(** The class [[\w-]]. *)
Definition is_word_or_hyphen (c : ascii) : bool :=
  Text.is_word c || one_of "-" c.

(** [linkedin\.com/in/[\w-]+] and [github\.com/[\w-]+]. *)
Definition linkedin_pattern : regex :=
  Seq (Str "linkedin.com/in/") (Plus (Chr is_word_or_hyphen)).
Definition github_pattern : regex :=
  Seq (Str "github.com/") (Plus (Chr is_word_or_hyphen)).

(** [[@\d]]. *)
Definition at_or_digit : regex :=
  Chr (λ c, one_of "@" c || Text.is_digit c).

(** [match.group(0)] if there is a match; the field keeps its default,
    the empty string, if there is none. *)
Definition group0_or_empty (m : option found) : string :=
  match m with
  | Some f => group0 f
  | None => EmptyString
  end.

(** [line and 3 < len(line) < 50 and not re.search(r'[@\d]', line)]. *)
Definition is_name_line (line : string) : bool :=
  negb (String.eqb line EmptyString)
  && (3 <? char_count line) && (char_count line <? 50)
  && negb (bool_decide (is_Some (search at_or_digit false line))).

(** The loop [for line in lines[:5]]. *)
Fixpoint name_loop (lines : list string) : string :=
  match lines with
  | [] => EmptyString
  | line :: lines' =>
      let line := Text.strip line in
      if is_name_line line then line else name_loop lines'
  end.

Definition extract_personal_info (text : string) : PersonalInfo :=
  {| name := name_loop (take 5 (split_lines text));
     email := group0_or_empty (search email_pattern false text);
     phone := group0_or_empty (search phone_pattern false text);
     location := EmptyString;
     linkedin := group0_or_empty (search linkedin_pattern true text);
     github := group0_or_empty (search github_pattern true text) |}.

(** ** [JobDescriptionAnalyzer.extract_responsibilities] *)

(** [(?:responsibilities|duties)[:\s]+(.*?)(?=requirements|qualifications|skills|$)]
    under [re.DOTALL]. *)
Definition responsibilities_pattern : regex :=
  Seq (Alt (Str "responsibilities") (Str "duties"))
   (Seq (Plus (Chr Re.is_colon_or_space))
   (Seq (Group (Lazy (Chr (λ _, true))))
        (Ahead (Alt (Str "requirements")
               (Alt (Str "qualifications")
               (Alt (Str "skills") Dollar)))))).

(** [[•\-\*]\s*([^\n•\-\*]+)]. *)
Definition item_pattern : regex :=
  Seq (Alt (Str "•") (Chr (one_of "-*")))
   (Seq (Star (Chr Text.is_space))
        (Group (Plus (Seq (NotStr "•")
                          (Chr (λ c, negb (is_char c "010"
                                           || one_of "-*" c))))))).

(** [re.findall] of a pattern with one group: the texts of the group. *)
Definition findall_group1 (r : regex) (ci : bool) (s : string)
    : list string :=
  (λ f, default EmptyString (group1 f)) <$> findall r ci s.

Definition extract_responsibilities (text : string) : list string :=
  let responsibilities :=
    match search responsibilities_pattern true text with
    | Some found_section =>
        let section_text := default EmptyString (group1 found_section) in
        let items := findall_group1 item_pattern false section_text in
        match items with
        | [] => []
        | _ :: _ =>
            filter (λ item, 20 < char_count item) (Text.strip <$> items)
        end
    | None => []
    end in
  take 5 responsibilities.

(** The number of characters of [s] in the class [q]. *)
Fixpoint count_chars (q : ascii → bool) (s : string) : nat :=
  match s with
  | EmptyString => 0
  | String c s' => (if q c then 1 else 0) + count_chars q s'
  end.

(** [s] is a piece of [text]. *)
Definition piece_of (s text : string) : Prop :=
  ∃ pre post, text = pre +:+ s +:+ post.

Module RegexBounds.
Import Regex.

Definition all_ascii : list ascii := ascii_of_nat <$> seq 0 256.

(** Every character of the class [p] is in [q]; no character is in both. *)
Definition class_subset (p q : ascii → bool) : bool :=
  forallb (λ c, implb (p c) (q c)) all_ascii.
Definition class_disjoint (p q : ascii → bool) : bool :=
  forallb (λ c, negb (p c && q c)) all_ascii.

(** The characters a character of a literal stands for. *)
Definition stands_for (ci : bool) (d c : ascii) : bool :=
  if ci then Ascii.eqb (Text.lower_char d) (Text.lower_char c)
  else Ascii.eqb d c.

(** Bounds on the number of characters of the class [q] in a text the
    pattern consumes; no upper bound is [None]. *)
Fixpoint lit_lo (ci : bool) (q : ascii → bool) (lit : string) : nat :=
  match lit with
  | EmptyString => 0
  | String d lit' =>
      (if class_subset (stands_for ci d) q then 1 else 0) + lit_lo ci q lit'
  end.
Fixpoint lit_hi (ci : bool) (q : ascii → bool) (lit : string) : nat :=
  match lit with
  | EmptyString => 0
  | String d lit' =>
      (if class_disjoint (stands_for ci d) q then 0 else 1) + lit_hi ci q lit'
  end.

Fixpoint lo (ci : bool) (q : ascii → bool) (r : regex) : nat :=
  match r with
  | Chr p => if class_subset (in_class ci p) q then 1 else 0
  | Str lit => lit_lo ci q lit
  | Seq r1 r2 => lo ci q r1 + lo ci q r2
  | Alt r1 r2 => lo ci q r1 `min` lo ci q r2
  | Group r1 => lo ci q r1
  | _ => 0
  end.

Fixpoint hi (ci : bool) (q : ascii → bool) (r : regex) : option nat :=
  match r with
  | Chr p => Some (if class_disjoint (in_class ci p) q then 0 else 1)
  | Str lit => Some (lit_hi ci q lit)
  | Seq r1 r2 =>
      h1 ← hi ci q r1; h2 ← hi ci q r2; Some (h1 + h2)
  | Alt r1 r2 =>
      h1 ← hi ci q r1; h2 ← hi ci q r2; Some (h1 `max` h2)
  | Star r1 | Lazy r1 =>
      match hi ci q r1 with
      | Some 0 => Some 0
      | _ => None
      end
  | Group r1 => hi ci q r1
  | _ => Some 0
  end.

End RegexBounds.

Import Regex RegexBounds.

(** The characters an e-mail address, a telephone number and the last
    part of a profile address may hold. *)
Definition is_email_char (c : ascii) : bool :=
  is_letter c || Text.is_digit c || one_of "._%+-@|" c.
Definition is_phone_char (c : ascii) : bool :=
  Text.is_digit c || one_of "+()-." c || Text.is_space c.

Import Regex RegexBounds.

(** The characters that end an item of the responsibilities: the line
    feed, the hyphen and the asterisk. *)
Definition ends_item (c : ascii) : bool :=
  is_char c "010" || one_of "-*" c.

(** The head of a résumé and a posting with a section of
    responsibilities. *)
Definition example_resume_head : string :=
  "Jane Doe" +:+ Text.LF
  +:+ "jane.doe@example.org | +1 (555) 123-4567" +:+ Text.LF
  +:+ "LinkedIn.com/in/jane-doe GitHub.com/janedoe".

Definition example_posting : string :=
  "Senior Backend Engineer" +:+ Text.LF
  +:+ "Acme Corporation" +:+ Text.LF
  +:+ "Responsibilities:" +:+ Text.LF
  +:+ "- Build and maintain the data platform" +:+ Text.LF
  +:+ "* Design cross-team services for the product" +:+ Text.LF
  +:+ "Requirements: Python, SQL".

(** * Properties *)

(** ** Rounding is monotone *)

Module FloatFacts.
Import Float.
Local Open Scope Q_scope.

Lemma pow2_pos e : 0 < pow2 e.
Proof. apply Qpower_0_lt. reflexivity. Qed.

Lemma pow2_le a b : (a <= b)%Z -> pow2 a <= pow2 b.
Proof. intros H. apply Qpower_le_compat_l; [exact H | discriminate]. Qed.

Lemma pow2_lt_inv a b : pow2 a < pow2 b -> (a < b)%Z.
Proof. intros H. apply (Qpower_lt_compat_l_inv 2); [exact H | reflexivity]. Qed.

Lemma pow2_plus a b : pow2 (a + b) == pow2 a * pow2 b.
Proof. apply Qpower_plus. discriminate. Qed.

Lemma pow2_Z n : (0 <= n)%Z -> inject_Z (2 ^ n) == pow2 n.
Proof. intros H. unfold pow2. rewrite Zpower_Qpower by exact H. reflexivity. Qed.

Lemma ilog2_spec x : 0 < x -> pow2 (ilog2 x) <= x /\ x < pow2 (ilog2 x + 1).
Proof.
  intros Hx. destruct x as [a b]. unfold ilog2. cbn [Qnum Qden].
  assert (Ha : (0 < a)%Z) by (unfold Qlt in Hx; cbn in Hx; lia).
  pose proof (Z.log2_spec a Ha) as [Ha1 Ha2].
  pose proof (Z.log2_spec (Zpos b) (Pos2Z.is_pos b)) as [Hb1 Hb2].
  pose proof (Z.log2_nonneg a) as Hla.
  pose proof (Z.log2_nonneg (Zpos b)) as Hlb.
  set (la := Z.log2 a) in *. set (lb := Z.log2 (Zpos b)) in *.
  assert (Hq : a # b == inject_Z a / inject_Z (Zpos b)) by apply Qmake_Qdiv.
  assert (HB : 0 < inject_Z (Zpos b)) by (unfold Qlt; cbn; lia).
  assert (Hpa : inject_Z (2 ^ la) == pow2 la) by (apply pow2_Z; lia).
  assert (Hpa' : inject_Z (2 ^ (la + 1)) == pow2 (la + 1)) by (apply pow2_Z; lia).
  assert (Hpb : inject_Z (2 ^ lb) == pow2 lb) by (apply pow2_Z; lia).
  assert (Hpb' : inject_Z (2 ^ (lb + 1)) == pow2 (lb + 1)) by (apply pow2_Z; lia).
  assert (Qa1 : pow2 la <= inject_Z a) by (rewrite <- Hpa, <- Zle_Qle; lia).
  assert (Qa2 : inject_Z a < pow2 (la + 1)) by (rewrite <- Hpa', <- Zlt_Qlt; lia).
  assert (Qb1 : pow2 lb <= inject_Z (Zpos b)) by (rewrite <- Hpb, <- Zle_Qle; lia).
  assert (Qb2 : inject_Z (Zpos b) < pow2 (lb + 1)) by (rewrite <- Hpb', <- Zlt_Qlt; lia).
  pose proof (pow2_pos la) as Pla. pose proof (pow2_pos lb) as Plb.
  destruct (Qle_bool (pow2 (la - lb)) (a # b)) eqn:E.
  - apply Qle_bool_iff in E. split; [exact E|].
    rewrite Hq. apply Qlt_shift_div_r; [exact HB|].
    replace (la - lb + 1)%Z with ((la + 1) + - lb)%Z by lia.
    rewrite pow2_plus. unfold pow2 at 2. rewrite Qpower_opp. fold (pow2 lb).
    apply Qlt_le_trans with (pow2 (la + 1) * / pow2 lb * pow2 lb).
    + field_simplify; [|intros F; rewrite F in Plb; inversion Plb]. lra.
    + apply Qmult_le_l; [|exact Qb1].
      apply Qmult_lt_0_compat; [apply pow2_pos | apply Qinv_lt_0_compat, Plb].
  - assert (E' : a # b < pow2 (la - lb)).
    { apply Qnot_le_lt. intros F. apply Qle_bool_iff in F. congruence. }
    split.
    + rewrite Hq. apply Qle_shift_div_l; [exact HB|].
      replace (la - lb - 1)%Z with (la + - (lb + 1))%Z by lia.
      rewrite pow2_plus. unfold pow2 at 2. rewrite Qpower_opp. fold (pow2 (lb + 1)).
      pose proof (pow2_pos (lb + 1)) as Plb'.
      apply Qle_trans with (pow2 la * / pow2 (lb + 1) * pow2 (lb + 1)).
      * apply Qmult_le_l; [|apply Qlt_le_weak, Qb2].
        apply Qmult_lt_0_compat; [apply pow2_pos | apply Qinv_lt_0_compat, Plb'].
      * field_simplify; [|intros F; rewrite F in Plb'; inversion Plb']. lra.
    + replace (la - lb - 1 + 1)%Z with (la - lb)%Z by lia. exact E'.
Qed.

Lemma rhe_bounds x :
  (Qfloor x <= round_half_even x <= Qfloor x + 1)%Z.
Proof.
  unfold round_half_even.
  destruct (Qcompare (x - inject_Z (Qfloor x)) (1 # 2)); [|lia..].
  destruct (Z.even (Qfloor x)); lia.
Qed.

Lemma rhe_mono x y : x <= y -> (round_half_even x <= round_half_even y)%Z.
Proof.
  intros Hxy.
  pose proof (Qfloor_resp_le x y Hxy) as Hf.
  pose proof (rhe_bounds x) as Bx. pose proof (rhe_bounds y) as By.
  destruct (Z.eq_dec (Qfloor x) (Qfloor y)) as [E|N]; [|lia].
  unfold round_half_even in *. rewrite <- E in *.
  set (f := Qfloor x) in *.
  destruct (Qcompare_spec (x - inject_Z f) (1 # 2)) as [Hx|Hx|Hx];
    destruct (Qcompare_spec (y - inject_Z f) (1 # 2)) as [Hy|Hy|Hy];
    try lia; try (destruct (Z.even f); lia); exfalso; lra.
Qed.

Lemma rhe_nonneg x : 0 <= x -> (0 <= round_half_even x)%Z.
Proof.
  intros H. pose proof (rhe_bounds x). pose proof (Qfloor_resp_le 0 x H) as F.
  change (Qfloor 0) with 0%Z in F. lia.
Qed.

(** The scaled value of a positive number lies in [2^52, 2^53). *)
Lemma scaled_range x :
  0 < x ->
  inject_Z (2 ^ 52) <= x / pow2 (ilog2 x - 52) /\
  x / pow2 (ilog2 x - 52) < inject_Z (2 ^ 53).
Proof.
  intros Hx. destruct (ilog2_spec x Hx) as [L U].
  pose proof (pow2_pos (ilog2 x - 52)) as P.
  rewrite (pow2_Z 52), (pow2_Z 53) by lia.
  split.
  - apply Qle_shift_div_l; [exact P|].
    rewrite <- pow2_plus. replace (52 + (ilog2 x - 52))%Z with (ilog2 x) by lia.
    exact L.
  - apply Qlt_shift_div_r; [exact P|].
    rewrite <- pow2_plus. replace (53 + (ilog2 x - 52))%Z with (ilog2 x + 1)%Z by lia.
    exact U.
Qed.

Lemma rnd_pos_bounds x :
  0 < x -> pow2 (ilog2 x) <= rnd_pos x /\ rnd_pos x <= pow2 (ilog2 x + 1).
Proof.
  intros Hx. destruct (scaled_range x Hx) as [L U].
  unfold rnd_pos. rewrite Qred_correct.
  set (e := (ilog2 x - 52)%Z) in *. set (s := x / pow2 e) in *.
  pose proof (pow2_pos e) as P.
  pose proof (rhe_bounds s) as B.
  pose proof (Qfloor_resp_le _ _ L) as FL. rewrite Qfloor_Z in FL.
  assert (FU : (Qfloor s < 2 ^ 53)%Z).
  { rewrite Zlt_Qlt. eapply Qle_lt_trans; [apply Qfloor_le | exact U]. }
  split.
  - replace (ilog2 x) with (52 + e)%Z by (unfold e; lia).
    rewrite pow2_plus. apply Qmult_le_compat_r; [|apply Qlt_le_weak, P].
    rewrite <- (pow2_Z 52) by lia. rewrite <- Zle_Qle. lia.
  - replace (ilog2 x + 1)%Z with (53 + e)%Z by (unfold e; lia).
    rewrite pow2_plus. apply Qmult_le_compat_r; [|apply Qlt_le_weak, P].
    rewrite <- (pow2_Z 53) by lia. rewrite <- Zle_Qle. lia.
Qed.

Lemma rnd_pos_mono x y : 0 < x -> x <= y -> rnd_pos x <= rnd_pos y.
Proof.
  intros Hx Hxy.
  assert (Hy : 0 < y) by lra.
  destruct (ilog2_spec x Hx) as [Lx Ux]. destruct (ilog2_spec y Hy) as [Ly Uy].
  assert (He : (ilog2 x < ilog2 y + 1)%Z).
  { apply pow2_lt_inv. lra. }
  destruct (Z.eq_dec (ilog2 x) (ilog2 y)) as [E|N].
  - unfold rnd_pos. rewrite !Qred_correct, <- E.
    pose proof (pow2_pos (ilog2 x - 52)) as P.
    apply Qmult_le_compat_r; [|apply Qlt_le_weak, P].
    rewrite <- Zle_Qle. apply rhe_mono.
    apply Qmult_le_compat_r; [exact Hxy|].
    apply Qlt_le_weak, Qinv_lt_0_compat, P.
  - destruct (rnd_pos_bounds x Hx) as [_ Bx]. destruct (rnd_pos_bounds y Hy) as [By _].
    apply Qle_trans with (pow2 (ilog2 x + 1)); [exact Bx|].
    apply Qle_trans with (pow2 (ilog2 y)); [|exact By].
    apply pow2_le. lia.
Qed.

Lemma Qnum_pos_iff x : (0 < Qnum x)%Z <-> 0 < x.
Proof. unfold Qlt. cbn. lia. Qed.

Lemma rnd_nonneg x : 0 <= x -> 0 <= rnd x.
Proof.
  intros H. unfold rnd. destruct (Qnum x) eqn:E; [lra| |].
  - assert (Hx : 0 < x) by (apply Qnum_pos_iff; lia).
    destruct (rnd_pos_bounds x Hx) as [L _].
    pose proof (pow2_pos (ilog2 x)). lra.
  - exfalso. unfold Qle in H. cbn in H. lia.
Qed.

Theorem rnd_mono x y : 0 <= x -> x <= y -> rnd x <= rnd y.
Proof.
  intros Hx Hxy. unfold rnd at 1. destruct (Qnum x) eqn:E.
  - apply rnd_nonneg. lra.
  - assert (Px : 0 < x) by (apply Qnum_pos_iff; lia).
    assert (Py : 0 < y) by lra.
    unfold rnd. apply Qnum_pos_iff in Py.
    destruct (Qnum y) eqn:F; try lia.
    apply rnd_pos_mono; assumption.
  - exfalso. unfold Qle in Hx. cbn in Hx. lia.
Qed.

Lemma rnd_small_int z : (0 <= z)%Z -> 0 <= inject_Z z.
Proof. intros H. change 0 with (inject_Z 0). rewrite <- Zle_Qle. exact H. Qed.

Lemma mul_mono a b c : 0 <= a -> a <= b -> 0 <= c -> mul a c <= mul b c.
Proof.
  intros Ha Hab Hc. unfold mul. apply rnd_mono.
  - apply Qmult_le_0_compat; assumption.
  - apply Qmult_le_compat_r; assumption.
Qed.

Lemma mul_nonneg a c : 0 <= a -> 0 <= c -> 0 <= mul a c.
Proof. intros Ha Hc. apply rnd_nonneg, Qmult_le_0_compat; assumption. Qed.

Lemma add_mono a b c d :
  0 <= a -> a <= b -> 0 <= c -> c <= d -> add a c <= add b d.
Proof. intros ????. unfold add. apply rnd_mono; lra. Qed.

Lemma int_div_nonneg a n : (0 <= a)%Z -> (0 < n)%Z -> 0 <= int_div a n.
Proof.
  intros Ha Hn. apply rnd_nonneg.
  apply Qle_shift_div_l.
  - change 0 with (inject_Z 0). rewrite <- Zlt_Qlt. exact Hn.
  - rewrite Qmult_0_l. apply rnd_small_int, Ha.
Qed.

Lemma int_div_mono a b n :
  (0 <= a)%Z -> (a <= b)%Z -> (0 < n)%Z -> int_div a n <= int_div b n.
Proof.
  intros Ha Hab Hn. unfold int_div.
  assert (Pn : 0 < inject_Z n) by (change 0 with (inject_Z 0); rewrite <- Zlt_Qlt; exact Hn).
  apply rnd_mono.
  - apply Qle_shift_div_l; [exact Pn|]. rewrite Qmult_0_l. apply rnd_small_int, Ha.
  - apply Qmult_le_compat_r.
    + rewrite <- Zle_Qle. exact Hab.
    + apply Qlt_le_weak, Qinv_lt_0_compat, Pn.
Qed.

Lemma round1_mono x y : 0 <= x -> x <= y -> round1 x <= round1 y.
Proof.
  intros Hx Hxy. unfold round1.
  assert (H10 : 0 <= x * 10) by lra.
  pose proof (rhe_nonneg _ H10) as N.
  assert (M : (round_half_even (x * 10) <= round_half_even (y * 10))%Z)
    by (apply rhe_mono; lra).
  apply rnd_small_int in N. rewrite Zle_Qle in M.
  revert N M.
  generalize (inject_Z (round_half_even (x * 10))) as p.
  generalize (inject_Z (round_half_even (y * 10))) as q.
  intros q p N M. apply rnd_mono.
  - apply Qle_shift_div_l; [reflexivity | lra].
  - apply Qmult_le_compat_r; [exact M | discriminate].
Qed.

Lemma round1_nonneg x : 0 <= x -> 0 <= round1 x.
Proof.
  intros Hx. unfold round1. apply rnd_nonneg.
  assert (H10 : 0 <= x * 10) by lra.
  pose proof (rnd_small_int _ (rhe_nonneg _ H10)) as N. revert N.
  generalize (inject_Z (round_half_even (x * 10))) as p. intros p N.
  apply Qle_shift_div_l; [reflexivity | lra].
Qed.

Lemma lit_0_7_nonneg : 0 <= lit_0_7.
Proof. vm_compute. discriminate. Qed.

Lemma lit_0_3_nonneg : 0 <= lit_0_3.
Proof. vm_compute. discriminate. Qed.

Lemma hundred_nonneg : 0 <= of_int 100.
Proof. vm_compute. discriminate. Qed.

End FloatFacts.

(** ** Sorting *)

Lemma elem_of_sorted (l : list string) (x : string) : x ∈ sorted l ↔ x ∈ l.
Proof. unfold sorted. by rewrite merge_sort_Permutation. Qed.

Lemma sorted_Permutation (l : list string) : sorted l ≡ₚ l.
Proof. apply merge_sort_Permutation. Qed.

Lemma sorted_StronglySorted (l : list string) :
  StronglySorted String.le (sorted l).
Proof. apply StronglySorted_merge_sort; apply _. Qed.

Lemma NoDup_sorted (l : list string) : NoDup l → NoDup (sorted l).
Proof. intros H. by rewrite sorted_Permutation. Qed.

(** The result of [sorted] does not depend on the order of its argument. *)
Lemma sorted_order_irrelevant (l1 l2 : list string) :
  l1 ≡ₚ l2 → sorted l1 = sorted l2.
Proof.
  intros H. apply (Sorted_unique String.le).
  - apply Sorted_merge_sort; apply _.
  - apply Sorted_merge_sort; apply _.
  - unfold sorted. by rewrite !merge_sort_Permutation.
Qed.

Lemma elem_of_sorted_set (s : gset string) (x : string) :
  x ∈ sorted_set s ↔ x ∈ s.
Proof. unfold sorted_set. by rewrite elem_of_sorted, elem_of_elements. Qed.

(** ** The match scorer *)

Lemma cv_skill_set_fold (cats : list (list string)) (acc : gset string)
    (x : string) :
  x ∈ foldl (λ cv_skills skill_category,
               cv_skills ∪ list_to_set (Text.lower <$> skill_category))
            acc cats
  ↔ x ∈ acc ∨ ∃ cat, cat ∈ cats ∧ x ∈ Text.lower <$> cat.
Proof.
  revert acc. induction cats as [|c cats IH]; intros acc; simpl.
  - set_solver.
  - rewrite IH. set_solver.
Qed.

(** The candidate's set holds exactly the lower-cased skills of the
    categories. *)
Lemma elem_of_cv_skill_set (cv : CVData) (x : string) :
  x ∈ cv_skill_set cv
  ↔ ∃ cat, cat ∈ (snd <$> skills cv) ∧ x ∈ Text.lower <$> cat.
Proof.
  unfold cv_skill_set. rewrite cv_skill_set_fold. set_solver.
Qed.

Lemma add_to_category_cats (category skill : string)
    (d : list (string * list string)) (x : string) :
  (∃ cat, cat ∈ (snd <$> add_to_category category skill d)
          ∧ x ∈ Text.lower <$> cat)
  ↔ x = Text.lower skill ∨ ∃ cat, cat ∈ (snd <$> d) ∧ x ∈ Text.lower <$> cat.
Proof.
  induction d as [|[k l] d IH]; simpl.
  - split.
    + intros (cat & ->%list_elem_of_singleton & Hx).
      left. by apply list_elem_of_singleton in Hx.
    + intros [->|(cat & Hc & _)]; [|by apply elem_of_nil in Hc].
      exists [skill]. split; apply list_elem_of_here.
  - destruct (String.eqb k category); simpl.
    + split.
      * intros (cat & [->|Hc]%elem_of_cons & Hx).
        -- rewrite fmap_app in Hx. apply elem_of_app in Hx as [Hx|Hx].
           ++ right. exists l. split; [apply list_elem_of_here | done].
           ++ left. by apply list_elem_of_singleton in Hx.
        -- right. exists cat. split; [by apply list_elem_of_further | done].
      * intros [->|(cat & [->|Hc]%elem_of_cons & Hx)].
        -- exists (l ++ [skill]). split; [apply list_elem_of_here|].
           rewrite fmap_app. apply elem_of_app. right. apply list_elem_of_here.
        -- exists (l ++ [skill]). split; [apply list_elem_of_here|].
           rewrite fmap_app. apply elem_of_app. by left.
        -- exists cat. split; [by apply list_elem_of_further | done].
    + split.
      * intros (cat & [->|Hc]%elem_of_cons & Hx).
        -- right. exists l. split; [apply list_elem_of_here | done].
        -- destruct (proj1 IH (ex_intro _ cat (conj Hc Hx)))
             as [?|(c & ? & ?)]; [by left|].
           right. exists c. split; [by apply list_elem_of_further | done].
      * intros [->|(cat & [->|Hc]%elem_of_cons & Hx)].
        -- destruct (proj2 IH (or_introl eq_refl)) as (c & ? & ?).
           exists c. split; [by apply list_elem_of_further | done].
        -- exists l. split; [apply list_elem_of_here | done].
        -- destruct (proj2 IH (or_intror (ex_intro _ cat (conj Hc Hx))))
             as (c & ? & ?).
           exists c. split; [by apply list_elem_of_further | done].
Qed.

(** Adding a skill adds its lower-cased form to the candidate's set and
    nothing else. *)
Lemma cv_skill_set_add_skill (category skill : string) (cv : CVData) :
  cv_skill_set (add_skill category skill cv)
  = cv_skill_set cv ∪ {[ Text.lower skill ]}.
Proof.
  apply set_eq. intros x.
  rewrite elem_of_union, elem_of_singleton, !elem_of_cv_skill_set.
  unfold add_skill; simpl. rewrite add_to_category_cats. tauto.
Qed.

(** The scores of the match scorer are never negative. *)
Lemma percentage_nonneg (matched wanted : gset string) :
  (0 <= as_float (percentage matched wanted))%Q.
Proof.
  unfold percentage. case_bool_decide as E; simpl.
  - apply FloatFacts.hundred_nonneg.
  - assert (size wanted ≠ 0) by (by intros ?%size_empty_inv%leibniz_equiv).
    apply FloatFacts.mul_nonneg; [|apply FloatFacts.hundred_nonneg].
    apply FloatFacts.int_div_nonneg; lia.
Qed.

(** A larger set of matched skills gives a percentage at least as large. *)
Lemma percentage_mono (matched matched' wanted : gset string) :
  matched ⊆ matched' →
  (as_float (percentage matched wanted)
   <= as_float (percentage matched' wanted))%Q.
Proof.
  intros Hsub. unfold percentage. case_bool_decide as E; simpl.
  - apply Qle_refl.
  - assert (size wanted ≠ 0) by (by intros ?%size_empty_inv%leibniz_equiv).
    pose proof (subseteq_size _ _ Hsub).
    apply FloatFacts.mul_mono; [| |apply FloatFacts.hundred_nonneg].
    + apply FloatFacts.int_div_nonneg; lia.
    + apply FloatFacts.int_div_mono; lia.
Qed.

Lemma num_value_round1_mono (a b : pynum) :
  (0 <= as_float a)%Q → (as_float a <= as_float b)%Q →
  (a = b ∨ ∃ x y, a = PyFloat x ∧ b = PyFloat y) →
  (num_value (py_round1 a) <= num_value (py_round1 b))%Q.
Proof.
  intros Ha Hab [->|(x & y & -> & ->)]; [apply Qle_refl|].
  simpl in *. by apply FloatFacts.round1_mono.
Qed.

Lemma percentage_shape (m m' w : gset string) :
  percentage m w = percentage m' w
  ∨ ∃ x y, percentage m w = PyFloat x ∧ percentage m' w = PyFloat y.
Proof. unfold percentage. case_bool_decide; eauto. Qed.

(** C3: in the result of the match scorer, the matched and the missing
    required skills have no element in common and together are exactly the
    lower-cased required skills of the job; likewise for the preferred
    skills. *)
Theorem matched_and_missing_partition_job_skills
    (cv_data : CVData) (job_req : JobRequirements) :
  (∀ s, s ∈ matched_required (calculate_match_score cv_data job_req) →
        s ∉ missing_required (calculate_match_score cv_data job_req))
  ∧ (∀ s, s ∈ matched_required (calculate_match_score cv_data job_req)
          ∨ s ∈ missing_required (calculate_match_score cv_data job_req)
          ↔ s ∈ Text.lower <$> required_skills job_req)
  ∧ (∀ s, s ∈ matched_preferred (calculate_match_score cv_data job_req) →
          s ∉ missing_preferred (calculate_match_score cv_data job_req))
  ∧ (∀ s, s ∈ matched_preferred (calculate_match_score cv_data job_req)
          ∨ s ∈ missing_preferred (calculate_match_score cv_data job_req)
          ↔ s ∈ Text.lower <$> preferred_skills job_req).
Proof.
  unfold calculate_match_score; simpl.
  repeat split; intros; rewrite ?elem_of_sorted_set in *;
    try (destruct (decide (s ∈ cv_skill_set cv_data))); set_solver.
Qed.

(** C5: when the job lists neither required nor preferred skills, the
    required and the preferred score are the integer 100 and the overall
    score is the float 100.0. *)
Theorem empty_job_scores_100 (cv_data : CVData) (job_req : JobRequirements) :
  required_skills job_req = [] →
  preferred_skills job_req = [] →
  required_score (calculate_match_score cv_data job_req) = PyInt 100
  ∧ preferred_score (calculate_match_score cv_data job_req) = PyInt 100
  ∧ overall_score (calculate_match_score cv_data job_req) = PyFloat 100
  ∧ (num_value (overall_score (calculate_match_score cv_data job_req))
     == 100)%Q.
Proof.
  intros Hr Hp. unfold calculate_match_score. rewrite Hr, Hp. simpl.
  unfold percentage. rewrite !bool_decide_eq_true_2 by done. simpl.
  repeat split; by vm_compute.
Qed.

(** C6: adding to the candidate's skills a skill that the job requires or
    prefers (compared in lower case) lowers none of the three scores. *)
Theorem adding_a_wanted_skill_lowers_no_score
    (cv_data : CVData) (job_req : JobRequirements) (category s : string) :
  Text.lower s ∈ Text.lower <$> (required_skills job_req
                                 ++ preferred_skills job_req) →
  (num_value (required_score (calculate_match_score cv_data job_req))
   <= num_value (required_score
        (calculate_match_score (add_skill category s cv_data) job_req)))%Q
  ∧ (num_value (preferred_score (calculate_match_score cv_data job_req))
     <= num_value (preferred_score
          (calculate_match_score (add_skill category s cv_data) job_req)))%Q
  ∧ (num_value (overall_score (calculate_match_score cv_data job_req))
     <= num_value (overall_score
          (calculate_match_score (add_skill category s cv_data) job_req)))%Q.
Proof.
  intros _. unfold calculate_match_score. simpl.
  rewrite cv_skill_set_add_skill.
  set (cv := cv_skill_set cv_data).
  set (jr := list_to_set (Text.lower <$> required_skills job_req) : gset string).
  set (jp := list_to_set (Text.lower <$> preferred_skills job_req) : gset string).
  assert (Hr : cv ∩ jr ⊆ (cv ∪ {[Text.lower s]}) ∩ jr) by set_solver.
  assert (Hp : cv ∩ jp ⊆ (cv ∪ {[Text.lower s]}) ∩ jp) by set_solver.
  pose proof (percentage_mono _ _ jr Hr) as Mr.
  pose proof (percentage_mono _ _ jp Hp) as Mp.
  pose proof (percentage_nonneg (cv ∩ jr) jr) as Nr.
  pose proof (percentage_nonneg (cv ∩ jp) jp) as Np.
  split; [|split].
  - apply num_value_round1_mono; auto using percentage_shape.
  - apply num_value_round1_mono; auto using percentage_shape.
  - apply FloatFacts.round1_mono.
    + apply FloatFacts.rnd_nonneg.
      pose proof (FloatFacts.mul_nonneg _ _ Nr FloatFacts.lit_0_7_nonneg).
      pose proof (FloatFacts.mul_nonneg _ _ Np FloatFacts.lit_0_3_nonneg).
      lra.
    + apply FloatFacts.add_mono.
      * exact (FloatFacts.mul_nonneg _ _ Nr FloatFacts.lit_0_7_nonneg).
      * exact (FloatFacts.mul_mono _ _ _ Nr Mr FloatFacts.lit_0_7_nonneg).
      * exact (FloatFacts.mul_nonneg _ _ Np FloatFacts.lit_0_3_nonneg).
      * exact (FloatFacts.mul_mono _ _ _ Np Mp FloatFacts.lit_0_3_nonneg).
Qed.

Lemma empty_job_scores_100_witness :
  required_score (calculate_match_score scorer_example_cv scorer_empty_job)
    = PyInt 100
  ∧ preferred_score (calculate_match_score scorer_example_cv scorer_empty_job)
    = PyInt 100
  ∧ overall_score (calculate_match_score scorer_example_cv scorer_empty_job)
    = PyFloat 100
  ∧ (num_value
       (overall_score (calculate_match_score scorer_example_cv scorer_empty_job))
     == 100)%Q.
Proof.
  apply (empty_job_scores_100 scorer_example_cv scorer_empty_job); reflexivity.
Defined.

Lemma adding_a_wanted_skill_lowers_no_score_witness :
  (num_value
     (required_score (calculate_match_score scorer_example_cv scorer_example_job))
   <= num_value (required_score
        (calculate_match_score (add_skill "technical" "AWS" scorer_example_cv)
           scorer_example_job)))%Q
  ∧ (num_value
       (preferred_score
          (calculate_match_score scorer_example_cv scorer_example_job))
     <= num_value (preferred_score
          (calculate_match_score (add_skill "technical" "AWS" scorer_example_cv)
             scorer_example_job)))%Q
  ∧ (num_value
       (overall_score
          (calculate_match_score scorer_example_cv scorer_example_job))
     <= num_value (overall_score
          (calculate_match_score (add_skill "technical" "AWS" scorer_example_cv)
             scorer_example_job)))%Q.
Proof.
  apply (adding_a_wanted_skill_lowers_no_score
           scorer_example_cv scorer_example_job "technical" "AWS").
  vm_compute. apply list_elem_of_here.
Defined.

(** The scenario end to end: two of the three required skills are
    matched and the preferred one is missing; the scores are the floats
    66.7, 0.0 and 46.7. *)
Lemma end_to_end_scenario :
  required_skills scenario_job = ["aws"; "django"; "python"]
  ∧ preferred_skills scenario_job = ["docker"]
  ∧ calculate_match_score scenario_cv scenario_job
    = {| overall_score := PyFloat (3286220353096909 # 70368744177664);
         required_score := PyFloat (4693595236650189 # 70368744177664);
         preferred_score := PyFloat 0;
         matched_required := ["django"; "python"];
         missing_required := ["aws"];
         matched_preferred := [];
         missing_preferred := ["docker"] |}.
Proof. repeat split; vm_compute; exact eq_refl. Qed.

(** ** The job posting analyzer *)

Lemma categorize_filter (required_text : string) (l : list string) :
  categorize required_text l
  = (filter (λ s, in_required required_text s) l,
     filter (λ s, ¬ in_required required_text s) l).
Proof.
  induction l as [|x l IH]; [done|].
  simpl. rewrite IH, !filter_cons.
  destruct (in_required required_text x) eqn:E;
    repeat case_decide; naive_solver.
Qed.

Section JobAnalyzerFacts.

Variable set_iter : nat → gset string → list string.

(** Iterating over a set yields each of its elements once, in some
    order. *)
Hypothesis set_iter_elements : ∀ i X, set_iter i X ≡ₚ elements X.

Lemma elem_of_set_iter (i : nat) (X : gset string) (x : string) :
  x ∈ set_iter i X ↔ x ∈ X.
Proof. by rewrite set_iter_elements, elem_of_elements. Qed.

Lemma NoDup_set_iter (i : nat) (X : gset string) : NoDup (set_iter i X).
Proof. rewrite set_iter_elements. apply NoDup_elements. Qed.

Lemma set_iter_empty (i : nat) : set_iter i ∅ = [].
Proof.
  apply Permutation_nil_r. rewrite set_iter_elements.
  by rewrite elements_empty.
Qed.

(** The two lists before the 70/30 split: no skill in both, every
    extracted skill in one of them. *)
Lemma categorized_lists (required_text : string) (all : gset string)
    (req pref : list string) :
  categorize required_text (set_iter 0 all) = (req, pref) →
  (∀ x, x ∈ set_iter 1 (list_to_set req)
        ↔ x ∈ all ∧ in_required required_text x)
  ∧ (∀ x, x ∈ set_iter 2 (list_to_set pref)
          ↔ x ∈ all ∧ ¬ in_required required_text x).
Proof.
  rewrite categorize_filter. intros [= <- <-].
  split; intros x;
    rewrite elem_of_set_iter, elem_of_list_to_set, list_elem_of_filter,
      elem_of_set_iter; tauto.
Qed.

Lemma take_drop_disjoint (n : nat) (l : list string) (x : string) :
  NoDup l → x ∈ take n l → x ∉ drop n l.
Proof.
  intros Hl. rewrite <- (take_drop n l) in Hl.
  apply NoDup_app in Hl as (_ & H & _). apply H.
Qed.

Lemma take_drop_union (n : nat) (l : list string) (x : string) :
  x ∈ take n l ∨ x ∈ drop n l ↔ x ∈ l.
Proof. by rewrite <- elem_of_app, take_drop. Qed.

(** C10: the required and the preferred list returned for a job posting
    share no skill, together hold exactly the skills of the list of all
    skills, and each is sorted and without duplicates. *)
Theorem job_skill_lists_partition_all_skills (text : string) :
  (∀ s, s ∈ js_required (extract_skills_from_job set_iter text) →
        s ∉ js_preferred (extract_skills_from_job set_iter text))
  ∧ (∀ s, s ∈ js_required (extract_skills_from_job set_iter text)
          ∨ s ∈ js_preferred (extract_skills_from_job set_iter text)
          ↔ s ∈ js_all (extract_skills_from_job set_iter text))
  ∧ StronglySorted String.le
      (js_required (extract_skills_from_job set_iter text))
  ∧ NoDup (js_required (extract_skills_from_job set_iter text))
  ∧ StronglySorted String.le
      (js_preferred (extract_skills_from_job set_iter text))
  ∧ NoDup (js_preferred (extract_skills_from_job set_iter text)).
Proof.
  unfold extract_skills_from_job.
  set (all := extract_skills_from_text text).
  set (rt := find_required_text (Text.lower text)).
  destruct (categorize rt (set_iter 0 all)) as [req pref] eqn:Hc.
  destruct (categorized_lists _ _ _ _ Hc) as [Hreq Hpref].
  pose proof (NoDup_set_iter 1 (list_to_set req)) as Nr.
  pose proof (NoDup_set_iter 2 (list_to_set pref)) as Np.
  set (R := set_iter 1 (list_to_set req)) in *.
  set (P := set_iter 2 (list_to_set pref)) in *.
  destruct (bool_decide (P = []) && bool_decide (3 < length R)) eqn:Hcond;
    simpl.
  - apply andb_true_iff in Hcond as [HP _]. apply bool_decide_eq_true in HP.
    set (n := split_point (length R)).
    assert (Hall : ∀ x, x ∈ R ↔ x ∈ all).
    { intros x. rewrite Hreq. split; [tauto|]. intros Hx. split; [done|].
      destruct (in_required rt x) eqn:E; [done|].
      assert (x ∈ P) as Hin by (apply Hpref; split; [done | rewrite E; exact id]).
      rewrite HP in Hin. by apply elem_of_nil in Hin. }
    repeat split.
    + intros s. rewrite !elem_of_sorted. by apply take_drop_disjoint.
    + rewrite !elem_of_sorted, take_drop_union, Hall, elem_of_set_iter. done.
    + rewrite !elem_of_sorted, take_drop_union, Hall, elem_of_set_iter. done.
    + apply sorted_StronglySorted.
    + apply NoDup_sorted. rewrite <- (take_drop n R) in Nr.
      by apply NoDup_app in Nr as (? & _ & _).
    + apply sorted_StronglySorted.
    + apply NoDup_sorted. rewrite <- (take_drop n R) in Nr.
      by apply NoDup_app in Nr as (_ & _ & ?).
  - repeat split.
    + intros s. rewrite !elem_of_sorted, Hreq, Hpref. tauto.
    + rewrite !elem_of_sorted, Hreq, Hpref, elem_of_set_iter. tauto.
    + rewrite !elem_of_sorted, Hreq, Hpref, elem_of_set_iter.
      intros Hs. destruct (in_required rt s); [left | right]; naive_solver.
    + apply sorted_StronglySorted.
    + by apply NoDup_sorted.
    + apply sorted_StronglySorted.
    + by apply NoDup_sorted.
Qed.

(** Without a "required" or "must have" section every extracted skill is
    classified as preferred and the 70/30 split does not take place. *)
Lemma unlabelled_posting_has_no_required_skill (text : string) :
  find_required_text (Text.lower text) = EmptyString →
  js_required (extract_skills_from_job set_iter text) = []
  ∧ js_preferred (extract_skills_from_job set_iter text)
    = js_all (extract_skills_from_job set_iter text).
Proof.
  intros Hrt. unfold extract_skills_from_job. rewrite Hrt.
  set (all := extract_skills_from_text text).
  rewrite categorize_filter.
  assert (Hreq : filter (λ s, in_required EmptyString s) (set_iter 0 all)
                 = []).
  { apply elem_of_nil_inv. intros x [Hx _]%list_elem_of_filter. done. }
  assert (Hpref : filter (λ s, ¬ in_required EmptyString s) (set_iter 0 all)
                  = set_iter 0 all).
  { induction (set_iter 0 all) as [|x l IH]; [done|].
    rewrite filter_cons. rewrite decide_True by (by intros ?). by rewrite IH. }
  rewrite Hreq, Hpref. change (list_to_set []) with (∅ : gset string).
  rewrite set_iter_empty.
  assert (HP : set_iter 2 (list_to_set (set_iter 0 all)) ≡ₚ set_iter 0 all).
  { apply NoDup_Permutation; [apply NoDup_set_iter..|].
    intros x. by rewrite elem_of_set_iter, elem_of_list_to_set. }
  destruct (bool_decide (_ = []) && bool_decide (3 < length [])) eqn:Hcond.
  - apply andb_true_iff in Hcond as [_ H3]. apply bool_decide_eq_true in H3.
    simpl in H3. lia.
  - simpl. split; [done|]. by apply sorted_order_irrelevant.
Qed.

End JobAnalyzerFacts.

Lemma job_skill_lists_partition_all_skills_witness :
  (∀ s, s ∈ js_required (extract_skills_from_job (λ _, elements) labelled_posting) →
        s ∉ js_preferred (extract_skills_from_job (λ _, elements) labelled_posting))
  ∧ (∀ s, s ∈ js_required (extract_skills_from_job (λ _, elements) labelled_posting)
          ∨ s ∈ js_preferred (extract_skills_from_job (λ _, elements) labelled_posting)
          ↔ s ∈ js_all (extract_skills_from_job (λ _, elements) labelled_posting))
  ∧ StronglySorted String.le
      (js_required (extract_skills_from_job (λ _, elements) labelled_posting))
  ∧ NoDup (js_required (extract_skills_from_job (λ _, elements) labelled_posting))
  ∧ StronglySorted String.le
      (js_preferred (extract_skills_from_job (λ _, elements) labelled_posting))
  ∧ NoDup (js_preferred (extract_skills_from_job (λ _, elements) labelled_posting)).
Proof.
  apply (job_skill_lists_partition_all_skills (λ _, elements)).
  intros i X. reflexivity.
Defined.

(** C2: on a posting with ten extracted skills and no label the analyzer
    performs no 70/30 split: no skill is classified as required and all ten
    are classified as preferred. *)
Theorem unlabelled_posting_is_not_split
    (set_iter : nat → gset string → list string) :
  (∀ i X, set_iter i X ≡ₚ elements X) →
  js_all (extract_skills_from_job set_iter unlabelled_posting)
    = unlabelled_posting_skills
  ∧ js_required (extract_skills_from_job set_iter unlabelled_posting) = []
  ∧ js_preferred (extract_skills_from_job set_iter unlabelled_posting)
    = unlabelled_posting_skills
  ∧ length (js_required (extract_skills_from_job set_iter unlabelled_posting))
    = 0
  ∧ length (js_preferred (extract_skills_from_job set_iter unlabelled_posting))
    = 10.
Proof.
  intros Hiter.
  destruct (unlabelled_posting_has_no_required_skill set_iter Hiter
              unlabelled_posting) as [Hr Hp]; [by vm_compute|].
  assert (Hall : js_all (extract_skills_from_job set_iter unlabelled_posting)
                 = unlabelled_posting_skills).
  { unfold extract_skills_from_job.
    destruct (categorize _ _) as [req pref]. destruct (_ && _); simpl.
    - rewrite (sorted_order_irrelevant _ _ (Hiter _ _)). by vm_compute.
    - rewrite (sorted_order_irrelevant _ _ (Hiter _ _)). by vm_compute. }
  rewrite Hp, Hr, Hall. done.
Qed.

Lemma unlabelled_posting_is_not_split_witness :
  js_all (extract_skills_from_job (λ _, elements) unlabelled_posting)
    = unlabelled_posting_skills
  ∧ js_required (extract_skills_from_job (λ _, elements) unlabelled_posting) = []
  ∧ js_preferred (extract_skills_from_job (λ _, elements) unlabelled_posting)
    = unlabelled_posting_skills
  ∧ length (js_required (extract_skills_from_job (λ _, elements) unlabelled_posting))
    = 0
  ∧ length (js_preferred (extract_skills_from_job (λ _, elements) unlabelled_posting))
    = 10.
Proof.
  apply (unlabelled_posting_is_not_split (λ _, elements)).
  intros i X. reflexivity.
Defined.

(** The split point for ten skills is seven; for ninety it is sixty-two,
    the product 90 * 0.7 being the float just below 63. *)
Lemma split_point_values : split_point 10 = 7 ∧ split_point 90 = 62.
Proof. by vm_compute. Qed.

Lemma length_sorted (l : list string) : length (sorted l) = length l.
Proof. by rewrite sorted_Permutation. Qed.

(** The 70/30 split takes place when a "required" section holds every
    extracted skill: of ten skills seven stay required and three become
    preferred. *)
Lemma fully_required_posting_is_split
    (set_iter : nat → gset string → list string) :
  (∀ i X, set_iter i X ≡ₚ elements X) →
  length (js_required (extract_skills_from_job set_iter fully_required_posting))
    = 7
  ∧ length (js_preferred
              (extract_skills_from_job set_iter fully_required_posting))
    = 3.
Proof.
  intros Hiter. unfold extract_skills_from_job.
  set (all := extract_skills_from_text fully_required_posting).
  set (rt := find_required_text (Text.lower fully_required_posting)).
  assert (Hin : ∀ x, x ∈ all → in_required rt x = true).
  { intros x Hx%elem_of_elements. revert x Hx. apply Forall_forall.
    apply (bool_decide_unpack (Forall (λ x, in_required rt x = true)
                                 (elements all))).
    vm_compute. exact I. }
  assert (Hsize : length (elements all) = 10) by (by vm_compute).
  clearbody all rt.
  rewrite categorize_filter.
  assert (Hreq : filter (λ s, in_required rt s) (set_iter 0 all)
                 = set_iter 0 all).
  { assert (F : Forall (λ x, x ∈ all) (set_iter 0 all)).
    { apply Forall_forall. intros x. by rewrite Hiter, elem_of_elements. }
    induction F as [|x l Hx _ IH]; [done|].
    rewrite filter_cons, decide_True by (by rewrite (Hin x Hx)).
    by rewrite IH. }
  assert (Hpref : filter (λ s, ¬ in_required rt s) (set_iter 0 all) = []).
  { apply elem_of_nil_inv. intros x [Hn Hx]%list_elem_of_filter.
    apply Hn. rewrite Hin; [done|]. by rewrite Hiter, elem_of_elements in Hx. }
  rewrite Hreq, Hpref. change (list_to_set []) with (∅ : gset string).
  assert (E2 : set_iter 2 ∅ = []).
  { apply Permutation_nil_r. by rewrite Hiter, elements_empty. }
  rewrite E2.
  assert (HR : length (set_iter 1 (list_to_set (set_iter 0 all))) = 10).
  { rewrite <- Hsize. apply Permutation_length. rewrite Hiter.
    apply NoDup_Permutation; [apply NoDup_elements..|].
    intros x. by rewrite elem_of_elements, elem_of_list_to_set, Hiter. }
  rewrite HR. rewrite bool_decide_eq_true_2 by done.
  rewrite bool_decide_eq_true_2 by lia.
  cbn [andb js_required js_preferred].
  rewrite !length_sorted, length_take, length_drop, HR.
  destruct split_point_values as [-> _]. split; reflexivity.
Qed.

(** ** The keyword extractor *)

(** Every extracted skill is a term of the vocabulary or the expansion of
    an abbreviation. *)
Lemma extracted_skills_in_vocabulary (text : string) :
  extract_skills_from_text text
  ⊆ list_to_set technical_skills ∪ list_to_set (snd <$> abbreviations).
Proof.
  unfold extract_skills_from_text.
  set (t := Text.lower text).
  assert (H1 : ∀ (l : list string) (acc : gset string) x,
             x ∈ foldl (scan_skill t) acc l → x ∈ acc ∨ x ∈ l).
  { induction l as [|y l IH]; intros acc x; simpl; [by left|].
    intros [Hx| Hx]%IH; [|set_solver].
    unfold scan_skill in Hx. destruct (Re.search_word y t); set_solver. }
  assert (H2 : ∀ (l : list (string * string)) (acc : gset string) x,
             x ∈ foldl (scan_abbreviation t) acc l → x ∈ acc ∨ x ∈ snd <$> l).
  { induction l as [|y l IH]; intros acc x; simpl; [by left|].
    intros [Hx| Hx]%IH; [|set_solver].
    unfold scan_abbreviation in Hx. destruct (Re.search_word y.1 t); set_solver. }
  generalize technical_skills abbreviations H1 H2. clear H1 H2.
  intros voc abbr H1 H2 x [[Hx|Hx]%H1|Hx]%H2.
  - by apply elem_of_empty in Hx.
  - apply elem_of_union. left. by apply elem_of_list_to_set.
  - apply elem_of_union. right. by apply elem_of_list_to_set.
Qed.

Lemma nothing_extracted_from_empty_text : extract_skills_from_text EmptyString = ∅.
Proof. vm_compute. exact eq_refl. Qed.

Lemma javascript_not_extracted_from_typescript :
  extract_skills_from_text "typescript" = {[ "typescript" ]}
  ∧ extract_skills_from_text "javascript" = {[ "javascript" ]}.
Proof. split; vm_compute; exact eq_refl. Qed.

(** *** Whole-word matching *)

Lemma prefix_drop_chars (a s : string) :
  String.prefix a s = true → s = a +:+ Text.drop_chars (Text.len a) s.
Proof.
  revert s. induction a as [|c a IH]; intros [|d s]; simpl; try done.
  destruct (ascii_dec c d) as [->|]; [|done].
  intros H.
  change (String d s = String d (a +:+ Text.drop_chars (Text.len a) s)).
  f_equal. by apply IH.
Qed.

Lemma last_char_app (prev : option ascii) (a b : string) :
  Text.last_char prev (a +:+ b) = Text.last_char (Text.last_char prev a) b.
Proof. revert prev. induction a as [|c a IH]; intros prev; simpl; [done|apply IH]. Qed.

(** A match of [\b lit \b] is an occurrence of [lit] with a word
    boundary at each end. *)
Lemma search_word_from_occurrence (prev : option ascii) (lit s : string) :
  Re.search_word_from prev lit s = true →
  ∃ pre post,
    s = pre +:+ lit +:+ post
    ∧ Re.boundary (Text.last_char prev pre) (Text.head (lit +:+ post)) = true
    ∧ Re.boundary (Text.last_char prev (pre +:+ lit)) (Text.head post) = true.
Proof.
  revert prev. induction s as [|c s IH]; intros prev; simpl.
  - rewrite orb_false_r. unfold Re.word_here.
    intros [[B1 P]%andb_true_iff B2]%andb_true_iff.
    apply prefix_drop_chars in P.
    exists EmptyString, (Text.drop_chars (Text.len lit) EmptyString). simpl.
    rewrite <- P. done.
  - intros [H|H]%orb_true_iff.
    + unfold Re.word_here in H.
      apply andb_true_iff in H as [[B1 P]%andb_true_iff B2].
      apply prefix_drop_chars in P.
      exists EmptyString, (Text.drop_chars (Text.len lit) (String c s)). simpl.
      rewrite <- P. done.
    + destruct (IH _ H) as (pre & post & -> & B1 & B2).
      exists (String c pre), post. done.
Qed.

(** A term that begins and ends with a word character is matched only
    where no word character precedes or follows it. *)
Lemma word_bounded_term_matches_whole_words (lit s : string) :
  word_bounded lit = true →
  Re.search_word lit s = true →
  ∃ pre post,
    s = pre +:+ lit +:+ post
    ∧ Re.word_at (Text.last_char None pre) = false
    ∧ Re.word_at (Text.head post) = false.
Proof.
  intros [Hh Hl]%andb_true_iff Hs.
  destruct (search_word_from_occurrence _ _ _ Hs) as (pre & post & -> & B1 & B2).
  exists pre, post. split; [done|].
  destruct lit as [|a lit]; [done|].
  rewrite last_char_app in B2.
  change (Text.head (String a lit +:+ post)) with (Some a) in B1.
  simpl in *.
  unfold Re.boundary in *.
  change (Re.word_at (Some a)) with (Text.is_word a) in B1.
  rewrite Hh in B1. rewrite Hl in B2.
  split.
  - by destruct (Re.word_at (Text.last_char None pre)).
  - by destruct (Re.word_at (Text.head post)).
Qed.

(** Two terms of the vocabulary end with a character that is not a word
    character; after them [\b] asks for a word character. *)
Lemma terms_not_word_bounded :
  filter (λ t, word_bounded t = false) technical_skills = ["c++"; "c#"].
Proof. by vm_compute. Qed.

(** C4: the term "c++" is extracted from a text whose only word is the
    longer "c++filt", and is not extracted from the text "c++" itself. *)
Theorem term_extracted_from_inside_a_longer_word :
  extract_skills_from_text "c++filt" = {[ "c++" ]}
  ∧ extract_skills_from_text "c#x" = {[ "c#" ]}
  ∧ extract_skills_from_text "c++" = ∅
  ∧ extract_skills_from_text "Python and C++" = {[ "python" ]}.
Proof. repeat split; vm_compute; exact eq_refl. Qed.

(** ** Case and blank characters *)

Lemma is_space_lower_char (c : ascii) :
  Text.is_space (Text.lower_char c) = Text.is_space c.
Proof. destruct c as [[] [] [] [] [] [] [] []]; reflexivity. Qed.

Lemma lower_lstrip (s : string) :
  Text.lower (Text.lstrip s) = Text.lstrip (Text.lower s).
Proof.
  induction s as [|c s IH]; [done|].
  simpl. rewrite is_space_lower_char.
  destruct (Text.is_space c); [exact IH | done].
Qed.

Lemma map_chars_rev_app (f : ascii → ascii) (s t : string) :
  Text.map_chars f (String.rev_app s t)
  = String.rev_app (Text.map_chars f s) (Text.map_chars f t).
Proof.
  revert t. induction s as [|c s IH]; intros t; [done|].
  simpl. by rewrite IH.
Qed.

Lemma lower_rev (s : string) :
  Text.lower (String.rev s) = String.rev (Text.lower s).
Proof. apply map_chars_rev_app. Qed.

(** [s.strip().lower()] and [s.lower().strip()] are the same string. *)
Lemma lower_strip (s : string) :
  Text.lower (Text.strip s) = Text.strip (Text.lower s).
Proof.
  unfold Text.strip, Text.rstrip.
  by rewrite lower_rev, lower_lstrip, lower_rev, lower_lstrip.
Qed.

(** ** The skills-section rewriter *)



(** How the computations of the monad run. *)
Lemma run_bind {A B} (m : io A) (k : A → io B) (fs : gmap string file) :
  (m ≫= k) fs
  = match m fs with
    | (t, Return a) => let '(t', r) := k a fs in (t ++ t', r)
    | (t, Raise e) => (t, Raise e)
    end.
Proof. reflexivity. Qed.

Lemma run_os_path_exists (path : string) (fs : gmap string file) :
  os_path_exists path fs
  = ([EvExists path], Return (bool_decide (is_Some (fs !! path)))).
Proof. reflexivity. Qed.

Lemma run_open_document (path : string) (fs : gmap string file)
    (heading_style : bool) (d : document) :
  fs !! path = Some (docx_file heading_style d) →
  open_document path fs = ([EvOpen path], Return (heading_style, d)).
Proof.
  intros H. unfold open_document. rewrite !run_bind. simpl.
  unfold lookup_file. rewrite H. by destruct heading_style.
Qed.

Lemma run_save (d : document) (fs : gmap string file) :
  save d fs = ([EvSave], Return d).
Proof. reflexivity. Qed.

(** The export of a file that holds a document: the branch taken decides
    the outcome, and the document is saved when the branch returns. *)
Lemma run_export_docx (fs : gmap string file) (path : string)
    (heading_style : bool) (doc : document) (tailored_skills : list string) :
  fs !! path = Some (docx_file heading_style doc) →
  export_docx path tailored_skills fs
  = match
      match find_skills_start (paragraphs doc) with
      | Some skills_start =>
          replace_skills_section doc skills_start tailored_skills
      | None => append_skills_section heading_style doc tailored_skills
      end
    with
    | Return doc' => ([EvExists path; EvOpen path; EvSave], Return doc')
    | Raise e => ([EvExists path; EvOpen path], Raise e)
    end.
Proof.
  intros Hfile. unfold export_docx.
  rewrite run_bind, run_os_path_exists, Hfile.
  rewrite bool_decide_eq_true_2 by eauto.
  cbv beta iota delta [negb].
  rewrite run_bind, (run_open_document _ _ _ _ Hfile).
  rewrite run_bind. unfold lift.
  by destruct (match find_skills_start (paragraphs doc) with
               | Some skills_start => _
               | None => _
               end).
Qed.

Lemma export_docx_of_document (fs : gmap string file) (path : string)
    (doc doc' : document) (tailored_skills : list string) :
  fs !! path = Some (DocxFile doc) →
  match find_skills_start (paragraphs doc) with
  | Some skills_start => replace_skills_section doc skills_start tailored_skills
  | None => append_skills_section true doc tailored_skills
  end = Return doc' →
  export_docx path tailored_skills fs
  = ([EvExists path; EvOpen path; EvSave], Return doc').
Proof.
  intros Hfile Hdoc.
  by rewrite (run_export_docx fs path true doc tailored_skills Hfile), Hdoc.
Qed.

(** C8: the export of a path that the file system does not hold raises
    [FileNotFoundError] after the existence test alone: no file is opened
    and nothing is saved. *)
Theorem export_of_missing_file_raises (fs : gmap string file)
    (path : string) (tailored_skills : list string) :
  fs !! path = None →
  export_docx path tailored_skills fs
  = ([EvExists path], Raise (FileNotFoundError ("File not found: " +:+ path))).
Proof.
  intros Hfile. unfold export_docx.
  rewrite run_bind, run_os_path_exists, Hfile.
  rewrite bool_decide_eq_false_2 by (by intros [? ?]).
  reflexivity.
Qed.

Lemma export_of_missing_file_raises_witness :
  export_docx "moved.docx" ["Docker"] example_files
  = ([EvExists "moved.docx"],
     Raise (FileNotFoundError ("File not found: " +:+ "moved.docx"))).
Proof.
  apply (export_of_missing_file_raises example_files "moved.docx" ["Docker"]).
  reflexivity.
Defined.

(** A path that holds a file which is not a document passes the existence
    test; opening it raises. *)
Lemma export_of_a_file_that_is_no_document (fs : gmap string file)
    (path : string) (tailored_skills : list string) :
  fs !! path = Some OtherFile →
  export_docx path tailored_skills fs
  = ([EvExists path; EvOpen path], Raise (ReadError path)).
Proof.
  intros Hfile. unfold export_docx.
  rewrite run_bind, run_os_path_exists, Hfile.
  rewrite bool_decide_eq_true_2 by eauto.
  cbv beta iota delta [negb].
  rewrite run_bind. unfold open_document. rewrite !run_bind.
  cbn [emit lookup_file]. rewrite Hfile. reflexivity.
Qed.

(** C7: on a document of plain paragraphs in which neither pass finds a
    skills header the code takes the fallback.  When the document has the
    style "Heading 1", the export of the skill list ["Docker"] is the
    original body followed by one page break, one heading
    "TECHNICAL SKILLS" and one paragraph "Hard Skills: Docker".  When the
    document has no such style, the export of any skill list raises
    [KeyError] at the heading: no section is appended and nothing is
    saved. *)
Theorem export_without_header_needs_the_heading_style
    (fs : gmap string file) (path path' : string) (doc doc' : document) :
  plain_document doc →
  plain_document doc' →
  find_skills_start (paragraphs doc) = None →
  find_skills_start (paragraphs doc') = None →
  fs !! path = Some (DocxFile doc) →
  fs !! path' = Some (DocxFileWithoutHeadings doc') →
  (export_docx path ["Docker"] fs
   = ([EvExists path; EvOpen path; EvSave],
      Return (doc ++ [ Par page_break_paragraph;
                       Par (heading1 "TECHNICAL SKILLS");
                       Par (labelled_paragraph "Hard Skills: " ["Docker"]) ]))
   ∧ par_text (heading1 "TECHNICAL SKILLS") = "TECHNICAL SKILLS"
   ∧ par_text (labelled_paragraph "Hard Skills: " ["Docker"])
     = "Hard Skills: Docker")
  ∧ (∀ tailored_skills,
       export_docx path' tailored_skills fs
       = ([EvExists path'; EvOpen path'],
          Raise (KeyError "no style with name 'Heading 1'"))).
Proof.
  intros _ _ Hstart Hstart' Hfile Hfile'. split; [split; [|split; reflexivity]|].
  - apply (export_docx_of_document fs path doc); [exact Hfile|].
    rewrite Hstart. reflexivity.
  - intros tailored_skills.
    rewrite (run_export_docx fs path' false doc' tailored_skills Hfile').
    rewrite Hstart'. reflexivity.
Qed.

Lemma export_without_header_needs_the_heading_style_witness :
  (export_docx "plain.docx" ["Docker"] example_files_with_bare_document
   = ([EvExists "plain.docx"; EvOpen "plain.docx"; EvSave],
      Return ((Par (text_paragraph "Title" "Jane Doe")
                 :: Par example_experience :: example_rest)
              ++ [ Par page_break_paragraph;
                   Par (heading1 "TECHNICAL SKILLS");
                   Par (labelled_paragraph "Hard Skills: " ["Docker"]) ]))
   ∧ par_text (heading1 "TECHNICAL SKILLS") = "TECHNICAL SKILLS"
   ∧ par_text (labelled_paragraph "Hard Skills: " ["Docker"])
     = "Hard Skills: Docker")
  ∧ (∀ tailored_skills,
       export_docx "bare.docx" tailored_skills example_files_with_bare_document
       = ([EvExists "bare.docx"; EvOpen "bare.docx"],
          Raise (KeyError "no style with name 'Heading 1'"))).
Proof.
  apply (export_without_header_needs_the_heading_style
           example_files_with_bare_document "plain.docx" "bare.docx"
           (Par (text_paragraph "Title" "Jane Doe")
              :: Par example_experience :: example_rest)
           example_bare_body);
    try reflexivity; repeat constructor.
Defined.





(** A skill that the section already names in another case is not added
    again: the first spelling is kept. *)
Lemma merge_keeps_first_spelling :
  merge_skills ∅ (["Java"; "SQL"; "python"] ++ ["Python"])
  = ["Java"; "SQL"; "python"].
Proof. by vm_compute. Qed.

(** ** The résumé parser *)

Lemma run_extract_text_from_pdf (path : string) (fs : gmap string file) :
  (∀ pages, fs !! path ≠ Some (PdfFile pages)) →
  ∃ e, extract_text_from_pdf path fs
       = ([EvOpen path; EvPrint "Error reading PDF: " e], Return EmptyString).
Proof.
  intros H. unfold extract_text_from_pdf.
  rewrite !run_bind. cbn [emit lookup_file].
  destruct (fs !! path) as [[d|d|pages|]|] eqn:E;
    try (eexists; reflexivity).
  by destruct (H pages).
Qed.

Lemma run_extract_text_from_docx (path : string) (fs : gmap string file) :
  (∀ d, fs !! path ≠ Some (DocxFile d)
        ∧ fs !! path ≠ Some (DocxFileWithoutHeadings d)) →
  ∃ e, extract_text_from_docx path fs
       = ([EvOpen path; EvPrint "Error reading DOCX: " e], Return EmptyString).
Proof.
  intros H. unfold extract_text_from_docx.
  rewrite !run_bind. cbn [emit lookup_file].
  destruct (fs !! path) as [[d|d|pages|]|] eqn:E;
    try (eexists; reflexivity).
  - by destruct (H d) as [[] _].
  - by destruct (H d) as [_ []].
Qed.

Lemma no_skill_in_empty_text :
  sorted_set (extract_skills_from_text EmptyString) = [].
Proof. by vm_compute. Qed.

(** C9, as the code has it: when the file cannot be opened the parser
    raises nothing; it prints one error line and returns the profile of the
    empty text, whose skill list is empty.  Whatever the file, the skill
    list of a returned profile is the sorted result of the extractor on
    the text of that profile. *)
Theorem parser_degrades_on_a_file_it_cannot_open
    (extract_personal_info : string → PersonalInfo)
    (fs : gmap string file) (path : string) :
  cannot_open fs path →
  (∃ label e,
     parse_cv extract_personal_info path fs
     = ([EvOpen path; EvPrint label e],
        Return (empty_profile (extract_personal_info EmptyString) path)))
  ∧ (∀ fs' path' trace cv,
       parse_cv extract_personal_info path' fs' = (trace, Return cv) →
       skills cv
       = [ ("technical",
            sorted_set (extract_skills_from_text (raw_text cv))) ]).
Proof.
  intros Hopen. split.
  - unfold parse_cv, extract_text. rewrite run_bind.
    destruct Hopen as [[Hpdf H]|(Hpdf & Hdocx & H)].
    + rewrite Hpdf. destruct (run_extract_text_from_pdf path fs H) as [e ->].
      exists "Error reading PDF: ", e. cbn [mret io_mret io_ret].
      unfold empty_profile. by rewrite no_skill_in_empty_text.
    + rewrite Hpdf, Hdocx.
      destruct (run_extract_text_from_docx path fs H) as [e ->].
      exists "Error reading DOCX: ", e. cbn [mret io_mret io_ret].
      unfold empty_profile. by rewrite no_skill_in_empty_text.
  - intros fs' path' trace cv. unfold parse_cv. rewrite run_bind.
    destruct (extract_text path' fs') as [t [text|e]]; [|discriminate].
    cbn [mret io_mret io_ret]. intros [= _ <-]. reflexivity.
Qed.

Lemma parser_degrades_on_a_file_it_cannot_open_witness :
  (∃ label e,
     parse_cv no_personal_info "cv.pdf" {[ "cv.pdf" := OtherFile ]}
     = ([EvOpen "cv.pdf"; EvPrint label e],
        Return (empty_profile (no_personal_info EmptyString) "cv.pdf")))
  ∧ (∀ fs' path' trace cv,
       parse_cv no_personal_info path' fs' = (trace, Return cv) →
       skills cv
       = [ ("technical",
            sorted_set (extract_skills_from_text (raw_text cv))) ]).
Proof.
  apply (parser_degrades_on_a_file_it_cannot_open no_personal_info
           {[ "cv.pdf" := OtherFile ]} "cv.pdf").
  left. split; [reflexivity|]. intros pages. vm_compute. discriminate.
Defined.

(** C9, as the specification states it, fails: for a file that cannot be
    read the parser returns normally, and what it returns is what it
    returns for a readable file without text. *)
Lemma unreadable_file_is_not_reported :
  cannot_open {[ "cv.pdf" := OtherFile ]} "cv.pdf"
  ∧ (parse_cv no_personal_info "cv.pdf" {[ "cv.pdf" := OtherFile ]}).2
    = Return (empty_profile (no_personal_info EmptyString) "cv.pdf")
  ∧ (parse_cv no_personal_info "cv.pdf" {[ "cv.pdf" := PdfFile [] ]}).2
    = Return (empty_profile (no_personal_info EmptyString) "cv.pdf")
  ∧ ¬ (∀ fs path, cannot_open fs path →
         ∃ e, (parse_cv no_personal_info path fs).2 = Raise e).
Proof.
  assert (H : cannot_open {[ "cv.pdf" := OtherFile ]} "cv.pdf").
  { left. split; [reflexivity|]. intros pages. vm_compute. discriminate. }
  split; [exact H|]. split; [by vm_compute|]. split; [by vm_compute|].
  intros F. destruct (F _ _ H) as [e He]. vm_compute in He. discriminate.
Qed.

(** * Further properties *)

(** ** Values of the rounding *)

Module FloatValues.
Import Float FloatFacts.
Local Open Scope Q_scope.

(** Rounding depends on the value only. *)
Lemma rnd_value x y : 0 <= x -> x == y -> rnd x = rnd y.
Proof.
  intros Hx Hxy.
  assert (Hy : 0 <= y) by (rewrite <- Hxy; exact Hx).
  assert (E : rnd x == rnd y).
  { apply Qle_antisym; apply rnd_mono; try assumption;
      rewrite Hxy; apply Qle_refl. }
  unfold rnd in *.
  destruct (Qnum x) eqn:Ex, (Qnum y) eqn:Ey; try reflexivity.
  - exfalso. assert (x == 0) by (unfold Qeq; simpl; lia).
    assert (0 < y) by (apply Qnum_pos_iff; lia). lra.
  - exfalso. unfold Qle in Hy. simpl in Hy. lia.
  - exfalso. assert (y == 0) by (unfold Qeq; simpl; lia).
    assert (0 < x) by (apply Qnum_pos_iff; lia). lra.
  - unfold rnd_pos in *. apply Qred_complete.
    rewrite !Qred_correct in E. exact E.
  - exfalso. unfold Qle in Hy. simpl in Hy. lia.
  - exfalso. unfold Qle in Hx. simpl in Hx. lia.
  - exfalso. unfold Qle in Hx. simpl in Hx. lia.
  - exfalso. unfold Qle in Hx. simpl in Hx. lia.
Qed.

Lemma int_div_same n : (0 < n)%Z -> int_div n n = 1.
Proof.
  intros Hn. unfold int_div.
  assert (P : 0 < inject_Z n) by (change 0 with (inject_Z 0); rewrite <- Zlt_Qlt; lia).
  rewrite (rnd_value _ 1).
  - vm_compute. reflexivity.
  - apply Qle_shift_div_l; [exact P|]. lra.
  - field. intros F. rewrite F in P. inversion P.
Qed.

Lemma int_div_zero n : int_div 0 n = 0.
Proof.
  unfold int_div. rewrite (rnd_value _ 0).
  - reflexivity.
  - unfold Qdiv. rewrite Qmult_0_l. apply Qle_refl.
  - unfold Qdiv. apply Qmult_0_l.
Qed.

End FloatValues.

(** ** The match scorer: bounds and full marks *)

Import FloatValues.

Lemma percentage_at_most_100 (matched wanted : gset string) :
  matched ⊆ wanted →
  (as_float (percentage matched wanted) <= 100)%Q.
Proof.
  intros Hsub. unfold percentage. case_bool_decide as E; simpl.
  - vm_compute. discriminate.
  - assert (size wanted ≠ 0) by (by intros ?%size_empty_inv%leibniz_equiv).
    pose proof (subseteq_size _ _ Hsub).
    apply Qle_trans with (Float.mul 1 (Float.of_int 100));
      [|vm_compute; discriminate].
    apply FloatFacts.mul_mono; [| |apply FloatFacts.hundred_nonneg].
    + apply FloatFacts.int_div_nonneg; lia.
    + rewrite <- (int_div_same (Z.of_nat (size wanted))) by lia.
      apply FloatFacts.int_div_mono; lia.
Qed.

Lemma round1_value_bounds (n : pynum) :
  (0 <= as_float n)%Q → (as_float n <= 100)%Q →
  (n = PyInt 100 ∨ ∃ q, n = PyFloat q) →
  (0 <= num_value (py_round1 n) <= 100)%Q.
Proof.
  intros H0 H100 [->|[q ->]]; simpl in *.
  - split; vm_compute; discriminate.
  - split; [by apply FloatFacts.round1_nonneg|].
    apply Qle_trans with (Float.round1 100); [|vm_compute; discriminate].
    by apply FloatFacts.round1_mono.
Qed.

Lemma percentage_int_or_float (m w : gset string) :
  percentage m w = PyInt 100 ∨ ∃ q, percentage m w = PyFloat q.
Proof. unfold percentage. case_bool_decide; eauto. Qed.

(** X1: each of the three scores of the match scorer lies between 0 and
    100. *)
Theorem scores_lie_between_0_and_100
    (cv_data : CVData) (job_req : JobRequirements) :
  (0 <= num_value (required_score (calculate_match_score cv_data job_req))
     <= 100)%Q
  ∧ (0 <= num_value (preferred_score (calculate_match_score cv_data job_req))
       <= 100)%Q
  ∧ (0 <= num_value (overall_score (calculate_match_score cv_data job_req))
       <= 100)%Q.
Proof.
  unfold calculate_match_score. simpl.
  set (cv := cv_skill_set cv_data).
  set (jr := list_to_set (Text.lower <$> required_skills job_req) : gset string).
  set (jp := list_to_set (Text.lower <$> preferred_skills job_req) : gset string).
  assert (Sr : cv ∩ jr ⊆ jr) by set_solver.
  assert (Sp : cv ∩ jp ⊆ jp) by set_solver.
  pose proof (percentage_nonneg (cv ∩ jr) jr) as Nr.
  pose proof (percentage_nonneg (cv ∩ jp) jp) as Np.
  pose proof (percentage_at_most_100 _ _ Sr) as Ur.
  pose proof (percentage_at_most_100 _ _ Sp) as Up.
  split; [|split].
  - apply round1_value_bounds; auto using percentage_int_or_float.
  - apply round1_value_bounds; auto using percentage_int_or_float.
  - pose proof (FloatFacts.mul_nonneg _ _ Nr FloatFacts.lit_0_7_nonneg) as A.
    pose proof (FloatFacts.mul_nonneg _ _ Np FloatFacts.lit_0_3_nonneg) as B.
    split.
    + apply FloatFacts.round1_nonneg, FloatFacts.rnd_nonneg. lra.
    + apply Qle_trans with (Float.round1 100); [|vm_compute; discriminate].
      apply FloatFacts.round1_mono.
      * apply FloatFacts.rnd_nonneg. lra.
      * apply Qle_trans with
          (Float.add (Float.mul 100 Float.lit_0_7) (Float.mul 100 Float.lit_0_3));
          [|vm_compute; discriminate].
        apply FloatFacts.add_mono; try assumption.
        -- apply FloatFacts.mul_mono;
             [exact Nr | exact Ur | apply FloatFacts.lit_0_7_nonneg].
        -- apply FloatFacts.mul_mono;
             [exact Np | exact Up | apply FloatFacts.lit_0_3_nonneg].
Qed.

Lemma NoDup_sorted_set (s : gset string) : NoDup (sorted_set s).
Proof. apply NoDup_sorted, NoDup_elements. Qed.

(** X2: each of the four skill lists of the match scorer is sorted by the
    string order and holds no skill twice. *)
Theorem score_lists_are_sorted_without_duplicates
    (cv_data : CVData) (job_req : JobRequirements) :
  Forall (λ l, StronglySorted String.le l ∧ NoDup l)
    [ matched_required (calculate_match_score cv_data job_req);
      missing_required (calculate_match_score cv_data job_req);
      matched_preferred (calculate_match_score cv_data job_req);
      missing_preferred (calculate_match_score cv_data job_req) ].
Proof.
  unfold calculate_match_score; simpl.
  repeat (constructor; [split; [apply sorted_StronglySorted
                               | apply NoDup_sorted_set]|]).
  constructor.
Qed.

Lemma sorted_set_empty : sorted_set ∅ = [].
Proof. unfold sorted_set. rewrite elements_empty. reflexivity. Qed.

Lemma percentage_full (wanted cv : gset string) :
  wanted ⊆ cv → num_value (py_round1 (percentage (cv ∩ wanted) wanted)) = 100%Q.
Proof.
  intros Hsub. unfold percentage. case_bool_decide as E; [reflexivity|].
  assert (cv ∩ wanted = wanted) as -> by set_solver.
  assert (size wanted ≠ 0) by (by intros ?%size_empty_inv%leibniz_equiv).
  rewrite int_div_same by lia. vm_compute. reflexivity.
Qed.

(** X3: when the candidate has every required and every preferred skill
    of the job (compared in lower case), the three scores are 100 and no
    skill is reported missing. *)
Theorem candidate_with_every_wanted_skill_scores_100
    (cv_data : CVData) (job_req : JobRequirements) :
  (∀ s, s ∈ required_skills job_req ++ preferred_skills job_req →
        Text.lower s ∈ cv_skill_set cv_data) →
  num_value (required_score (calculate_match_score cv_data job_req)) = 100%Q
  ∧ num_value (preferred_score (calculate_match_score cv_data job_req)) = 100%Q
  ∧ num_value (overall_score (calculate_match_score cv_data job_req)) = 100%Q
  ∧ missing_required (calculate_match_score cv_data job_req) = []
  ∧ missing_preferred (calculate_match_score cv_data job_req) = [].
Proof.
  intros Hall. unfold calculate_match_score. simpl.
  set (cv := cv_skill_set cv_data) in *.
  set (jr := list_to_set (Text.lower <$> required_skills job_req) : gset string).
  set (jp := list_to_set (Text.lower <$> preferred_skills job_req) : gset string).
  assert (Sr : jr ⊆ cv).
  { intros x [s [-> Hs]]%elem_of_list_to_set%list_elem_of_fmap.
    apply Hall, elem_of_app. by left. }
  assert (Sp : jp ⊆ cv).
  { intros x [s [-> Hs]]%elem_of_list_to_set%list_elem_of_fmap.
    apply Hall, elem_of_app. by right. }
  assert (Er : jr ∖ cv = ∅) by set_solver.
  assert (Ep : jp ∖ cv = ∅) by set_solver.
  rewrite Er, Ep, sorted_set_empty.
  split; [by apply percentage_full|]. split; [by apply percentage_full|].
  split; [|done].
  assert (Ar : as_float (percentage (cv ∩ jr) jr) = 100%Q).
  { unfold percentage. case_bool_decide; [by vm_compute|].
    assert (cv ∩ jr = jr) as -> by set_solver.
    assert (size jr ≠ 0) by (by intros ?%size_empty_inv%leibniz_equiv).
    simpl. rewrite int_div_same by lia. by vm_compute. }
  assert (Ap : as_float (percentage (cv ∩ jp) jp) = 100%Q).
  { unfold percentage. case_bool_decide; [by vm_compute|].
    assert (cv ∩ jp = jp) as -> by set_solver.
    assert (size jp ≠ 0) by (by intros ?%size_empty_inv%leibniz_equiv).
    simpl. rewrite int_div_same by lia. by vm_compute. }
  rewrite Ar, Ap. vm_compute. reflexivity.
Qed.

(** X4: a job without required skills is scored at least 70 overall,
    whatever the candidate's skills: the required score counts as 100 with
    the weight 0.7. *)
Theorem job_without_required_skills_scores_at_least_70
    (cv_data : CVData) (job_req : JobRequirements) :
  required_skills job_req = [] →
  (70 <= num_value (overall_score (calculate_match_score cv_data job_req)))%Q.
Proof.
  intros Hr. unfold calculate_match_score. rewrite Hr. simpl.
  set (cv := cv_skill_set cv_data).
  set (jp := list_to_set (Text.lower <$> preferred_skills job_req) : gset string).
  assert (E : percentage (cv ∩ ∅) ∅ = PyInt 100).
  { unfold percentage. by rewrite bool_decide_eq_true_2. }
  change (list_to_set [] : gset string) with (∅ : gset string).
  rewrite E. simpl.
  pose proof (percentage_nonneg (cv ∩ jp) jp) as Np.
  pose proof (FloatFacts.mul_nonneg _ _ Np FloatFacts.lit_0_3_nonneg) as B.
  apply Qle_trans with (Float.round1 70); [vm_compute; discriminate|].
  apply FloatFacts.round1_mono; [vm_compute; discriminate|].
  apply Qle_trans with
    (Float.add (Float.mul (Float.of_int 100) Float.lit_0_7) 0);
    [vm_compute; discriminate|].
  apply FloatFacts.add_mono; try apply Qle_refl; try assumption.
  vm_compute; discriminate.
Qed.

(** X6: the skill list the pages hand to the exporter, the matched
    followed by the missing preferred skills, holds no skill twice and has
    exactly the lower-cased preferred skills of the job; the required
    skills of the job are not part of it. *)
Theorem tailored_skills_are_the_preferred_skills
    (cv_data : CVData) (job_req : JobRequirements) :
  NoDup (tailored_skills (calculate_match_score cv_data job_req))
  ∧ ∀ s, s ∈ tailored_skills (calculate_match_score cv_data job_req)
         ↔ s ∈ Text.lower <$> preferred_skills job_req.
Proof.
  unfold tailored_skills, calculate_match_score; simpl. split.
  - apply NoDup_app. split; [apply NoDup_sorted_set|].
    split; [|apply NoDup_sorted_set].
    intros x. rewrite !elem_of_sorted_set. set_solver.
  - intros s. rewrite elem_of_app, !elem_of_sorted_set.
    destruct (decide (s ∈ cv_skill_set cv_data)); set_solver.
Qed.

(** ** Letter case and whole words *)

Lemma cv_skill_set_lower_lists (cv cv' : CVData) :
  lower_case_skills cv = lower_case_skills cv' →
  cv_skill_set cv = cv_skill_set cv'.
Proof.
  intros H. apply set_eq. intros x. rewrite !elem_of_cv_skill_set.
  unfold lower_case_skills in H.
  assert (G : ∀ cats : list (list string),
             (∃ cat, cat ∈ cats ∧ x ∈ Text.lower <$> cat)
             ↔ ∃ l, l ∈ ((λ c : list string, Text.lower <$> c) <$> cats)
                    ∧ x ∈ l).
  { intros cats. split.
    - intros (cat & Hc & Hx). exists (Text.lower <$> cat). split; [|done].
      by apply list_elem_of_fmap_2.
    - intros (l & (cat & -> & Hc)%list_elem_of_fmap & Hx). eauto. }
  by rewrite !G, H.
Qed.

(** X5: the match scorer compares skills in lower case only: two
    profiles and two jobs that agree once every skill is lower-cased get
    the same result. *)
Theorem match_score_ignores_letter_case
    (cv cv' : CVData) (job job' : JobRequirements) :
  lower_case_skills cv = lower_case_skills cv' →
  Text.lower <$> required_skills job = Text.lower <$> required_skills job' →
  Text.lower <$> preferred_skills job = Text.lower <$> preferred_skills job' →
  calculate_match_score cv job = calculate_match_score cv' job'.
Proof.
  intros Hcv Hr Hp. unfold calculate_match_score.
  by rewrite (cv_skill_set_lower_lists cv cv' Hcv), Hr, Hp.
Qed.

Lemma lower_char_idemp (c : ascii) :
  Text.lower_char (Text.lower_char c) = Text.lower_char c.
Proof. destruct c as [[] [] [] [] [] [] [] []]; reflexivity. Qed.

Lemma lower_upper_char (c : ascii) :
  Text.lower_char (Text.upper_char c) = Text.lower_char c.
Proof. destruct c as [[] [] [] [] [] [] [] []]; reflexivity. Qed.

Lemma lower_lower (s : string) : Text.lower (Text.lower s) = Text.lower s.
Proof.
  unfold Text.lower. induction s as [|c s IH]; [done|].
  cbn [Text.map_chars]. f_equal; [apply lower_char_idemp | exact IH].
Qed.

Lemma lower_upper (s : string) : Text.lower (Text.upper s) = Text.lower s.
Proof.
  unfold Text.lower, Text.upper. induction s as [|c s IH]; [done|].
  cbn [Text.map_chars]. f_equal; [apply lower_upper_char | exact IH].
Qed.

(** X8: on a plain text the keyword extractor ignores the case of the
    text: the text in upper case and the text in lower case yield the
    skills of the text. *)
Theorem extraction_ignores_letter_case (text : string) :
  Text.is_plain text = true →
  extract_skills_from_text (Text.upper text) = extract_skills_from_text text
  ∧ extract_skills_from_text (Text.lower text) = extract_skills_from_text text.
Proof.
  intros _. unfold extract_skills_from_text. by rewrite lower_upper, lower_lower.
Qed.

Lemma prefix_app (a b : string) : String.prefix a (a +:+ b) = true.
Proof.
  induction a as [|c a IH]; simpl; [by destruct b|].
  destruct (ascii_dec c c); [exact IH|done].
Qed.

Lemma drop_chars_app (a b : string) :
  Text.drop_chars (Text.len a) (a +:+ b) = b.
Proof. induction a as [|c a IH]; simpl; [by destruct b|exact IH]. Qed.

Lemma search_word_from_intro (prev : option ascii) (pre lit post : string) :
  Re.boundary (Text.last_char prev pre) (Text.head (lit +:+ post)) = true →
  Re.boundary (Text.last_char prev (pre +:+ lit)) (Text.head post) = true →
  Re.search_word_from prev lit (pre +:+ lit +:+ post) = true.
Proof.
  revert prev. induction pre as [|c pre IH]; intros prev B1 B2.
  - change (EmptyString +:+ lit +:+ post) with (lit +:+ post).
    assert (W : Re.word_here prev lit (lit +:+ post) = true).
    { unfold Re.word_here. rewrite prefix_app, drop_chars_app.
      simpl in B1. change (EmptyString +:+ lit) with lit in B2.
      by rewrite B1, B2. }
    destruct (lit +:+ post); simpl; by rewrite W.
  - change (String c pre +:+ lit +:+ post)
      with (String c (pre +:+ lit +:+ post)).
    simpl. rewrite (IH (Some c)); [apply orb_true_r|exact B1|exact B2].
Qed.

Lemma whole_word_occurrence_found (lit text : string) :
  word_bounded lit = true →
  whole_word_occurrence lit text → Re.search_word lit text = true.
Proof.
  intros [Hh Hl]%andb_true_iff (pre & post & -> & Hb & Ha).
  destruct lit as [|a lit]; [done|].
  apply search_word_from_intro.
  - change (Text.head (String a lit +:+ post)) with (Some a).
    unfold Re.boundary. rewrite Hb. simpl in Hh.
    change (Re.word_at (Some a)) with (Text.is_word a). by rewrite Hh.
  - rewrite last_char_app. simpl. simpl in Hl.
    unfold Re.boundary. by rewrite Hl, Ha.
Qed.

Lemma whole_word_occurrence_iff (lit text : string) :
  word_bounded lit = true →
  Re.search_word lit text = true ↔ whole_word_occurrence lit text.
Proof.
  intros Hw. split.
  - by apply word_bounded_term_matches_whole_words.
  - by apply whole_word_occurrence_found.
Qed.

(** What the two loops of the extractor gather. *)
Lemma elem_of_extract_skills_from_text (text x : string) :
  x ∈ extract_skills_from_text text
  ↔ (x ∈ technical_skills ∧ Re.search_word x (Text.lower text) = true)
    ∨ ∃ a, (a, x) ∈ abbreviations
           ∧ Re.search_word a (Text.lower text) = true.
Proof.
  unfold extract_skills_from_text.
  set (t := Text.lower text).
  assert (H1 : ∀ (l : list string) (acc : gset string),
             x ∈ foldl (scan_skill t) acc l
             ↔ x ∈ acc ∨ (x ∈ l ∧ Re.search_word x t = true)).
  { induction l as [|y l IH]; intros acc; simpl.
    - rewrite elem_of_nil. tauto.
    - rewrite IH. unfold scan_skill. rewrite elem_of_cons.
      destruct (Re.search_word y t) eqn:E.
      + rewrite elem_of_union, elem_of_singleton. split.
        * intros [[?| ->]|[? ?]]; auto.
        * intros [?|[[->|?] ?]]; auto.
      + split.
        * intros [?|[? ?]]; auto.
        * intros [?|[[->|?] ?]]; auto. congruence. }
  assert (H2 : ∀ (l : list (string * string)) (acc : gset string),
             x ∈ foldl (scan_abbreviation t) acc l
             ↔ x ∈ acc ∨ ∃ a, (a, x) ∈ l ∧ Re.search_word a t = true).
  { induction l as [|[a y] l IH]; intros acc; simpl.
    - split; [auto|]. intros [?|(a & Ha & _)]; [done|].
      by apply elem_of_nil in Ha.
    - rewrite IH. unfold scan_abbreviation. simpl.
      destruct (Re.search_word a t) eqn:E.
      + rewrite elem_of_union, elem_of_singleton. split.
        * intros [[?| ->]|(b & Hb & ?)]; [by left| |].
          -- right. exists a. split; [apply list_elem_of_here|done].
          -- right. exists b. split; [by apply list_elem_of_further|done].
        * intros [?|(b & [[= -> ->]|Hb]%elem_of_cons & ?)]; [by left;left| |].
          -- left. by right.
          -- right. eauto.
      + split.
        * intros [?|(b & Hb & ?)]; [by left|].
          right. exists b. split; [by apply list_elem_of_further|done].
        * intros [?|(b & [[= -> ->]|Hb]%elem_of_cons & ?)];
            [by left|congruence|]. right. eauto. }
  generalize technical_skills abbreviations H1 H2. clear H1 H2.
  intros voc abbr H1 H2. rewrite H2, H1, elem_of_empty. tauto.
Qed.

Lemma abbreviations_word_bounded (a x : string) :
  (a, x) ∈ abbreviations → word_bounded a = true.
Proof.
  unfold abbreviations. rewrite !elem_of_cons, elem_of_nil.
  intros [[= -> _]|[[= -> _]|[[= -> _]|[]]]]; reflexivity.
Qed.

(** X7: on a plain text, a vocabulary term that begins and ends with a
    word character is extracted exactly when the lower-cased text holds the
    term, or one of its abbreviations, as a whole word. *)
Theorem word_bounded_term_is_extracted_iff_it_is_a_whole_word
    (text skill : string) :
  Text.is_plain text = true →
  skill ∈ technical_skills →
  word_bounded skill = true →
  skill ∈ extract_skills_from_text text
  ↔ whole_word_occurrence skill (Text.lower text)
    ∨ ∃ a, (a, skill) ∈ abbreviations
           ∧ whole_word_occurrence a (Text.lower text).
Proof.
  intros _ Hv Hw. rewrite elem_of_extract_skills_from_text.
  rewrite (whole_word_occurrence_iff _ _ Hw). split.
  - intros [[_ ?]|(a & Ha & Hs)]; [by left|]. right. exists a. split; [done|].
    by apply whole_word_occurrence_iff; [eapply abbreviations_word_bounded|].
  - intros [?|(a & Ha & Hs)]; [by left|]. right. exists a. split; [done|].
    by apply whole_word_occurrence_iff; [eapply abbreviations_word_bounded|].
Qed.

(** ** The export in terms of paragraphs *)

Lemma remove_paragraph_spec (i : nat) (d : document) :
  i < length (paragraphs d) →
  ∃ d', remove_paragraph i d = Some d'
        ∧ paragraphs d' = delete i (paragraphs d)
        ∧ other_blocks d' = other_blocks d.
Proof.
  revert i. induction d as [|[p|xml] d IH]; intros i Hi; simpl in *.
  - lia.
  - destruct i as [|i].
    + eexists. split; [reflexivity|]. done.
    + destruct (IH i) as (d' & -> & Hp & Ho); [lia|].
      eexists. split; [reflexivity|]. simpl. by rewrite Hp, Ho.
  - destruct (IH i Hi) as (d' & -> & Hp & Ho).
    eexists. split; [reflexivity|]. simpl. by rewrite Hp, Ho.
Qed.

Lemma addnext_spec (i : nat) (new : paragraph) (d : document) :
  i < length (paragraphs d) →
  ∃ d', addnext i new d = Some d'
        ∧ paragraphs d'
          = take (S i) (paragraphs d) ++ new :: drop (S i) (paragraphs d)
        ∧ other_blocks d' = other_blocks d.
Proof.
  revert i. induction d as [|[p|xml] d IH]; intros i Hi; simpl in *.
  - lia.
  - destruct i as [|i].
    + eexists. split; [reflexivity|]. simpl. by rewrite drop_0.
    + destruct (IH i) as (d' & -> & Hp & Ho); [lia|].
      eexists. split; [reflexivity|]. simpl. by rewrite Hp, Ho.
  - destruct (IH i Hi) as (d' & -> & Hp & Ho).
    eexists. split; [reflexivity|]. simpl. by rewrite Hp, Ho.
Qed.

Lemma delete_take_drop {A} (i : nat) (l : list A) :
  delete i l = take i l ++ drop (S i) l.
Proof.
  revert i. induction l as [|x l IH]; intros [|i]; simpl; try done.
  by rewrite IH.
Qed.

Lemma remove_paragraphs_spec (lo n : nat) (d : document) :
  lo + n ≤ length (paragraphs d) →
  ∃ d', remove_paragraphs d lo (lo + n) = Some d'
        ∧ paragraphs d' = take lo (paragraphs d) ++ drop (lo + n) (paragraphs d)
        ∧ other_blocks d' = other_blocks d.
Proof.
  unfold remove_paragraphs. replace (lo + n - lo) with n by lia.
  revert d. induction n as [|n IH]; intros d Hn.
  - simpl. exists d. rewrite Nat.add_0_r, take_drop. done.
  - rewrite seq_S, reverse_app. simpl.
    destruct (remove_paragraph_spec (lo + n) d) as (d1 & -> & Hp & Ho); [lia|].
    destruct (IH d1) as (d' & E & Hp' & Ho').
    { rewrite Hp, length_delete; [lia|]. apply lookup_lt_is_Some. lia. }
    exists d'. split; [exact E|]. split; [|congruence].
    rewrite Hp', Hp, !delete_take_drop.
    rewrite take_app_le by (rewrite length_take; lia).
    rewrite take_take. replace (lo `min` (lo + n)) with lo by lia.
    f_equal.
    rewrite drop_app_length' by (rewrite length_take; lia).
    f_equal. lia.
Qed.

Lemma first_index_Some {A} (f : A → bool) (l : list A) (i : nat) :
  first_index f l = Some i
  ↔ ∃ x, l !! i = Some x ∧ f x = true
         ∧ ∀ j y, j < i → l !! j = Some y → f y = false.
Proof.
  revert i. induction l as [|x l IH]; intros i; simpl.
  - split; [done|]. by intros (y & ? & _).
  - destruct (f x) eqn:E.
    + split.
      * intros [= <-]. exists x. split; [done|]. split; [done|]. lia.
      * intros (y & Hy & Hf & Hmin). destruct i as [|i]; [done|].
        specialize (Hmin 0 x ltac:(lia) eq_refl). congruence.
    + destruct (first_index f l) as [k|] eqn:Ek; simpl.
      * split.
        -- intros [= <-]. destruct (proj1 (IH k) eq_refl) as (y & Hy & Hf & Hmin).
           exists y. split; [done|]. split; [done|].
           intros [|j] z Hj Hz; simpl in Hz; [congruence|].
           apply (Hmin j z); [lia|done].
        -- intros (y & Hy & Hf & Hmin). destruct i as [|i].
           { simpl in Hy. congruence. }
           f_equal. assert (Some k = Some i) as [= ->]; [|done].
           apply IH. exists y. split; [done|]. split; [done|].
           intros j z Hj Hz. apply (Hmin (S j) z); [lia|done].
      * split; [done|]. intros (y & Hy & Hf & Hmin). destruct i as [|i].
        { simpl in Hy. congruence. }
        assert (None = Some i) as [=]. apply IH.
        exists y. split; [done|]. split; [done|].
        intros j z Hj Hz. apply (Hmin (S j) z); [lia|done].
Qed.

Lemma first_index_None {A} (f : A → bool) (l : list A) :
  first_index f l = None ↔ Forall (λ x, f x = false) l.
Proof.
  induction l as [|x l IH]; simpl.
  - split; [constructor|done].
  - destruct (f x) eqn:E.
    + split; [done|]. intros H. inversion H; congruence.
    + destruct (first_index f l); simpl.
      * split; [done|]. intros H. inversion H; subst.
        by apply IH in H3.
      * split; [|done]. intros _. constructor; [done|]. by apply IH.
Qed.

Lemma first_index_lt {A} (f : A → bool) (l : list A) (i : nat) :
  first_index f l = Some i → i < length l.
Proof.
  intros (x & Hx & _)%first_index_Some. by eapply lookup_lt_Some.
Qed.

Lemma find_skills_start_lt (ps : list paragraph) (i : nat) :
  find_skills_start ps = Some i → i < length ps.
Proof.
  unfold find_skills_start.
  destruct (first_index is_exact_header ps) eqn:E.
  - intros [= <-]. by eapply first_index_lt.
  - apply first_index_lt.
Qed.

Lemma find_skills_end_bounds (ps : list paragraph) (start : nat) :
  start < length ps →
  S start ≤ find_skills_end ps start ≤ length ps.
Proof.
  intros Hs. unfold find_skills_end.
  destruct (first_index is_next_section (drop (S start) ps)) eqn:E; [|lia].
  apply first_index_lt in E. rewrite length_drop in E. lia.
Qed.

Lemma paragraphs_in_spec (d : document) (lo n : nat) :
  lo + n ≤ length (paragraphs d) →
  paragraphs_in d lo (lo + n) = Some (take n (drop lo (paragraphs d))).
Proof.
  unfold paragraphs_in. replace (lo + n - lo) with n by lia.
  generalize (paragraphs d) as ps. intros ps.
  revert lo. induction n as [|n IH]; intros lo H; [done|].
  simpl. destruct (ps !! lo) as [p|] eqn:E.
  - simpl. rewrite (IH (S lo)) by lia. simpl.
    rewrite (drop_S ps p lo E). done.
  - apply lookup_ge_None in E. lia.
Qed.

(** The paragraphs of the section are always in range. *)
Lemma extract_existing_skills_is_Some (doc : document) (start : nat) :
  start < length (paragraphs doc) →
  is_Some (extract_existing_skills doc start
             (find_skills_end (paragraphs doc) start)).
Proof.
  intros Hs. pose proof (find_skills_end_bounds _ _ Hs) as [Hlo Hhi].
  unfold extract_existing_skills.
  replace (find_skills_end (paragraphs doc) start)
    with (S start + (find_skills_end (paragraphs doc) start - S start)) by lia.
  rewrite paragraphs_in_spec by lia. simpl. eauto.
Qed.

Lemma addnext_at (i : nat) (new x : paragraph) (d : document)
    (pre post : list paragraph) :
  paragraphs d = pre ++ x :: post →
  length pre = i →
  ∃ d', addnext i new d = Some d'
        ∧ paragraphs d' = pre ++ x :: new :: post
        ∧ other_blocks d' = other_blocks d.
Proof.
  intros Hp Hi.
  destruct (addnext_spec i new d) as (d' & E & P & O).
  { rewrite Hp, length_app. simpl. lia. }
  exists d'. split; [exact E|]. split; [|exact O].
  rewrite P, Hp.
  replace (S i) with (length (pre ++ [x])) by (rewrite length_app; simpl; lia).
  rewrite (cons_middle x pre post), (assoc_L (++)).
  rewrite take_app_length, drop_app_length.
  by rewrite <- (assoc_L (++)).
Qed.

(** The branch that rewrites the section, in terms of the paragraphs and
    of the other blocks of the body: it returns when [add_run] accepts the
    texts it is given and raises [ValueError] when it does not. *)
Lemma replace_skills_section_spec (doc : document) (start : nat)
    (tailored_skills : list string) :
  start < length (paragraphs doc) →
  ∃ existing,
    extract_existing_skills doc start (find_skills_end (paragraphs doc) start)
    = Some existing
    ∧ if forallb accepts_text (section_runs existing tailored_skills)
      then ∃ doc',
             replace_skills_section doc start tailored_skills = Return doc'
             ∧ paragraphs doc'
               = take (S start) (paragraphs doc)
                 ++ new_section existing tailored_skills
                 ++ drop (find_skills_end (paragraphs doc) start)
                      (paragraphs doc)
             ∧ other_blocks doc' = other_blocks doc
      else replace_skills_section doc start tailored_skills
           = Raise not_xml_compatible.
Proof.
  intros Hs. pose proof (find_skills_end_bounds _ _ Hs) as [Hlo Hhi].
  destruct (extract_existing_skills_is_Some doc start Hs) as [existing Hex].
  exists existing. split; [exact Hex|].
  unfold replace_skills_section. rewrite Hex.
  set (stop := find_skills_end (paragraphs doc) start) in *.
  set (ps := paragraphs doc) in *.
  cbn [mbind outcome_mbind index_or_raise].
  destruct (remove_paragraphs_spec (S start) (stop - S start) doc)
    as (d1 & E1 & P1 & O1); [fold ps; lia|].
  replace (S start + (stop - S start)) with stop in * by lia.
  rewrite E1. cbn [mbind outcome_mbind index_or_raise]. fold ps in P1.
  destruct (lookup_lt_is_Some_2 ps start Hs) as [h Hh].
  rewrite (take_S_r ps start h Hh) in P1 |- *.
  set (pre := take start ps) in *.
  set (post := drop stop ps) in *.
  assert (Lpre : length pre = start) by (unfold pre; rewrite length_take; lia).
  rewrite <- (assoc_L (++)) in P1. simpl in P1.
  destruct (addnext_at start blank_paragraph h d1 pre post P1 Lpre)
    as (d2 & E2 & P2 & O2).
  rewrite E2. cbn [mbind outcome_mbind index_or_raise].
  unfold new_section, section_runs, add_labelled_paragraph.
  set (merged := merge_skills ∅ (hard_skills existing ++ tailored_skills)).
  destruct (soft_skills existing) as [|s0 soft] eqn:Esoft.
  - cbn [app forallb mret outcome_mret mbind outcome_mbind].
    destruct (accepts_text (Text.join " • " merged)); [|reflexivity].
    cbn [andb mbind outcome_mbind].
    destruct (addnext_at (S start)
                (labelled_paragraph "Hard Skills: " merged)
                blank_paragraph d2 (pre ++ [h]) post) as (d3 & E3 & P3 & O3).
    { by rewrite P2, <- (assoc_L (++)). }
    { rewrite length_app. simpl. lia. }
    rewrite E3. cbn [mbind outcome_mbind index_or_raise].
    destruct (addnext_at (S (S start)) blank_paragraph
                (labelled_paragraph "Hard Skills: " merged)
                d3 (pre ++ [h; blank_paragraph]) post) as (d4 & E4 & P4 & O4).
    { rewrite P3, <- !(assoc_L (++)). done. }
    { rewrite length_app. simpl. lia. }
    exists d4. split; [by rewrite E4|]. split; [|congruence].
    rewrite P4, <- !(assoc_L (++)). done.
  - cbn [app forallb mret outcome_mret mbind outcome_mbind].
    destruct (accepts_text (Text.join " • " (s0 :: soft))); [|reflexivity].
    cbn [andb mbind outcome_mbind].
    destruct (addnext_at (S start)
                (labelled_paragraph "Soft Skills: " (s0 :: soft))
                blank_paragraph d2 (pre ++ [h]) post) as (d3 & E3 & P3 & O3).
    { by rewrite P2, <- (assoc_L (++)). }
    { rewrite length_app. simpl. lia. }
    rewrite E3. cbn [mbind outcome_mbind index_or_raise].
    destruct (addnext_at (S (S start)) blank_paragraph
                (labelled_paragraph "Soft Skills: " (s0 :: soft))
                d3 (pre ++ [h; blank_paragraph]) post) as (d4 & E4 & P4 & O4).
    { rewrite P3, <- !(assoc_L (++)). done. }
    { rewrite length_app. simpl. lia. }
    rewrite E4. cbn [mbind outcome_mbind index_or_raise mret outcome_mret].
    destruct (accepts_text (Text.join " • " merged)); [|reflexivity].
    cbn [mbind outcome_mbind].
    destruct (addnext_at (S (S (S start)))
                (labelled_paragraph "Hard Skills: " merged)
                blank_paragraph d4
                (pre ++ [h; blank_paragraph;
                         labelled_paragraph "Soft Skills: " (s0 :: soft)])
                post) as (d5 & E5 & P5 & O5).
    { rewrite P4, <- !(assoc_L (++)). done. }
    { rewrite length_app. simpl. lia. }
    rewrite E5. cbn [mbind outcome_mbind index_or_raise].
    destruct (addnext_at (S (S (S (S start)))) blank_paragraph
                (labelled_paragraph "Hard Skills: " merged)
                d5
                (pre ++ [h; blank_paragraph;
                         labelled_paragraph "Soft Skills: " (s0 :: soft);
                         blank_paragraph])
                post) as (d6 & E6 & P6 & O6).
    { rewrite P5, <- !(assoc_L (++)). done. }
    { rewrite length_app. simpl. lia. }
    exists d6. split; [by rewrite E6|]. split; [|congruence].
    rewrite P6, <- !(assoc_L (++)). done.
Qed.

(** X19: when a skills header is found in a plain document, the export of
    plain skills whose runs [add_run] accepts keeps the paragraphs up to
    the header and those from the end of the section on, puts the new
    section between them, and leaves the blocks that are not paragraphs as
    they are; when a run holds a control character the export raises
    [ValueError] and saves nothing. *)
Theorem export_rewrites_the_skills_section_only (fs : gmap string file)
    (path : string) (heading_style : bool) (doc : document) (start : nat)
    (tailored_skills : list string) :
  fs !! path = Some (docx_file heading_style doc) →
  plain_document doc →
  Forall (λ skill, Text.is_plain skill = true) tailored_skills →
  find_skills_start (paragraphs doc) = Some start →
  ∃ existing,
    extract_existing_skills doc start (find_skills_end (paragraphs doc) start)
    = Some existing
    ∧ if forallb accepts_text (section_runs existing tailored_skills)
      then ∃ doc',
             export_docx path tailored_skills fs
             = ([EvExists path; EvOpen path; EvSave], Return doc')
             ∧ paragraphs doc'
               = take (S start) (paragraphs doc)
                 ++ new_section existing tailored_skills
                 ++ drop (find_skills_end (paragraphs doc) start)
                      (paragraphs doc)
             ∧ other_blocks doc' = other_blocks doc
      else export_docx path tailored_skills fs
           = ([EvExists path; EvOpen path], Raise not_xml_compatible).
Proof.
  intros Hfile _ _ Hstart.
  rewrite (run_export_docx fs path heading_style doc tailored_skills Hfile).
  rewrite Hstart.
  destruct (replace_skills_section_spec doc start tailored_skills)
    as (existing & Hex & H); [by eapply find_skills_start_lt|].
  exists existing. split; [exact Hex|].
  destruct (forallb accepts_text (section_runs existing tailored_skills)).
  - destruct H as (doc' & -> & P & O). by exists doc'.
  - by rewrite H.
Qed.

Lemma first_index_exists {A} (f : A → bool) (l : list A) (i : nat) (x : A) :
  l !! i = Some x → f x = true →
  ∃ j, j ≤ i ∧ first_index f l = Some j.
Proof.
  revert i. induction l as [|y l IH]; intros i Hx Hf; [done|].
  simpl. destruct (f y) eqn:E.
  - exists 0. split; [lia|done].
  - destruct i as [|i]; simpl in Hx; [congruence|].
    destruct (IH i Hx Hf) as (j & Hj & ->). exists (S j). split; [lia|done].
Qed.

(** X20: among plain paragraphs, the search for the skills header fails
    exactly when no paragraph is an exact or a loose header; an exact
    header anywhere wins over a loose header before it; the paragraph
    found is a header and no exact header precedes it. *)
Theorem header_detection_prefers_exact_headers (ps : list paragraph) :
  Forall (λ p, Text.is_plain (par_text p) = true) ps →
  (find_skills_start ps = None
   ↔ Forall (λ p, is_exact_header p = false ∧ is_loose_header p = false) ps)
  ∧ (∀ i p, ps !! i = Some p → is_exact_header p = true →
       ∃ j q, j ≤ i ∧ find_skills_start ps = Some j
              ∧ ps !! j = Some q ∧ is_exact_header q = true)
  ∧ (∀ i, find_skills_start ps = Some i →
       ∃ p, ps !! i = Some p
            ∧ (is_exact_header p = true ∨ is_loose_header p = true)
            ∧ ∀ j q, j < i → ps !! j = Some q → is_exact_header q = false).
Proof.
  intros _. unfold find_skills_start. split; [|split].
  - destruct (first_index is_exact_header ps) eqn:E.
    + split; [done|]. intros H.
      apply first_index_Some in E as (x & Hx & Hf & _).
      rewrite Forall_forall in H.
      destruct (H x) as [? _]; [by eapply list_elem_of_lookup_2|congruence].
    + rewrite first_index_None. apply first_index_None in E.
      rewrite !Forall_forall in *. naive_solver.
  - intros i p Hp Hf.
    destruct (first_index_exists _ _ _ _ Hp Hf) as (j & Hj & E).
    rewrite E. apply first_index_Some in E as (q & Hq & Hfq & _).
    eauto 10.
  - intros i. destruct (first_index is_exact_header ps) eqn:E.
    + intros [= <-]. apply first_index_Some in E as (q & Hq & Hfq & Hmin).
      eauto 10.
    + intros (p & Hp & Hf & _)%first_index_Some.
      exists p. split; [done|]. split; [by right|].
      intros j q _ Hq. apply first_index_None in E.
      rewrite Forall_forall in E. apply E. by eapply list_elem_of_lookup_2.
Qed.

(** *** The deduplication loop *)

Lemma merge_skills_sublist (seen : gset string) (l : list string) :
  sublist (merge_skills seen l) (Text.strip <$> l).
Proof.
  revert seen. induction l as [|skill l IH]; intros seen; simpl; [done|].
  destruct (_ && _).
  - by apply sublist_skip.
  - by apply sublist_cons.
Qed.

Lemma merge_skills_complete (seen : gset string) (l : list string)
    (skill : string) :
  skill ∈ l →
  Text.strip (Text.lower skill) ≠ EmptyString →
  Text.strip (Text.lower skill) ∈ seen
  ∨ Text.strip (Text.lower skill) ∈ Text.lower <$> merge_skills seen l.
Proof.
  revert seen. induction l as [|x l IH]; intros seen Hin Hne.
  - by apply elem_of_nil in Hin.
  - simpl. apply elem_of_cons in Hin as [->|Hin].
    + destruct (decide (Text.strip (Text.lower x) ∈ seen)) as [?|Hn];
        [by left|]. right.
      rewrite bool_decide_eq_true_2 by done.
      assert (String.eqb (Text.strip (Text.lower x)) EmptyString = false)
        as -> by (by apply String.eqb_neq).
      simpl. rewrite lower_strip. apply list_elem_of_here.
    + destruct (bool_decide (Text.strip (Text.lower x) ∉ seen)
                && negb (String.eqb (Text.strip (Text.lower x)) EmptyString))
        eqn:E.
      * destruct (IH (seen ∪ {[Text.strip (Text.lower x)]}) Hin Hne)
          as [[?| ->%elem_of_singleton]%elem_of_union|?].
        -- by left.
        -- right. simpl. rewrite lower_strip. apply list_elem_of_here.
        -- right. simpl. by apply list_elem_of_further.
      * by apply IH.
Qed.

Lemma merge_skills_nonblank (seen : gset string) (l : list string) :
  Forall (λ s, Text.lower s ≠ EmptyString) (merge_skills seen l).
Proof.
  revert seen. induction l as [|x l IH]; intros seen; simpl; [constructor|].
  destruct (bool_decide _ && negb _) eqn:E; [|apply IH].
  constructor; [|apply IH].
  apply andb_true_iff in E as [_ E]. apply negb_true_iff in E.
  apply String.eqb_neq in E. by rewrite lower_strip.
Qed.

(** X21: on plain skills the deduplication loop keeps the stripped skills
    in their order of arrival, keeps a representative of every skill that
    is not blank, and keeps no empty skill. *)
Theorem merge_keeps_order_and_loses_no_skill (existing incoming : list string) :
  Forall (λ skill, Text.is_plain skill = true) (existing ++ incoming) →
  sublist (merge_skills ∅ (existing ++ incoming))
          (Text.strip <$> (existing ++ incoming))
  ∧ (∀ skill, skill ∈ existing ++ incoming →
       Text.strip (Text.lower skill) ≠ EmptyString →
       Text.strip (Text.lower skill)
       ∈ Text.lower <$> merge_skills ∅ (existing ++ incoming))
  ∧ Forall (λ s, s ≠ EmptyString) (merge_skills ∅ (existing ++ incoming)).
Proof.
  intros _. split; [apply merge_skills_sublist|]. split.
  - intros skill Hin Hne.
    destruct (merge_skills_complete ∅ _ _ Hin Hne) as [H|H]; [|done].
    by apply elem_of_empty in H.
  - eapply Forall_impl; [apply merge_skills_nonblank|].
    intros s Hs ->. by apply Hs.
Qed.

(** ** The properties of the scorer, the extractor and the export on the
       examples *)

Lemma candidate_with_every_wanted_skill_scores_100_witness :
  num_value (required_score
               (calculate_match_score scorer_example_cv scorer_covered_job))
  = 100%Q
  ∧ num_value (preferred_score
                 (calculate_match_score scorer_example_cv scorer_covered_job))
    = 100%Q
  ∧ num_value (overall_score
                 (calculate_match_score scorer_example_cv scorer_covered_job))
    = 100%Q
  ∧ missing_required (calculate_match_score scorer_example_cv scorer_covered_job)
    = []
  ∧ missing_preferred (calculate_match_score scorer_example_cv scorer_covered_job)
    = [].
Proof.
  apply (candidate_with_every_wanted_skill_scores_100
           scorer_example_cv scorer_covered_job).
  intros s Hs. simpl in Hs.
  apply elem_of_cons in Hs as [->|Hs];
    [|apply elem_of_cons in Hs as [->|Hs]; [|by apply elem_of_nil in Hs]].
  - vm_compute. by eexists.
  - vm_compute. by eexists.
Defined.

Lemma job_without_required_skills_scores_at_least_70_witness :
  (70 <= num_value (overall_score
                      (calculate_match_score scorer_example_cv
                         scorer_preferred_only_job)))%Q.
Proof.
  apply (job_without_required_skills_scores_at_least_70
           scorer_example_cv scorer_preferred_only_job).
  reflexivity.
Defined.

Lemma match_score_ignores_letter_case_witness :
  calculate_match_score scorer_example_cv scorer_example_job
  = calculate_match_score scorer_example_cv_capitals scorer_example_job_capitals.
Proof.
  apply (match_score_ignores_letter_case
           scorer_example_cv scorer_example_cv_capitals
           scorer_example_job scorer_example_job_capitals);
    vm_compute; reflexivity.
Defined.

Lemma word_bounded_term_is_extracted_iff_it_is_a_whole_word_witness :
  "python" ∈ extract_skills_from_text "Python and SQL"
  ↔ whole_word_occurrence "python" (Text.lower "Python and SQL")
    ∨ ∃ a, (a, "python") ∈ abbreviations
           ∧ whole_word_occurrence a (Text.lower "Python and SQL").
Proof.
  apply (word_bounded_term_is_extracted_iff_it_is_a_whole_word
           "Python and SQL" "python").
  - reflexivity.
  - apply list_elem_of_here.
  - reflexivity.
Defined.

Lemma extraction_ignores_letter_case_witness :
  extract_skills_from_text (Text.upper "Python and SQL")
  = extract_skills_from_text "Python and SQL"
  ∧ extract_skills_from_text (Text.lower "Python and SQL")
    = extract_skills_from_text "Python and SQL".
Proof.
  apply (extraction_ignores_letter_case "Python and SQL"). reflexivity.
Defined.

Lemma export_rewrites_the_skills_section_only_witness :
  ∃ existing,
    extract_existing_skills
      example_cv_body 0
      (find_skills_end
         (paragraphs example_cv_body) 0)
    = Some existing
    ∧ if forallb accepts_text (section_runs existing ["Python"])
      then ∃ doc',
             export_docx "cv.docx" ["Python"] example_files
             = ([EvExists "cv.docx"; EvOpen "cv.docx"; EvSave], Return doc')
             ∧ paragraphs doc'
               = take 1 (paragraphs example_cv_body)
                 ++ new_section existing ["Python"]
                 ++ drop (find_skills_end
                            (paragraphs example_cv_body) 0)
                      (paragraphs example_cv_body)
             ∧ other_blocks doc'
               = other_blocks example_cv_body
      else export_docx "cv.docx" ["Python"] example_files
           = ([EvExists "cv.docx"; EvOpen "cv.docx"],
              Raise not_xml_compatible).
Proof.
  apply (export_rewrites_the_skills_section_only example_files "cv.docx"
           true example_cv_body 0 ["Python"]);
    try reflexivity; repeat constructor.
Defined.

Lemma header_detection_prefers_exact_headers_witness :
  (find_skills_start (paragraphs example_cv_body) = None
   ↔ Forall (λ p, is_exact_header p = false ∧ is_loose_header p = false)
       (paragraphs example_cv_body))
  ∧ (∀ i p, paragraphs example_cv_body !! i = Some p →
       is_exact_header p = true →
       ∃ j q, j ≤ i ∧ find_skills_start (paragraphs example_cv_body) = Some j
              ∧ paragraphs example_cv_body !! j = Some q
              ∧ is_exact_header q = true)
  ∧ (∀ i, find_skills_start (paragraphs example_cv_body) = Some i →
       ∃ p, paragraphs example_cv_body !! i = Some p
            ∧ (is_exact_header p = true ∨ is_loose_header p = true)
            ∧ ∀ j q, j < i → paragraphs example_cv_body !! j = Some q →
                is_exact_header q = false).
Proof.
  apply (header_detection_prefers_exact_headers (paragraphs example_cv_body)).
  repeat constructor.
Defined.

Lemma merge_keeps_order_and_loses_no_skill_witness :
  sublist (merge_skills ∅ (["Java"; "SQL"] ++ ["java "; "Python"]))
          (Text.strip <$> (["Java"; "SQL"] ++ ["java "; "Python"]))
  ∧ (∀ skill, skill ∈ ["Java"; "SQL"] ++ ["java "; "Python"] →
       Text.strip (Text.lower skill) ≠ EmptyString →
       Text.strip (Text.lower skill)
       ∈ Text.lower <$> merge_skills ∅ (["Java"; "SQL"] ++ ["java "; "Python"]))
  ∧ Forall (λ s, s ≠ EmptyString)
      (merge_skills ∅ (["Java"; "SQL"] ++ ["java "; "Python"])).
Proof.
  apply (merge_keeps_order_and_loses_no_skill
           ["Java"; "SQL"] ["java "; "Python"]).
  repeat constructor.
Defined.

(** ** The parser: texts read and errors raised *)

Lemma append_assoc (a b c : string) : (a +:+ b) +:+ c = a +:+ (b +:+ c).
Proof.
  induction a as [|x a IH]; [done|].
  change ((String x a +:+ b) +:+ c) with (String x ((a +:+ b) +:+ c)).
  change (String x a +:+ (b +:+ c)) with (String x (a +:+ (b +:+ c))).
  by rewrite IH.
Qed.

Lemma append_empty_r (a : string) : a +:+ EmptyString = a.
Proof.
  induction a as [|x a IH]; [done|].
  change (String x a +:+ EmptyString) with (String x (a +:+ EmptyString)).
  by rewrite IH.
Qed.

Lemma lines_text_cons (t : string) (l : list string) :
  lines_text (t :: l) = t +:+ Text.LF +:+ lines_text l.
Proof.
  unfold lines_text. cbn [fmap list_fmap String.concat].
  destruct ((λ t0, t0 +:+ Text.LF) <$> l) as [|y ys] eqn:E.
  - destruct l; [|done]. cbn. by rewrite append_empty_r.
  - change (EmptyString +:+ String.concat EmptyString (y :: ys))
      with (String.concat EmptyString (y :: ys)).
    by rewrite append_assoc.
Qed.

Lemma read_pages_spec (path : string) (pages : list (option string))
    (text : string) :
  read_pages path pages text
  = (text +:+ lines_text (readable_prefix pages),
     if all_readable pages then None else Some (ReadError path)).
Proof.
  revert text. induction pages as [|[t|] pages IH]; intros text.
  - cbn. by rewrite append_empty_r.
  - cbn [read_pages readable_prefix]. rewrite IH, lines_text_cons.
    rewrite !append_assoc. reflexivity.
  - cbn. by rewrite append_empty_r.
Qed.

(** X16: the text of a PDF file is the text of its pages up to the first
    page that cannot be read, each followed by a line feed; one error line
    is printed when a page cannot be read and none otherwise. *)
Theorem pdf_text_is_kept_up_to_the_first_unreadable_page
    (fs : gmap string file) (path : string) (pages : list (option string)) :
  fs !! path = Some (PdfFile pages) →
  extract_text_from_pdf path fs
  = (EvOpen path
       :: (if all_readable pages then []
           else [EvPrint "Error reading PDF: " (ReadError path)]),
     Return (lines_text (readable_prefix pages))).
Proof.
  intros Hfile. unfold extract_text_from_pdf.
  rewrite !run_bind. cbn [emit lookup_file]. rewrite Hfile.
  rewrite read_pages_spec.
  change (EmptyString +:+ lines_text (readable_prefix pages))
    with (lines_text (readable_prefix pages)).
  destruct (all_readable pages); reflexivity.
Qed.

Lemma run_extract_text_returns (path : string) (fs : gmap string file)
    (trace : list event) (e : exn) :
  extract_text_from_pdf path fs ≠ (trace, Raise e)
  ∧ extract_text_from_docx path fs ≠ (trace, Raise e).
Proof.
  split.
  - unfold extract_text_from_pdf. rewrite !run_bind. cbn [emit lookup_file].
    destruct (fs !! path) as [[d|d|pages|]|]; try discriminate.
    destruct (read_pages path pages EmptyString) as [t [err|]]; discriminate.
  - unfold extract_text_from_docx. rewrite !run_bind. cbn [emit lookup_file].
    destruct (fs !! path) as [[d|d|pages|]|]; discriminate.
Qed.

(** X15: the parser raises exactly when the path ends neither in ".pdf"
    nor in ".docx"; it then raises [ValueError] before any file is
    opened. *)
Theorem parser_raises_exactly_on_an_unsupported_extension
    (extract_personal_info : string → PersonalInfo)
    (fs : gmap string file) (path : string) (trace : list event) (e : exn) :
  parse_cv extract_personal_info path fs = (trace, Raise e)
  ↔ Text.endswith path ".pdf" = false
    ∧ Text.endswith path ".docx" = false
    ∧ trace = []
    ∧ e = ValueError "Unsupported file format".
Proof.
  unfold parse_cv, extract_text. rewrite run_bind.
  destruct (Text.endswith path ".pdf") eqn:Epdf.
  - split; [|by intros [? _]].
    destruct (extract_text_from_pdf path fs) as [t [text|e']] eqn:E.
    + cbn [mret io_mret io_ret]. discriminate.
    + by destruct (proj1 (run_extract_text_returns path fs t e')).
  - destruct (Text.endswith path ".docx") eqn:Edocx.
    + split; [|by intros (_ & ? & _)].
      destruct (extract_text_from_docx path fs) as [t [text|e']] eqn:E.
      * cbn [mret io_mret io_ret]. discriminate.
      * by destruct (proj2 (run_extract_text_returns path fs t e')).
    + unfold raise. split.
      * by intros [= <- <-].
      * by intros (_ & _ & -> & ->).
Qed.

Lemma abbreviations_in_vocabulary (a x : string) :
  (a, x) ∈ abbreviations → x ∈ technical_skills.
Proof.
  unfold abbreviations. rewrite !elem_of_cons, elem_of_nil.
  intros [[= _ ->]|[[= _ ->]|[[= _ ->]|[]]]];
    apply list_elem_of_In; vm_compute; tauto.
Qed.

(** X17: a profile returned by the parser records the path it was given
    and the contact fields of its text, and has one category, "technical",
    whose skills are terms of the vocabulary in sorted order without
    duplicates. *)
Theorem parsed_profile_lists_vocabulary_terms_in_order
    (extract_personal_info : string → PersonalInfo)
    (fs : gmap string file) (path : string) (trace : list event)
    (cv : CVData) :
  parse_cv extract_personal_info path fs = (trace, Return cv) →
  original_file_path cv = path
  ∧ personal_info cv = extract_personal_info (raw_text cv)
  ∧ ∃ technical,
      skills cv = [ ("technical", technical) ]
      ∧ StronglySorted String.le technical
      ∧ NoDup technical
      ∧ ∀ skill, skill ∈ technical → skill ∈ technical_skills.
Proof.
  unfold parse_cv. rewrite run_bind.
  destruct (extract_text path fs) as [t [text|e]]; [|discriminate].
  cbn [mret io_mret io_ret]. intros [= _ <-].
  cbn [original_file_path personal_info raw_text skills].
  split; [reflexivity|]. split; [reflexivity|].
  eexists. split; [reflexivity|].
  split; [apply sorted_StronglySorted|]. split; [apply NoDup_sorted_set|].
  intros skill. rewrite elem_of_sorted_set, elem_of_extract_skills_from_text.
  intros [[? _]|(a & Ha & _)]; [done|]. by eapply abbreviations_in_vocabulary.
Qed.

(** ** The analyzer: labels, substrings and the 70/30 split *)

Lemma contains_false (lit s : string) :
  Text.contains lit s = false →
  String.prefix lit s = false
  ∧ ∀ c s', s = String c s' → Text.contains lit s' = false.
Proof.
  destruct s as [|c s]; simpl.
  - rewrite orb_false_r. intros H. split; [exact H|]. discriminate.
  - intros [H1 H2]%orb_false_iff. split; [exact H1|].
    intros c' s' [= _ <-]. exact H2.
Qed.

Lemma search_without_literal (here : string → option string)
    (lit s : string) :
  (∀ t, String.prefix lit t = false → here t = None) →
  Text.contains lit s = false →
  Re.search here s = None.
Proof.
  intros Hhere. induction s as [|c s IH]; intros Hc.
  - simpl. rewrite Hhere; [done|]. by apply contains_false in Hc as [? _].
  - apply contains_false in Hc as [Hp Hs]. simpl. rewrite (Hhere _ Hp).
    apply IH. by apply (Hs c s).
Qed.

Lemma find_required_text_without_label (text_lower : string) :
  Text.contains "required" text_lower = false →
  Text.contains "must" text_lower = false →
  find_required_text text_lower = EmptyString.
Proof.
  intros Hr Hm. unfold find_required_text.
  rewrite (search_without_literal Re.required_here "required"); [|..|exact Hr].
  - rewrite (search_without_literal Re.must_have_here "must");
      [done|..|exact Hm].
    intros t Ht. unfold Re.must_have_here, Re.literal. by rewrite Ht.
  - intros t Ht. unfold Re.required_here, Re.literal. by rewrite Ht.
Qed.

Lemma js_all_sorted_set (set_iter : nat → gset string → list string)
    (text : string) :
  (∀ i X, set_iter i X ≡ₚ elements X) →
  js_all (extract_skills_from_job set_iter text)
  = sorted_set (extract_skills_from_text text).
Proof.
  intros Hiter. unfold extract_skills_from_job.
  destruct (categorize _ _) as [req pref].
  destruct (_ && _); simpl; by apply sorted_order_irrelevant.
Qed.

(** X9: a plain posting whose lower-cased text contains neither
    "required" nor "must" has no required skill: every extracted skill is
    preferred. *)
Theorem posting_without_a_label_has_only_preferred_skills
    (set_iter : nat → gset string → list string) (text : string) :
  (∀ i X, set_iter i X ≡ₚ elements X) →
  Text.is_plain text = true →
  Text.contains "required" (Text.lower text) = false →
  Text.contains "must" (Text.lower text) = false →
  js_required (extract_skills_from_job set_iter text) = []
  ∧ js_preferred (extract_skills_from_job set_iter text)
    = sorted_set (extract_skills_from_text text)
  ∧ js_all (extract_skills_from_job set_iter text)
    = sorted_set (extract_skills_from_text text).
Proof.
  intros Hiter _ Hr Hm.
  destruct (unlabelled_posting_has_no_required_skill set_iter Hiter text)
    as [H1 H2]; [by apply find_required_text_without_label|].
  rewrite H1, H2. by rewrite js_all_sorted_set.
Qed.

Lemma split_point_bounds (n : nat) :
  3 < n → n ≤ 94 → 0 < split_point n < n.
Proof.
  intros H3 H94.
  assert (F : Forall (λ k, 0 < split_point k < k) (seq 4 91)).
  { apply (bool_decide_unpack (Forall (λ k, 0 < split_point k < k) (seq 4 91))).
    vm_compute. exact I. }
  rewrite Forall_forall in F. apply F. apply elem_of_seq. lia.
Qed.

Lemma size_extracted_skills (text : string) :
  size (extract_skills_from_text text) ≤ 94.
Proof.
  etrans; [apply subseteq_size, extracted_skills_in_vocabulary|].
  vm_compute. lia.
Qed.

Section AnalyzerBranches.

Variable set_iter : nat → gset string → list string.
Hypothesis set_iter_elements : ∀ i X, set_iter i X ≡ₚ elements X.

Lemma length_set_iter (i : nat) (X : gset string) :
  length (set_iter i X) = size X.
Proof. by rewrite set_iter_elements. Qed.

(** The two lists before the test of the split, and the test itself. *)
Lemma categorized_then_split (text : string) :
  let all := extract_skills_from_text text in
  let required_text := find_required_text (Text.lower text) in
  ∃ R P,
    (∀ x, x ∈ R ↔ x ∈ all ∧ in_required required_text x)
    ∧ (∀ x, x ∈ P ↔ x ∈ all ∧ ¬ in_required required_text x)
    ∧ NoDup R ∧ NoDup P
    ∧ extract_skills_from_job set_iter text
      = let '(required_skills, preferred_skills) :=
          if bool_decide (P = []) && bool_decide (3 < length R)
          then (take (split_point (length R)) R,
                drop (split_point (length R)) R)
          else (R, P) in
        {| js_required := sorted required_skills;
           js_preferred := sorted preferred_skills;
           js_all := sorted (set_iter 0 all) |}.
Proof.
  intros all required_text. unfold extract_skills_from_job.
  fold all. fold required_text.
  destruct (categorize required_text (set_iter 0 all)) as [req pref] eqn:Hc.
  destruct (categorized_lists set_iter set_iter_elements _ _ _ _ Hc)
    as [Hreq Hpref].
  exists (set_iter 1 (list_to_set req)), (set_iter 2 (list_to_set pref)).
  split; [exact Hreq|]. split; [exact Hpref|].
  split; [by apply NoDup_set_iter|]. split; [by apply NoDup_set_iter|].
  reflexivity.
Qed.

End AnalyzerBranches.

(** X10: in a plain posting, when every extracted skill occurs in the
    required text and there are more than three, the 70/30 split takes
    place: the required list has [int(n * 0.7)] skills, the preferred list
    the others, and neither is empty. *)
Theorem fallback_split_leaves_both_lists_non_empty
    (set_iter : nat → gset string → list string) (text : string) :
  (∀ i X, set_iter i X ≡ₚ elements X) →
  Text.is_plain text = true →
  (∀ skill, skill ∈ extract_skills_from_text text →
     in_required (find_required_text (Text.lower text)) skill = true) →
  3 < size (extract_skills_from_text text) →
  length (js_required (extract_skills_from_job set_iter text))
  = split_point (size (extract_skills_from_text text))
  ∧ length (js_preferred (extract_skills_from_job set_iter text))
    = size (extract_skills_from_text text)
      - split_point (size (extract_skills_from_text text))
  ∧ 0 < length (js_required (extract_skills_from_job set_iter text))
  ∧ 0 < length (js_preferred (extract_skills_from_job set_iter text)).
Proof.
  intros Hiter _ Hall Hsize.
  destruct (categorized_then_split set_iter Hiter text)
    as (R & P & HR & HP & NR & _ & ->).
  pose proof (size_extracted_skills text) as Hmax.
  set (all := extract_skills_from_text text) in *.
  set (rt := find_required_text (Text.lower text)) in *.
  clearbody all rt.
  assert (EP : P = []).
  { apply elem_of_nil_inv. intros x [Hx Hn]%HP. apply Hn.
    by rewrite (Hall x Hx). }
  assert (LR : length R = size all).
  { apply Permutation_length, NoDup_Permutation;
      [exact NR | apply NoDup_elements |].
    intros x. rewrite HR, elem_of_elements. split; [tauto|].
    intros Hx. split; [done|]. by rewrite (Hall x Hx). }
  rewrite EP, LR. rewrite bool_decide_eq_true_2 by done.
  rewrite bool_decide_eq_true_2 by lia.
  cbn [andb js_required js_preferred].
  rewrite !length_sorted, length_take, length_drop, LR.
  pose proof (split_point_bounds (size all) Hsize Hmax). lia.
Qed.

(** X11: in a plain posting, when the 70/30 split does not take place, a
    skill is required exactly when it is extracted and its name is a
    substring of the required text, and preferred exactly when it is
    extracted and is not. *)
Theorem job_skills_are_classified_by_substring
    (set_iter : nat → gset string → list string) (text skill : string) :
  (∀ i X, set_iter i X ≡ₚ elements X) →
  Text.is_plain text = true →
  (∃ other, other ∈ extract_skills_from_text text
            ∧ in_required (find_required_text (Text.lower text)) other = false)
  ∨ size (extract_skills_from_text text) ≤ 3 →
  (skill ∈ js_required (extract_skills_from_job set_iter text)
   ↔ skill ∈ extract_skills_from_text text
     ∧ find_required_text (Text.lower text) ≠ EmptyString
     ∧ Text.contains skill (find_required_text (Text.lower text)) = true)
  ∧ (skill ∈ js_preferred (extract_skills_from_job set_iter text)
     ↔ skill ∈ extract_skills_from_text text
       ∧ ¬ (find_required_text (Text.lower text) ≠ EmptyString
            ∧ Text.contains skill (find_required_text (Text.lower text))
              = true)).
Proof.
  intros Hiter _ Hcase.
  destruct (categorized_then_split set_iter Hiter text)
    as (R & P & HR & HP & NR & NP & ->).
  set (all := extract_skills_from_text text) in *.
  set (rt := find_required_text (Text.lower text)) in *.
  clearbody all rt.
  assert (Hin : ∀ x, in_required rt x = true
                     ↔ rt ≠ EmptyString ∧ Text.contains x rt = true).
  { intros x. unfold in_required.
    rewrite andb_true_iff, negb_true_iff, String.eqb_neq. done. }
  assert (Hcond : bool_decide (P = []) && bool_decide (3 < length R) = false).
  { apply andb_false_iff. destruct Hcase as [(o & Ho & Hf)|Hs].
    - left. apply bool_decide_eq_false. intros EP.
      assert (o ∈ P) as Hin' by (apply HP; split; [done | rewrite Hf; exact id]).
      rewrite EP in Hin'. by apply elem_of_nil in Hin'.
    - right. apply bool_decide_eq_false.
      assert (length R ≤ size all); [|lia].
      apply submseteq_length, NoDup_submseteq; [exact NR|].
      intros x [Hx _]%HR. by apply elem_of_elements. }
  rewrite Hcond. cbn [js_required js_preferred].
  rewrite !elem_of_sorted, HR, HP. rewrite <- Hin.
  rewrite !Is_true_true. done.
Qed.

Lemma posting_without_a_label_has_only_preferred_skills_witness :
  js_required (extract_skills_from_job (λ _, elements) unlabelled_posting) = []
  ∧ js_preferred (extract_skills_from_job (λ _, elements) unlabelled_posting)
    = sorted_set (extract_skills_from_text unlabelled_posting)
  ∧ js_all (extract_skills_from_job (λ _, elements) unlabelled_posting)
    = sorted_set (extract_skills_from_text unlabelled_posting).
Proof.
  apply (posting_without_a_label_has_only_preferred_skills
           (λ _, elements) unlabelled_posting).
  - intros i X. reflexivity.
  - reflexivity.
  - vm_compute. reflexivity.
  - vm_compute. reflexivity.
Defined.

Lemma fallback_split_leaves_both_lists_non_empty_witness :
  length (js_required
            (extract_skills_from_job (λ _, elements) fully_required_posting))
  = split_point (size (extract_skills_from_text fully_required_posting))
  ∧ length (js_preferred
              (extract_skills_from_job (λ _, elements) fully_required_posting))
    = size (extract_skills_from_text fully_required_posting)
      - split_point (size (extract_skills_from_text fully_required_posting))
  ∧ 0 < length (js_required
                  (extract_skills_from_job (λ _, elements)
                     fully_required_posting))
  ∧ 0 < length (js_preferred
                  (extract_skills_from_job (λ _, elements)
                     fully_required_posting)).
Proof.
  apply (fallback_split_leaves_both_lists_non_empty
           (λ _, elements) fully_required_posting).
  - intros i X. reflexivity.
  - reflexivity.
  - intros skill Hskill%elem_of_elements. revert skill Hskill.
    apply Forall_forall.
    apply (bool_decide_unpack
             (Forall (λ skill,
                        in_required
                          (find_required_text
                             (Text.lower fully_required_posting)) skill
                        = true)
                     (elements
                        (extract_skills_from_text fully_required_posting)))).
    vm_compute. exact I.
  - vm_compute. lia.
Defined.

Lemma job_skills_are_classified_by_substring_witness :
  ("python" ∈ js_required
                (extract_skills_from_job (λ _, elements) labelled_posting)
   ↔ "python" ∈ extract_skills_from_text labelled_posting
     ∧ find_required_text (Text.lower labelled_posting) ≠ EmptyString
     ∧ Text.contains "python"
         (find_required_text (Text.lower labelled_posting)) = true)
  ∧ ("python" ∈ js_preferred
                  (extract_skills_from_job (λ _, elements) labelled_posting)
     ↔ "python" ∈ extract_skills_from_text labelled_posting
       ∧ ¬ (find_required_text (Text.lower labelled_posting) ≠ EmptyString
            ∧ Text.contains "python"
                (find_required_text (Text.lower labelled_posting)) = true)).
Proof.
  apply (job_skills_are_classified_by_substring
           (λ _, elements) labelled_posting "python").
  - intros i X. reflexivity.
  - reflexivity.
  - left. exists "docker". split.
    + vm_compute. by eexists.
    + vm_compute. reflexivity.
Defined.

(** ** The skills read from the old section *)

Lemma rev_app_append (s t : string) :
  String.rev_app s t = String.rev s +:+ t.
Proof.
  unfold String.rev. revert t. induction s as [|c s IH]; intros t; [done|].
  simpl. rewrite (IH (String c t)), (IH (String c EmptyString)).
  by rewrite append_assoc.
Qed.

Lemma rev_cons (c : ascii) (s : string) :
  String.rev (String c s) = String.rev s +:+ String c EmptyString.
Proof. unfold String.rev at 1. simpl. by rewrite rev_app_append. Qed.

Lemma rev_append (a b : string) :
  String.rev (a +:+ b) = String.rev b +:+ String.rev a.
Proof.
  induction a as [|c a IH].
  - change (EmptyString +:+ b) with b. by rewrite append_empty_r.
  - change (String c a +:+ b) with (String c (a +:+ b)).
    by rewrite !rev_cons, IH, append_assoc.
Qed.

Lemma rev_involutive (s : string) : String.rev (String.rev s) = s.
Proof.
  induction s as [|c s IH]; [done|].
  by rewrite rev_cons, rev_append, IH.
Qed.

Lemma prefix_append (lit a b : string) :
  String.prefix lit a = true → String.prefix lit (a +:+ b) = true.
Proof.
  revert a. induction lit as [|c lit IH]; intros a;
    [by destruct (a +:+ b)|].
  destruct a as [|x a]; [done|].
  change (String x a +:+ b) with (String x (a +:+ b)). simpl.
  destruct (ascii_dec c x); [apply IH|done].
Qed.

Lemma separator_append (a b : string) :
  Re.separator (a +:+ b) = None → Re.separator a = None.
Proof.
  unfold Re.separator, Re.literal.
  destruct (String.prefix "•" a) eqn:E.
  - by rewrite (prefix_append _ _ b E).
  - destruct (String.prefix "•" (a +:+ b)); [done|].
    destruct a as [|c a]; [done|].
    change (String c a +:+ b) with (String c (a +:+ b)).
    cbv beta iota. by destruct (_ || _).
Qed.

Lemma has_separator_append (a b : string) :
  has_separator (a +:+ b) = false → has_separator a = false.
Proof.
  induction a as [|c a IH]; [done|].
  change (String c a +:+ b) with (String c (a +:+ b)).
  cbn [has_separator].
  destruct (Re.separator (String c (a +:+ b))) eqn:E; [done|].
  change (String c (a +:+ b)) with (String c a +:+ b) in E.
  rewrite (separator_append _ _ E). exact IH.
Qed.

Lemma has_separator_tail (c : ascii) (s : string) :
  has_separator (String c s) = false → has_separator s = false.
Proof. cbn [has_separator]. by destruct (Re.separator (String c s)). Qed.

Lemma has_separator_lstrip (s : string) :
  has_separator s = false → has_separator (Text.lstrip s) = false.
Proof.
  induction s as [|c s IH]; [done|]. intros H. cbn [Text.lstrip].
  destruct (Text.is_space c); [|exact H].
  by apply IH, (has_separator_tail c).
Qed.

Lemma lstrip_suffix (s : string) : ∃ u, s = u +:+ Text.lstrip s.
Proof.
  induction s as [|c s [u IH]]; [by exists EmptyString|].
  cbn [Text.lstrip]. destruct (Text.is_space c).
  - exists (String c u).
    change (String c u +:+ Text.lstrip s) with (String c (u +:+ Text.lstrip s)).
    by rewrite <- IH.
  - by exists EmptyString.
Qed.

Lemma rstrip_prefix (s : string) : ∃ t, s = Text.rstrip s +:+ t.
Proof.
  unfold Text.rstrip. destruct (lstrip_suffix (String.rev s)) as [u Hu].
  exists (String.rev u).
  rewrite <- rev_append, <- Hu. by rewrite rev_involutive.
Qed.

Lemma has_separator_strip (s : string) :
  has_separator s = false → has_separator (Text.strip s) = false.
Proof.
  intros H%has_separator_lstrip. unfold Text.strip.
  destruct (rstrip_prefix (Text.lstrip s)) as [t Ht].
  rewrite Ht in H. by apply has_separator_append in H.
Qed.

Lemma separator_free_before_piece (p s : string) :
  separator_free_before p s = true → has_separator p = false.
Proof.
  induction p as [|c p IH]; [done|]. cbn [separator_free_before has_separator].
  destruct (Re.separator (String c p +:+ s)) eqn:E; [done|].
  rewrite (separator_append _ _ E). exact IH.
Qed.

Lemma separator_free_before_snoc (p : string) (c : ascii) (s : string) :
  separator_free_before p (String c s) = true →
  Re.separator (String c s) = None →
  separator_free_before (p +:+ String c EmptyString) s = true.
Proof.
  intros Hp Hc. induction p as [|x p IH].
  - change (EmptyString +:+ String c EmptyString) with (String c EmptyString).
    cbn [separator_free_before].
    change (String c EmptyString +:+ s) with (String c s). by rewrite Hc.
  - change (String x p +:+ String c EmptyString)
      with (String x (p +:+ String c EmptyString)).
    cbn [separator_free_before] in *.
    change (String x (p +:+ String c EmptyString) +:+ s)
      with (String x ((p +:+ String c EmptyString) +:+ s)).
    rewrite append_assoc.
    change (String c EmptyString +:+ s) with (String c s).
    change (String x p +:+ String c s) with (String x (p +:+ String c s)) in Hp.
    destruct (Re.separator (String x (p +:+ String c s))); [done|].
    by apply IH.
Qed.

Lemma split_items_go_pieces (n : nat) (cur s : string) :
  separator_free_before (String.rev cur) s = true →
  Forall (λ piece, has_separator piece = false) (Re.split_items_go n cur s).
Proof.
  revert cur s. induction n as [|n IH]; intros cur s Hcur; simpl.
  - constructor; [|constructor]. by eapply separator_free_before_piece.
  - destruct (Re.separator s) as [s'|] eqn:E.
    + constructor; [by eapply separator_free_before_piece|]. by apply IH.
    + destruct s as [|c s].
      * constructor; [|constructor]. by eapply separator_free_before_piece.
      * apply IH. rewrite rev_cons. by apply separator_free_before_snoc.
Qed.

Lemma skill_items_clean (part : string) :
  Forall clean_item (skill_items part).
Proof.
  unfold skill_items. apply Forall_forall.
  intros item [Hne (piece & -> & Hp)%list_elem_of_fmap]%list_elem_of_filter.
  split; [exact Hne|]. apply has_separator_strip.
  pose proof (split_items_go_pieces (S (Text.len part)) EmptyString part
                eq_refl) as F.
  rewrite Forall_forall in F. by apply F.
Qed.

Lemma parse_line_clean (e : existing_skills) (text : string) :
  Forall clean_item (soft_skills e) → Forall clean_item (hard_skills e) →
  Forall clean_item (soft_skills (parse_line e text))
  ∧ Forall clean_item (hard_skills (parse_line e text)).
Proof.
  intros Hs Hh. unfold parse_line.
  repeat match goal with
         | |- context [if ?b then _ else _] => destruct b
         | |- context [match ?o with Some _ => _ | None => _ end] => destruct o
         end;
    cbn [add_soft add_hard soft_skills hard_skills];
    rewrite ?Forall_app; auto using skill_items_clean.
Qed.

Lemma parse_lines_clean (lines : list string) (e : existing_skills) :
  Forall clean_item (soft_skills e) ∧ Forall clean_item (hard_skills e) →
  Forall clean_item (soft_skills (foldl parse_line e lines))
  ∧ Forall clean_item (hard_skills (foldl parse_line e lines)).
Proof.
  revert e. induction lines as [|l lines IH]; intros e He; [exact He|].
  simpl. apply IH. destruct He. by apply parse_line_clean.
Qed.

(** X22: no skill read from the old section is empty, and none contains a
    bullet, a hyphen, an asterisk or a comma: a hyphenated name is read as
    two skills. *)
Theorem existing_skills_hold_no_separator (doc : document)
    (skills_start skills_end : nat) (existing : existing_skills) :
  extract_existing_skills doc skills_start skills_end = Some existing →
  Forall clean_item (soft_skills existing)
  ∧ Forall clean_item (hard_skills existing).
Proof.
  unfold extract_existing_skills.
  destruct (paragraphs_in doc (S skills_start) skills_end) as [ps|];
    [|discriminate].
  cbn [mbind option_bind]. intros [= <-].
  apply parse_lines_clean. split; constructor.
Qed.

(** ** [analyze] and [__post_init__] *)

Lemma is_heading_line_nonempty (line : string) :
  is_heading_line line = true → line ≠ EmptyString.
Proof.
  unfold is_heading_line. intros H ->. discriminate.
Qed.

Lemma title_and_company_with_title (t : string) (lines : list string) :
  t ≠ EmptyString →
  title_and_company t EmptyString lines
  = (t, default EmptyString
          (head (filter (λ line, line ≠ t)
                   (filter (λ line, is_heading_line line = true)
                      (Text.strip <$> lines))))).
Proof.
  intros Ht. induction lines as [|l lines IH]; [done|].
  cbn [title_and_company fmap list_fmap]. rewrite filter_cons.
  destruct (is_heading_line (Text.strip l)) eqn:E.
  - rewrite decide_True by done.
    assert (String.eqb t EmptyString = false) as -> by (by apply String.eqb_neq).
    change (String.eqb EmptyString EmptyString) with true. cbn [andb].
    rewrite filter_cons.
    destruct (String.eqb (Text.strip l) t) eqn:E2.
    + apply String.eqb_eq in E2. rewrite decide_False by (by intros ?).
      exact IH.
    + apply String.eqb_neq in E2. rewrite decide_True by done. done.
  - rewrite decide_False by congruence. exact IH.
Qed.

Lemma title_and_company_spec (lines : list string) :
  title_and_company EmptyString EmptyString lines
  = match filter (λ line, is_heading_line line = true) (Text.strip <$> lines)
    with
    | [] => (EmptyString, EmptyString)
    | t :: later =>
        (t, default EmptyString (head (filter (λ line, line ≠ t) later)))
    end.
Proof.
  induction lines as [|l lines IH]; [done|].
  cbn [title_and_company fmap list_fmap]. rewrite filter_cons.
  destruct (is_heading_line (Text.strip l)) eqn:E.
  - rewrite decide_True by done.
    change (String.eqb EmptyString EmptyString) with true. cbv iota.
    apply title_and_company_with_title. by apply is_heading_line_nonempty.
  - rewrite decide_False by congruence. exact IH.
Qed.

Lemma post_init_fields (set_iter : nat → gset string → list string)
    (job_req : JobRequirements) :
  job_title (post_init set_iter job_req) = job_title job_req
  ∧ company (post_init set_iter job_req) = company job_req
  ∧ required_skills (post_init set_iter job_req) = required_skills job_req
  ∧ preferred_skills (post_init set_iter job_req) = preferred_skills job_req
  ∧ responsibilities (post_init set_iter job_req) = responsibilities job_req.
Proof. unfold post_init. by destruct (_ && _). Qed.

(** X12: for a plain job description, the job title is the first of the
    first ten lines that, once stripped, has 6 to 99 characters and does
    not begin with "http" or "www"; the company is the first later such
    line that differs from the title; each is empty when there is no such
    line.  A company is never found without a title and never equals
    it. *)
Theorem analyzer_takes_title_and_company_from_the_first_ten_lines
    (set_iter : nat → gset string → list string)
    (extract_responsibilities : string → list string)
    (job_description : string) :
  Text.is_plain job_description = true →
  job_title (analyze set_iter extract_responsibilities job_description)
  = default EmptyString (head (heading_lines job_description))
  ∧ company (analyze set_iter extract_responsibilities job_description)
    = default EmptyString
        (head (filter
                 (λ line,
                    line ≠ job_title (analyze set_iter extract_responsibilities
                                        job_description))
                 (tail (heading_lines job_description))))
  ∧ (company (analyze set_iter extract_responsibilities job_description)
     ≠ EmptyString →
     job_title (analyze set_iter extract_responsibilities job_description)
     ≠ EmptyString
     ∧ company (analyze set_iter extract_responsibilities job_description)
       ≠ job_title (analyze set_iter extract_responsibilities
                      job_description)).
Proof.
  intros _. unfold analyze.
  destruct (title_and_company EmptyString EmptyString
              (take 10 (split_lines job_description))) as [t c] eqn:E.
  destruct (post_init_fields set_iter
              {| job_title := t; company := c;
                 required_skills :=
                   js_required (extract_skills_from_job set_iter job_description);
                 preferred_skills :=
                   js_preferred (extract_skills_from_job set_iter job_description);
                 all_skills :=
                   js_all (extract_skills_from_job set_iter job_description);
                 responsibilities := extract_responsibilities job_description |})
    as (-> & -> & _).
  cbn [job_title company].
  rewrite title_and_company_spec in E. fold (heading_lines job_description) in E.
  destruct (heading_lines job_description) as [|h later] eqn:Eh.
  - injection E as <- <-. done.
  - injection E as <- <-. cbn [head tail default].
    split; [done|]. split; [done|].
    assert (Hh : is_heading_line h = true).
    { assert (h ∈ heading_lines job_description) as Hin
        by (rewrite Eh; apply list_elem_of_here).
      by apply list_elem_of_filter in Hin as [? _]. }
    intros Hc. split; [by apply is_heading_line_nonempty|].
    destruct (filter (λ line, line ≠ h) later) as [|c' ?] eqn:Ef; [done|].
    cbn [head default] in *.
    assert (c' ∈ filter (λ line, line ≠ h) later) as Hin
      by (rewrite Ef; apply list_elem_of_here).
    by apply list_elem_of_filter in Hin as [? _].
Qed.

Lemma empty_job_has_no_skill_lists
    (set_iter : nat → gset string → list string) (text : string) :
  (∀ i X, set_iter i X ≡ₚ elements X) →
  js_all (extract_skills_from_job set_iter text) = [] →
  js_required (extract_skills_from_job set_iter text) = []
  ∧ js_preferred (extract_skills_from_job set_iter text) = [].
Proof.
  intros Hiter.
  destruct (categorized_then_split set_iter Hiter text)
    as (R & P & HR & HP & _ & _ & ->).
  set (all := extract_skills_from_text text) in *. clearbody all.
  intros Hall.
  assert (Hempty : ∀ x, x ∉ all).
  { intros x Hx. assert (x ∈ @nil string) as Hin; [|by apply elem_of_nil in Hin].
    match type of Hall with ?l = _ => assert (x ∈ l) as Hl end; [|congruence].
    destruct (_ && _); cbn [js_all];
      by rewrite elem_of_sorted, (elem_of_set_iter set_iter Hiter). }
  assert (R = []) as -> by (apply elem_of_nil_inv; intros x [?%Hempty _]%HR; done).
  assert (P = []) as -> by (apply elem_of_nil_inv; intros x [?%Hempty _]%HP; done).
  rewrite andb_false_intro2 by (apply bool_decide_eq_false; simpl; lia).
  done.
Qed.

(** X13: the requirements built by [analyze] hold the required and the
    preferred list of [extract_skills_from_job], the sorted extracted
    skills as the list of all skills, which [__post_init__] leaves as it
    is, and the responsibilities. *)
Theorem analyzer_records_the_skill_lists_unchanged
    (set_iter : nat → gset string → list string)
    (extract_responsibilities : string → list string)
    (job_description : string) :
  (∀ i X, set_iter i X ≡ₚ elements X) →
  required_skills (analyze set_iter extract_responsibilities job_description)
  = js_required (extract_skills_from_job set_iter job_description)
  ∧ preferred_skills (analyze set_iter extract_responsibilities job_description)
    = js_preferred (extract_skills_from_job set_iter job_description)
  ∧ all_skills (analyze set_iter extract_responsibilities job_description)
    = sorted_set (extract_skills_from_text job_description)
  ∧ responsibilities (analyze set_iter extract_responsibilities job_description)
    = extract_responsibilities job_description.
Proof.
  intros Hiter. unfold analyze.
  destruct (title_and_company _ _ _) as [t c].
  split; [apply post_init_fields|]. split; [apply post_init_fields|].
  split; [|apply post_init_fields].
  rewrite <- (js_all_sorted_set set_iter job_description Hiter).
  unfold post_init. cbn [all_skills required_skills preferred_skills].
  destruct (bool_decide (js_all _ = [])) eqn:E; [|done].
  apply bool_decide_eq_true in E.
  destruct (empty_job_has_no_skill_lists set_iter job_description Hiter E)
    as [-> ->].
  done.
Qed.

(** X14: [__post_init__] keeps a list of all skills that is not empty;
    an empty one becomes the required and the preferred skills together,
    each once. *)
Theorem post_init_fills_the_list_of_all_skills
    (set_iter : nat → gset string → list string) (job_req : JobRequirements) :
  (∀ i X, set_iter i X ≡ₚ elements X) →
  (all_skills job_req ≠ [] → post_init set_iter job_req = job_req)
  ∧ (all_skills job_req = [] →
     NoDup (all_skills (post_init set_iter job_req))
     ∧ ∀ skill, skill ∈ all_skills (post_init set_iter job_req)
                ↔ skill ∈ required_skills job_req ++ preferred_skills job_req).
Proof.
  intros Hiter. unfold post_init. split.
  - intros Hne. by rewrite bool_decide_eq_false_2.
  - intros He. rewrite bool_decide_eq_true_2 by done. cbn [andb].
    destruct (bool_decide (required_skills job_req = [])
              && bool_decide (preferred_skills job_req = [])) eqn:E.
    + apply andb_true_iff in E as [Er Ep].
      apply bool_decide_eq_true in Er, Ep. cbn [negb].
      rewrite He, Er, Ep. split; [constructor|done].
    + cbn [negb all_skills]. split; [by apply NoDup_set_iter|].
      intros skill.
      by rewrite (elem_of_set_iter set_iter Hiter), elem_of_list_to_set.
Qed.

Lemma existing_skills_hold_no_separator_witness :
  Forall clean_item (soft_skills example_hyphen_skills)
  ∧ Forall clean_item (hard_skills example_hyphen_skills).
Proof.
  apply (existing_skills_hold_no_separator example_hyphen_body 0 2
           example_hyphen_skills).
  vm_compute. reflexivity.
Defined.

Lemma pdf_text_is_kept_up_to_the_first_unreadable_page_witness :
  extract_text_from_pdf "cv.pdf" example_pdf_files
  = (EvOpen "cv.pdf"
       :: (if all_readable [ Some "Jane Doe"; Some "Python, SQL"; None;
                             Some "Docker" ]
           then []
           else [EvPrint "Error reading PDF: " (ReadError "cv.pdf")]),
     Return (lines_text
               (readable_prefix [ Some "Jane Doe"; Some "Python, SQL"; None;
                                  Some "Docker" ]))).
Proof.
  apply (pdf_text_is_kept_up_to_the_first_unreadable_page
           example_pdf_files "cv.pdf").
  reflexivity.
Defined.

Lemma parsed_profile_lists_vocabulary_terms_in_order_witness :
  original_file_path example_pdf_profile = "cv.pdf"
  ∧ personal_info example_pdf_profile
    = no_personal_info (raw_text example_pdf_profile)
  ∧ ∃ technical,
      skills example_pdf_profile = [ ("technical", technical) ]
      ∧ StronglySorted String.le technical
      ∧ NoDup technical
      ∧ ∀ skill, skill ∈ technical → skill ∈ technical_skills.
Proof.
  apply (parsed_profile_lists_vocabulary_terms_in_order no_personal_info
           example_pdf_files "cv.pdf"
           [EvOpen "cv.pdf"; EvPrint "Error reading PDF: " (ReadError "cv.pdf")]).
  vm_compute. reflexivity.
Defined.

Lemma analyzer_records_the_skill_lists_unchanged_witness :
  required_skills (analyze (λ _, elements) (λ _, []) labelled_posting)
  = js_required (extract_skills_from_job (λ _, elements) labelled_posting)
  ∧ preferred_skills (analyze (λ _, elements) (λ _, []) labelled_posting)
    = js_preferred (extract_skills_from_job (λ _, elements) labelled_posting)
  ∧ all_skills (analyze (λ _, elements) (λ _, []) labelled_posting)
    = sorted_set (extract_skills_from_text labelled_posting)
  ∧ responsibilities (analyze (λ _, elements) (λ _, []) labelled_posting)
    = (λ _, []) labelled_posting.
Proof.
  apply (analyzer_records_the_skill_lists_unchanged
           (λ _, elements) (λ _, []) labelled_posting).
  intros i X. reflexivity.
Defined.

Lemma post_init_fills_the_list_of_all_skills_witness :
  (all_skills example_partial_job ≠ [] →
   post_init (λ _, elements) example_partial_job = example_partial_job)
  ∧ (all_skills example_partial_job = [] →
     NoDup (all_skills (post_init (λ _, elements) example_partial_job))
     ∧ ∀ skill,
         skill ∈ all_skills (post_init (λ _, elements) example_partial_job)
         ↔ skill ∈ required_skills example_partial_job
                   ++ preferred_skills example_partial_job).
Proof.
  apply (post_init_fills_the_list_of_all_skills
           (λ _, elements) example_partial_job).
  intros i X. reflexivity.
Defined.

(** ** The letter *)

Lemma contains_append_l (lit a b : string) :
  Text.contains lit a = true → Text.contains lit (a +:+ b) = true.
Proof.
  induction a as [|c a IH].
  - simpl. rewrite orb_false_r. intros H.
    change (EmptyString +:+ b) with b. destruct lit; [|discriminate H].
    destruct b; reflexivity.
  - change (String c a +:+ b) with (String c (a +:+ b)). simpl.
    intros [H|H]%orb_true_iff.
    + apply (prefix_append lit (String c a) b) in H.
      change (String c a +:+ b) with (String c (a +:+ b)) in H.
      simpl in H. by rewrite H.
    + rewrite (IH H). apply orb_true_r.
Qed.

Lemma contains_append_r (lit a b : string) :
  Text.contains lit b = true → Text.contains lit (a +:+ b) = true.
Proof.
  intros H. induction a as [|c a IH]; [exact H|].
  change (String c a +:+ b) with (String c (a +:+ b)). simpl.
  rewrite IH. apply orb_true_r.
Qed.

Lemma concat_cons (x : string) (l : list string) :
  String.concat EmptyString (x :: l) = x +:+ String.concat EmptyString l.
Proof.
  destruct l as [|y l]; [by rewrite append_empty_r|reflexivity].
Qed.

Lemma contains_concat (lit piece : string) (pieces : list string) :
  piece ∈ pieces → Text.contains lit piece = true →
  Text.contains lit (String.concat EmptyString pieces) = true.
Proof.
  intros Hin Hc. induction Hin as [x l|x y l Hin IH]; rewrite concat_cons.
  - by apply contains_append_l.
  - by apply contains_append_r, IH.
Qed.

(** X23: every letter holds the text "{company_name}" as it stands: the
    sentence that thanks for the company's success is no format string,
    so the name of the company is not filled in. *)
Theorem letter_always_holds_an_unfilled_placeholder
    (current_date candidate_name candidate_email candidate_phone
       candidate_address job_title company_name : string)
    (matched_skills responsibilities : list string)
    (candidate_education portfolio_url github_url : string) :
  Text.contains "{company_name}"
    (generate current_date candidate_name candidate_email candidate_phone
       candidate_address job_title company_name matched_skills
       responsibilities candidate_education portfolio_url github_url)
  = true.
Proof.
  unfold generate.
  apply (contains_concat _
           "and help drive {company_name}'s success through dedication, technical skill, and innovative thinking.");
    [|by vm_compute].
  unfold letter_pieces.
  do 24 (apply elem_of_app; right). apply elem_of_app; left.
  apply list_elem_of_further, list_elem_of_here.
Qed.

Lemma skills_in_without (category pre post : list string) (skill : string) :
  Text.lower skill ∉ category →
  skills_in category (pre ++ skill :: post) = skills_in category (pre ++ post).
Proof.
  intros H. unfold skills_in.
  by rewrite !filter_app, filter_cons_False.
Qed.

(** X24: a matched skill that is in none of the five lists of the
    generator (languages, frameworks, data tools, cloud tools, machine
    learning) changes nothing in the letter, as long as another skill is
    matched. *)
Theorem letter_ignores_skills_outside_its_categories
    (current_date candidate_name candidate_email candidate_phone
       candidate_address job_title company_name : string)
    (earlier later responsibilities : list string) (skill : string)
    (candidate_education portfolio_url github_url : string) :
  Text.lower skill
  ∉ programming_terms ++ framework_terms ++ data_terms ++ cloud_terms
    ++ ml_terms →
  earlier ++ later ≠ [] →
  generate current_date candidate_name candidate_email candidate_phone
    candidate_address job_title company_name (earlier ++ skill :: later)
    responsibilities candidate_education portfolio_url github_url
  = generate current_date candidate_name candidate_email candidate_phone
      candidate_address job_title company_name (earlier ++ later)
      responsibilities candidate_education portfolio_url github_url.
Proof.
  intros Hout Hne. rewrite !not_elem_of_app in Hout.
  destruct Hout as (H1 & H2 & H3 & H4 & H5).
  unfold generate, letter_pieces.
  rewrite !(skills_in_without _ earlier later skill) by assumption.
  assert (nonempty (earlier ++ skill :: later) = nonempty (earlier ++ later))
    as ->; [|reflexivity].
  destruct earlier; [destruct later|]; done.
Qed.

Lemma letter_ignores_skills_outside_its_categories_witness :
  generate "January 05, 2026" "Jane Doe" "jane@example.org" EmptyString
    EmptyString "Engineer" "Acme" (["python"] ++ "redis" :: ["docker"])
    [] EmptyString EmptyString EmptyString
  = generate "January 05, 2026" "Jane Doe" "jane@example.org" EmptyString
      EmptyString "Engineer" "Acme" (["python"] ++ ["docker"])
      [] EmptyString EmptyString EmptyString.
Proof.
  apply (letter_ignores_skills_outside_its_categories
           "January 05, 2026" "Jane Doe" "jane@example.org" EmptyString
           EmptyString "Engineer" "Acme" ["python"] ["docker"] [] "redis"
           EmptyString EmptyString EmptyString).
  - apply (bool_decide_unpack
             (Text.lower "redis"
              ∉ programming_terms ++ framework_terms ++ data_terms
                ++ cloud_terms ++ ml_terms)).
    vm_compute. exact I.
  - discriminate.
Defined.

(** ** The matcher is sound *)

Import Regex.

(** Whatever the matcher returns, it returns from its continuation, at a
    state the pattern leads to. *)
Lemma exec_sound (r : regex) :
  ∀ (R : Type) (ci : bool) (prev : option ascii) (s : string)
    (cap : option string)
    (k : option ascii → string → option string → option R) (x : R),
    exec r ci prev s cap k = Some x →
    ∃ prev' s' cap',
      matches ci r (prev, s, cap) (prev', s', cap')
      ∧ k prev' s' cap' = Some x.
Proof.
  induction r as [|p|lit|lit|r1 IH1 r2 IH2|r1 IH1 r2 IH2|r1 IH1|r1 IH1
                 | | |r1 IH1|r1 IH1];
    intros R ci prev s cap k x H; cbn [exec] in H.
  - by exists prev, s, cap.
  - destruct s as [|c s']; [done|].
    destruct (in_class ci p c) eqn:E; [|done].
    exists (Some c), s', cap. split; [|done]. by exists c, s'.
  - destruct (at_literal ci lit s) eqn:E; [|done].
    eexists _, _, _. split; [|exact H]. done.
  - destruct (String.prefix lit s) eqn:E; [done|].
    by exists prev, s, cap.
  - apply IH1 in H as (p1 & s1 & c1 & M1 & H).
    apply IH2 in H as (p2 & s2 & c2 & M2 & H).
    exists p2, s2, c2. split; [|done]. by exists (p1, s1, c1).
  - destruct (exec r1 ci prev s cap k) as [y|] eqn:E.
    + injection H as ->. apply IH1 in E as (p1 & s1 & c1 & M1 & E).
      exists p1, s1, c1. split; [by left|done].
    + apply IH2 in H as (p1 & s1 & c1 & M1 & H).
      exists p1, s1, c1. split; [by right|done].
  - revert H. generalize (Text.len s) at 1 as n. intros n.
    revert prev s cap. induction n as [|n IHn]; intros prev s cap H.
    + exists prev, s, cap. split; [apply rtc_refl|exact H].
    + match type of H with
      | match ?e with _ => _ end = _ => destruct e as [y|] eqn:E
      end.
      * injection H as ->. apply IH1 in E as (p1 & s1 & c1 & M1 & E).
        destruct (Text.len s1 <? Text.len s); [|done].
        apply IHn in E as (p2 & s2 & c2 & M2 & E).
        exists p2, s2, c2. split; [|done]. by eapply rtc_l.
      * exists prev, s, cap. split; [apply rtc_refl|exact H].
  - revert H. generalize (Text.len s) at 1 as n. intros n.
    revert prev s cap. induction n as [|n IHn]; intros prev s cap H.
    + destruct (k prev s cap) as [y|] eqn:E; [|done].
      injection H as ->. exists prev, s, cap. split; [apply rtc_refl|done].
    + destruct (k prev s cap) as [y|] eqn:E.
      * injection H as ->. exists prev, s, cap. split; [apply rtc_refl|done].
      * apply IH1 in H as (p1 & s1 & c1 & M1 & H).
        destruct (Text.len s1 <? Text.len s); [|done].
        apply IHn in H as (p2 & s2 & c2 & M2 & H).
        exists p2, s2, c2. split; [|done]. by eapply rtc_l.
  - destruct (Re.boundary prev (Text.head s)) eqn:E; [|done].
    by exists prev, s, cap.
  - destruct (Re.at_dollar s) eqn:E; [|done]. by exists prev, s, cap.
  - destruct (exec r1 ci prev s cap (λ _ _ _, Some ())) as [[]|] eqn:E;
      [|done].
    apply IH1 in E as (p1 & s1 & c1 & M1 & _).
    exists prev, s, cap. split; [|done]. split; [|done]. by eexists.
  - apply IH1 in H as (p1 & s1 & c1 & M1 & H).
    eexists _, _, _. split; [|exact H]. by exists (p1, s1, c1).
Qed.

Import Regex RegexBounds.

(** ** What a pattern consumes *)

(** *** Texts *)

Lemma len_append (a b : string) :
  Text.len (a +:+ b) = Text.len a + Text.len b.
Proof.
  induction a as [|c a IH]; [done|].
  change (String c a +:+ b) with (String c (a +:+ b)).
  unfold Text.len in *. simpl. by rewrite IH.
Qed.

Lemma take_chars_append (a b : string) :
  take_chars (Text.len a) (a +:+ b) = a.
Proof.
  induction a as [|c a IH]; [by destruct b|].
  change (String c a +:+ b) with (String c (a +:+ b)).
  unfold Text.len in *. simpl. by rewrite IH.
Qed.

Lemma take_drop_chars (n : nat) (s : string) :
  s = take_chars n s +:+ Text.drop_chars n s.
Proof.
  revert s. induction n as [|n IH]; intros [|c s]; try done.
  simpl. change (String c (take_chars n s) +:+ Text.drop_chars n s)
    with (String c (take_chars n s +:+ Text.drop_chars n s)).
  by rewrite <- IH.
Qed.

Lemma consumed_append (w s' : string) : consumed (w +:+ s') s' = w.
Proof.
  unfold consumed. rewrite len_append.
  replace (Text.len w + Text.len s' - Text.len s') with (Text.len w) by lia.
  apply take_chars_append.
Qed.

Lemma append_inj_r (w1 w2 s : string) : w1 +:+ s = w2 +:+ s → w1 = w2.
Proof.
  intros H. rewrite <- (consumed_append w1 s), <- (consumed_append w2 s).
  by rewrite H.
Qed.

Lemma count_chars_append (q : ascii → bool) (a b : string) :
  count_chars q (a +:+ b) = count_chars q a + count_chars q b.
Proof.
  induction a as [|c a IH]; [done|].
  change (String c a +:+ b) with (String c (a +:+ b)).
  simpl. rewrite IH. lia.
Qed.

Lemma lower_append (a b : string) :
  Text.lower (a +:+ b) = Text.lower a +:+ Text.lower b.
Proof.
  unfold Text.lower. induction a as [|c a IH]; [done|].
  change (String c a +:+ b) with (String c (a +:+ b)).
  cbn [Text.map_chars]. by rewrite IH.
Qed.

(** *** Classes *)

Lemma elem_of_all_ascii (c : ascii) : c ∈ all_ascii.
Proof.
  unfold all_ascii. apply list_elem_of_fmap.
  exists (nat_of_ascii c). split; [by rewrite ascii_nat_embedding|].
  apply elem_of_seq. pose proof (nat_ascii_bounded c). lia.
Qed.

Lemma class_subset_spec (p q : ascii → bool) (c : ascii) :
  class_subset p q = true → p c = true → q c = true.
Proof.
  unfold class_subset. rewrite forallb_forall. intros H Hp.
  specialize (H c (proj1 (list_elem_of_In _ _) (elem_of_all_ascii c))).
  by rewrite Hp in H.
Qed.

Lemma class_disjoint_spec (p q : ascii → bool) (c : ascii) :
  class_disjoint p q = true → p c = true → q c = false.
Proof.
  unfold class_disjoint. rewrite forallb_forall. intros H Hp.
  specialize (H c (proj1 (list_elem_of_In _ _) (elem_of_all_ascii c))).
  rewrite Hp in H. by destruct (q c).
Qed.

(** *** Bounds *)

Lemma literal_bounds (ci : bool) (q : ascii → bool) (lit s : string) :
  at_literal ci lit s = true →
  lit_lo ci q lit ≤ count_chars q (take_chars (Text.len lit) s)
  ∧ count_chars q (take_chars (Text.len lit) s) ≤ lit_hi ci q lit.
Proof.
  revert s. induction lit as [|d lit IH]; intros s H.
  - simpl. destruct s; simpl; lia.
  - destruct s as [|c s].
    { unfold at_literal in H. destruct ci; simpl in H; discriminate. }
    assert (Hc : stands_for ci d c = true ∧ at_literal ci lit s = true).
    { unfold at_literal, stands_for in *. destruct ci.
      - unfold Text.lower in H. cbn [Text.map_chars] in H. simpl in H.
        destruct (ascii_dec (Text.lower_char d) (Text.lower_char c))
          as [->|]; [|discriminate].
        split; [apply Ascii.eqb_refl|exact H].
      - simpl in H. destruct (ascii_dec d c) as [->|]; [|discriminate].
        split; [apply Ascii.eqb_refl|exact H]. }
    destruct Hc as [Hd Hs]. specialize (IH s Hs).
    change (Text.len (String d lit)) with (S (Text.len lit)).
    cbn [take_chars count_chars lit_lo lit_hi].
    destruct (class_subset (stands_for ci d) q) eqn:E1.
    + rewrite (class_subset_spec _ _ c E1 Hd).
      destruct (class_disjoint (stands_for ci d) q) eqn:E2; [|lia].
      pose proof (class_disjoint_spec _ _ c E2 Hd) as F.
      rewrite (class_subset_spec _ _ c E1 Hd) in F. discriminate.
    + destruct (class_disjoint (stands_for ci d) q) eqn:E2.
      * rewrite (class_disjoint_spec _ _ c E2 Hd). lia.
      * destruct (q c); lia.
Qed.

(** A pattern consumes a text that begins where it starts, and the number
    of characters of a class in that text is within the bounds of the
    pattern. *)
Lemma matches_consumes (ci : bool) (q : ascii → bool) (r : regex) :
  ∀ a b : state,
    matches ci r a b →
    ∃ w, a.1.2 = w +:+ b.1.2
         ∧ lo ci q r ≤ count_chars q w
         ∧ ∀ h, hi ci q r = Some h → count_chars q w ≤ h.
Proof.
  induction r as [|p|lit|lit|r1 IH1 r2 IH2|r1 IH1 r2 IH2|r1 IH1|r1 IH1
                 | | |r1 IH1|r1 IH1];
    intros a b M; cbn [matches] in M.
  - subst b. exists EmptyString. repeat split; simpl; intros; lia.
  - destruct M as (c & s' & Ha & Hc & ->). exists (String c EmptyString).
    split; [exact Ha|]. cbn [lo hi count_chars].
    destruct (class_subset (in_class ci p) q) eqn:E1.
    + rewrite (class_subset_spec _ _ c E1 Hc). split; [lia|].
      intros h [= <-].
      destruct (class_disjoint (in_class ci p) q) eqn:E2; [|lia].
      pose proof (class_disjoint_spec _ _ c E2 Hc) as F.
      rewrite (class_subset_spec _ _ c E1 Hc) in F. discriminate.
    + split; [lia|]. intros h [= <-].
      destruct (class_disjoint (in_class ci p) q) eqn:E2.
      * rewrite (class_disjoint_spec _ _ c E2 Hc). lia.
      * destruct (q c); lia.
  - destruct M as [Hl ->]. exists (take_chars (Text.len lit) a.1.2).
    split; [apply take_drop_chars|].
    destruct (literal_bounds ci q lit _ Hl) as [L H].
    split; [exact L|]. by intros h [= <-].
  - destruct M as [_ ->]. exists EmptyString.
    repeat split; simpl; intros; lia.
  - destruct M as (m & M1 & M2).
    destruct (IH1 _ _ M1) as (w1 & E1 & L1 & H1).
    destruct (IH2 _ _ M2) as (w2 & E2 & L2 & H2).
    exists (w1 +:+ w2). split; [by rewrite E1, E2, append_assoc|].
    rewrite count_chars_append. cbn [lo hi]. split; [lia|].
    intros h. destruct (hi ci q r1) as [h1|]; [|done].
    destruct (hi ci q r2) as [h2|]; [|done]. intros [= <-].
    specialize (H1 _ eq_refl). specialize (H2 _ eq_refl). lia.
  - cbn [lo hi]. destruct M as [M|M].
    + destruct (IH1 _ _ M) as (w & E & L & H). exists w.
      split; [exact E|]. split; [lia|].
      intros h. destruct (hi ci q r1) as [h1|]; [|done].
      destruct (hi ci q r2) as [h2|]; [|done]. intros [= <-].
      specialize (H _ eq_refl). lia.
    + destruct (IH2 _ _ M) as (w & E & L & H). exists w.
      split; [exact E|]. split; [lia|].
      intros h. destruct (hi ci q r1) as [h1|]; [|done].
      destruct (hi ci q r2) as [h2|]; [|done]. intros [= <-].
      specialize (H _ eq_refl). lia.
  - cbn [lo hi]. induction M as [a|a m b M1 _ IH].
    + exists EmptyString. repeat split; simpl; intros; lia.
    + destruct (IH1 _ _ M1) as (w1 & E1 & _ & H1).
      destruct IH as (w2 & E2 & _ & H2).
      exists (w1 +:+ w2). split; [by rewrite E1, E2, append_assoc|].
      split; [lia|]. rewrite count_chars_append.
      intros h Hh. destruct (hi ci q r1) as [[|h1]|]; [|done..].
      injection Hh as <-. specialize (H1 _ eq_refl).
      specialize (H2 _ eq_refl). lia.
  - cbn [lo hi]. induction M as [a|a m b M1 _ IH].
    + exists EmptyString. repeat split; simpl; intros; lia.
    + destruct (IH1 _ _ M1) as (w1 & E1 & _ & H1).
      destruct IH as (w2 & E2 & _ & H2).
      exists (w1 +:+ w2). split; [by rewrite E1, E2, append_assoc|].
      split; [lia|]. rewrite count_chars_append.
      intros h Hh. destruct (hi ci q r1) as [[|h1]|]; [|done..].
      injection Hh as <-. specialize (H1 _ eq_refl).
      specialize (H2 _ eq_refl). lia.
  - destruct M as [_ ->]. exists EmptyString.
    repeat split; simpl; intros; lia.
  - destruct M as [_ ->]. exists EmptyString.
    repeat split; simpl; intros; lia.
  - destruct M as [_ ->]. exists EmptyString.
    repeat split; simpl; intros; lia.
  - destruct M as (m & M1 & ->). cbn [lo hi].
    destruct (IH1 _ _ M1) as (w & E & B). exists w. split; [exact E|exact B].
Qed.

Lemma match_at_sound (r : regex) (ci : bool) (prev : option ascii)
    (s : string) (f : found) :
  match_at r ci prev s = Some f →
  ∃ prev' s' cap',
    matches ci r (prev, s, None) (prev', s', cap')
    ∧ f = {| group0 := consumed s s'; group1 := cap'; after := s';
             before_after := prev' |}.
Proof.
  unfold match_at. intros (p' & s' & c' & M & [= <-])%exec_sound.
  by exists p', s', c'.
Qed.

Lemma search_from_sound (r : regex) (ci : bool) (prev : option ascii)
    (s : string) (f : found) :
  search_from r ci prev s = Some f →
  ∃ pre prev0 s0, s = pre +:+ s0 ∧ match_at r ci prev0 s0 = Some f.
Proof.
  revert prev. induction s as [|c s IH]; intros prev; simpl.
  - destruct (match_at r ci prev EmptyString) as [g|] eqn:E; [|done].
    intros [= <-]. by exists EmptyString, prev, EmptyString.
  - destruct (match_at r ci prev (String c s)) as [g|] eqn:E.
    + intros [= <-]. by exists EmptyString, prev, (String c s).
    + intros (pre & prev0 & s0 & -> & H)%IH.
      by exists (String c pre), prev0, s0.
Qed.

(** The text of a match is a piece of the text searched, and the number of
    its characters in a class is within the bounds of the pattern. *)
Lemma search_bounds (r : regex) (ci : bool) (text : string) (f : found) :
  search r ci text = Some f →
  piece_of (group0 f) text
  ∧ ∀ q, lo ci q r ≤ count_chars q (group0 f)
         ∧ ∀ h, hi ci q r = Some h → count_chars q (group0 f) ≤ h.
Proof.
  intros (pre & prev0 & s0 & -> & H)%search_from_sound.
  apply match_at_sound in H as (p' & s' & c' & M & ->). cbn [group0].
  destruct (matches_consumes ci (λ _, true) r _ _ M) as (w & E & _).
  cbn in E. subst s0. rewrite consumed_append. split.
  - by exists pre, s'.
  - intros q. destruct (matches_consumes ci q r _ _ M) as (w' & E' & B).
    cbn in E'. apply append_inj_r in E'. by subst w'.
Qed.

(** ** The contact fields *)

Lemma count_all_chars (s : string) : count_chars (λ _, true) s = Text.len s.
Proof. induction s as [|c s IH]; [done|]. unfold Text.len in *. simpl. lia. Qed.

Lemma count_chars_piece (q : ascii → bool) (s text : string) :
  piece_of s text → count_chars q s ≤ count_chars q text.
Proof. intros (pre & post & ->). rewrite !count_chars_append. lia. Qed.

Lemma group0_or_empty_search (r : regex) (ci : bool) (text : string) :
  group0_or_empty (search r ci text) = EmptyString
  ∨ ∃ f, search r ci text = Some f
         ∧ group0_or_empty (search r ci text) = group0 f.
Proof. destruct (search r ci text) as [f|]; [right|left]; eauto. Qed.

(** X25: an e-mail address found is a piece of the text with exactly one
    "@", at least six characters, and only letters, digits and the
    characters . _ % + - | besides; a text without "@" has none. *)
Theorem email_found_has_one_at_sign (text : string) :
  (email (extract_personal_info text) = EmptyString
   ∨ piece_of (email (extract_personal_info text)) text
     ∧ count_chars (one_of "@") (email (extract_personal_info text)) = 1
     ∧ count_chars (λ c, negb (is_email_char c))
         (email (extract_personal_info text)) = 0
     ∧ 6 ≤ Text.len (email (extract_personal_info text)))
  ∧ (count_chars (one_of "@") text = 0 →
     email (extract_personal_info text) = EmptyString).
Proof.
  cbn [extract_personal_info email].
  assert (H : group0_or_empty (search email_pattern false text) = EmptyString
              ∨ piece_of (group0_or_empty (search email_pattern false text)) text
                ∧ count_chars (one_of "@")
                    (group0_or_empty (search email_pattern false text)) = 1
                ∧ count_chars (λ c, negb (is_email_char c))
                    (group0_or_empty (search email_pattern false text)) = 0
                ∧ 6 ≤ Text.len (group0_or_empty
                                  (search email_pattern false text))).
  { destruct (group0_or_empty_search email_pattern false text)
      as [?|(f & Hf & ->)]; [by left|right].
    destruct (search_bounds _ _ _ _ Hf) as [Hp Hb]. split; [exact Hp|].
    destruct (Hb (one_of "@")) as [L1 H1].
    destruct (Hb (λ c, negb (is_email_char c))) as [_ H2].
    destruct (Hb (λ _, true)) as [L3 _]. rewrite count_all_chars in L3.
    specialize (H1 1 ltac:(by vm_compute)).
    specialize (H2 0 ltac:(by vm_compute)).
    assert (lo false (one_of "@") email_pattern = 1) as E1 by (by vm_compute).
    assert (lo false (λ _, true) email_pattern = 6) as E3 by (by vm_compute).
    rewrite E1 in L1. rewrite E3 in L3. lia. }
  split; [exact H|].
  intros Hno. destruct H as [?|(Hp & H1 & _)]; [done|].
  pose proof (count_chars_piece (one_of "@") _ _ Hp). lia.
Qed.

(** X26: a telephone number found in a plain text is a piece of the text
    of at most 19 characters with 10 to 13 digits, and only the characters
    + ( ) - . and blanks besides. *)
Theorem phone_found_has_ten_to_thirteen_digits (text : string) :
  Text.is_plain text = true →
  phone (extract_personal_info text) = EmptyString
  ∨ piece_of (phone (extract_personal_info text)) text
    ∧ 10 ≤ count_chars Text.is_digit (phone (extract_personal_info text)) ≤ 13
    ∧ count_chars (λ c, negb (is_phone_char c))
        (phone (extract_personal_info text)) = 0
    ∧ Text.len (phone (extract_personal_info text)) ≤ 19.
Proof.
  intros _. cbn [extract_personal_info phone].
  destruct (group0_or_empty_search phone_pattern false text)
    as [?|(f & Hf & ->)]; [by left|right].
  destruct (search_bounds _ _ _ _ Hf) as [Hp Hb]. split; [exact Hp|].
  destruct (Hb Text.is_digit) as [L1 H1].
  destruct (Hb (λ c, negb (is_phone_char c))) as [_ H2].
  destruct (Hb (λ _, true)) as [_ H3]. rewrite count_all_chars in H3.
  specialize (H1 13 ltac:(by vm_compute)).
  specialize (H2 0 ltac:(by vm_compute)).
  specialize (H3 19 ltac:(by vm_compute)).
  assert (lo false Text.is_digit phone_pattern = 10) as E1 by (by vm_compute).
  rewrite E1 in L1. lia.
Qed.

Lemma lower_take_literal (lit s : string) :
  at_literal true lit s = true →
  Text.lower (take_chars (Text.len lit) s) = Text.lower lit.
Proof.
  unfold at_literal. revert s. induction lit as [|d lit IH]; intros s H.
  - by destruct s.
  - destruct s as [|c s]; [discriminate H|].
    unfold Text.lower in *. cbn [Text.map_chars] in *. simpl in H.
    destruct (ascii_dec (Text.lower_char d) (Text.lower_char c)) as [E|];
      [|discriminate].
    change (Text.len (String d lit)) with (S (Text.len lit)).
    cbn [take_chars Text.map_chars]. by rewrite (IH s H), E.
Qed.

(** The text of a match of a literal followed by a run of a class, under
    [re.IGNORECASE]. *)
Lemma profile_address_shape (lit : string) (p : ascii → bool)
    (text : string) (f : found) :
  search (Seq (Str lit) (Plus (Chr p))) true text = Some f →
  piece_of (group0 f) text
  ∧ ∃ head slug,
      group0 f = head +:+ slug
      ∧ Text.lower head = Text.lower lit
      ∧ slug ≠ EmptyString
      ∧ count_chars (λ c, negb (in_class true p c)) slug = 0.
Proof.
  intros H. split; [by apply search_bounds in H as [? _]|].
  apply search_from_sound in H as (pre & prev0 & s0 & -> & H).
  apply match_at_sound in H as (p' & s' & c' & M & ->). cbn [group0].
  cbn [matches] in M. destruct M as (m & [Hl ->] & M2).
  cbn [fst snd] in *.
  destruct (matches_consumes true (λ c, negb (in_class true p c))
              (Plus (Chr p)) _ _ M2) as (slug & E & _ & B).
  destruct (matches_consumes true (λ _, true) (Plus (Chr p)) _ _ M2)
    as (slug' & E' & L & _).
  cbn [fst snd] in E, E'. rewrite E in E'. apply append_inj_r in E'.
  subst slug'. rewrite count_all_chars in L.
  exists (take_chars (Text.len lit) s0), slug.
  assert (Es : s0 = (take_chars (Text.len lit) s0 +:+ slug) +:+ s').
  { rewrite append_assoc, <- E. apply take_drop_chars. }
  split; [by rewrite Es at 1; rewrite consumed_append|].
  split; [by apply lower_take_literal|]. split.
  - intros ->. cbn [lo Plus] in L.
    assert (class_subset (in_class true p) (λ _, true) = true) as Hs.
    { unfold class_subset. apply forallb_forall. intros c _.
      by destruct (in_class true p c). }
    rewrite Hs in L. simpl in L. lia.
  - assert (hi true (λ c, negb (in_class true p c)) (Plus (Chr p)) = Some 0)
      as Hh.
    { cbn [hi Plus].
      assert (class_disjoint (in_class true p)
                (λ c, negb (in_class true p c)) = true) as ->; [|done].
      unfold class_disjoint. apply forallb_forall. intros c _.
      by destruct (in_class true p c). }
    specialize (B 0 Hh). lia.
Qed.

Lemma in_class_word_or_hyphen (c : ascii) :
  in_class true is_word_or_hyphen c = is_word_or_hyphen c.
Proof. destruct c as [[] [] [] [] [] [] [] []]; reflexivity. Qed.

Lemma count_chars_ext (p q : ascii → bool) (s : string) :
  (∀ c, p c = q c) → count_chars p s = count_chars q s.
Proof. intros H. induction s as [|c s IH]; [done|]. simpl. by rewrite H, IH. Qed.

(** X27: a LinkedIn address found in a plain text is a piece of the text
    that reads, in lower case, "linkedin.com/in/" and then at least one
    word character or hyphen; a GitHub address likewise after
    "github.com/". *)
Theorem profile_addresses_found_have_a_name_part (text : string) :
  Text.is_plain text = true →
  (linkedin (extract_personal_info text) = EmptyString
   ∨ piece_of (linkedin (extract_personal_info text)) text
     ∧ ∃ head slug,
         linkedin (extract_personal_info text) = head +:+ slug
         ∧ Text.lower head = "linkedin.com/in/"
         ∧ slug ≠ EmptyString
         ∧ count_chars (λ c, negb (is_word_or_hyphen c)) slug = 0)
  ∧ (github (extract_personal_info text) = EmptyString
     ∨ piece_of (github (extract_personal_info text)) text
       ∧ ∃ head slug,
           github (extract_personal_info text) = head +:+ slug
           ∧ Text.lower head = "github.com/"
           ∧ slug ≠ EmptyString
           ∧ count_chars (λ c, negb (is_word_or_hyphen c)) slug = 0).
Proof.
  intros _. cbn [extract_personal_info linkedin github]. split.
  - destruct (group0_or_empty_search linkedin_pattern true text)
      as [?|(f & Hf & ->)]; [by left|right].
    destruct (profile_address_shape _ _ _ _ Hf)
      as (Hp & head & slug & E & Hh & Hs & Hc).
    split; [exact Hp|]. exists head, slug.
    split; [exact E|]. split; [exact Hh|]. split; [exact Hs|].
    rewrite <- Hc. apply count_chars_ext. intros c.
    by rewrite in_class_word_or_hyphen.
  - destruct (group0_or_empty_search github_pattern true text)
      as [?|(f & Hf & ->)]; [by left|right].
    destruct (profile_address_shape _ _ _ _ Hf)
      as (Hp & head & slug & E & Hh & Hs & Hc).
    split; [exact Hp|]. exists head, slug.
    split; [exact E|]. split; [exact Hh|]. split; [exact Hs|].
    rewrite <- Hc. apply count_chars_ext. intros c.
    by rewrite in_class_word_or_hyphen.
Qed.

Lemma search_class_none (p : ascii → bool) (prev : option ascii) (s : string) :
  search_from (Chr p) false prev s = None → count_chars p s = 0.
Proof.
  revert prev. induction s as [|c s IH]; intros prev; [done|].
  simpl. unfold match_at. cbn [exec]. unfold in_class.
  rewrite orb_false_r. destruct (p c); [done|]. apply IH.
Qed.

Lemma name_loop_spec (lines : list string) :
  name_loop lines = EmptyString
  ∨ (∃ line, line ∈ lines ∧ name_loop lines = Text.strip line)
    ∧ is_name_line (name_loop lines) = true.
Proof.
  induction lines as [|l lines IH]; [by left|].
  cbn [name_loop]. destruct (is_name_line (Text.strip l)) eqn:E.
  - right. split; [|exact E]. exists l. split; [apply list_elem_of_here|done].
  - destruct IH as [?|[(line & Hin & Hl) Hn]]; [by left|right].
    split; [|exact Hn]. exists line. split; [|exact Hl].
    by apply list_elem_of_further.
Qed.

(** X28: a name found in a plain text is one of the first five lines,
    stripped; it has 4 to 49 characters and holds neither "@" nor a
    digit. *)
Theorem name_found_is_a_short_line_without_digits (text : string) :
  Text.is_plain text = true →
  name (extract_personal_info text) = EmptyString
  ∨ (∃ line, line ∈ take 5 (split_lines text)
             ∧ name (extract_personal_info text) = Text.strip line)
    ∧ 4 ≤ char_count (name (extract_personal_info text)) ≤ 49
    ∧ count_chars (λ c, one_of "@" c || Text.is_digit c)
        (name (extract_personal_info text)) = 0.
Proof.
  intros _. cbn [extract_personal_info name].
  destruct (name_loop_spec (take 5 (split_lines text)))
    as [?|[Hl Hn]]; [by left|right].
  split; [exact Hl|]. unfold is_name_line in Hn.
  apply andb_true_iff in Hn as [Hn Hs].
  apply andb_true_iff in Hn as [Hn H50].
  apply andb_true_iff in Hn as [_ H3].
  apply Nat.ltb_lt in H3, H50. split; [lia|].
  apply negb_true_iff, bool_decide_eq_false in Hs.
  set (found_name := name_loop (take 5 (split_lines text))) in *.
  apply (search_class_none _ None).
  destruct (search_from at_or_digit false None found_name) eqn:E;
    [|exact E].
  exfalso. apply Hs. unfold search. rewrite E. by eexists.
Qed.

(** ** The responsibilities *)

Lemma findall_from_search (n : nat) (r : regex) (ci : bool)
    (prev : option ascii) (s : string) (f : found) :
  f ∈ findall_from n r ci prev s →
  ∃ prev' s', search_from r ci prev' s' = Some f.
Proof.
  revert prev s. induction n as [|n IH]; intros prev s; simpl.
  - by intros ?%elem_of_nil.
  - destruct (search_from r ci prev s) as [g|] eqn:E;
      [|by intros ?%elem_of_nil].
    intros [->|Hin]%elem_of_cons; [by eauto|]. by eapply IH.
Qed.

Lemma strip_piece (s : string) : piece_of (Text.strip s) s.
Proof.
  unfold Text.strip. destruct (lstrip_suffix s) as [u Hu].
  destruct (rstrip_prefix (Text.lstrip s)) as [t Ht].
  exists u, t. by rewrite <- Ht.
Qed.

Lemma prefix_contains (lit s : string) :
  String.prefix lit s = true → Text.contains lit s = true.
Proof. intros H. destruct s; cbn [Text.contains]; by rewrite H. Qed.

Lemma contains_piece (lit s text : string) :
  piece_of s text → Text.contains lit s = true →
  Text.contains lit text = true.
Proof.
  intros (pre & post & ->) H.
  by apply contains_append_r, contains_append_l.
Qed.

(** A run of characters before each of which the bullet does not begin
    holds no bullet. *)
Lemma run_without_bullet (p : ascii → bool) (a b : state) :
  rtc (matches false (Seq (NotStr "•") (Chr p))) a b →
  ∃ w, a.1.2 = w +:+ b.1.2 ∧ Text.contains "•" w = false.
Proof.
  induction 1 as [a|a m b M _ (w & E & IH)].
  - by exists EmptyString.
  - cbn [matches] in M. destruct M as (m' & [Hn ->] & c & s' & Ha & _ & ->).
    cbn [fst snd] in *. exists (String c w).
    split; [by rewrite Ha, E|].
    cbn [Text.contains]. rewrite IH, orb_false_r.
    destruct (String.prefix "•" (String c w)) eqn:F; [|done].
    apply (prefix_append _ _ b.1.2) in F.
    change (String c w +:+ b.1.2) with (String c (w +:+ b.1.2)) in F.
    rewrite <- E, <- Ha in F. congruence.
Qed.

(** The text of group 1 of a match of the item pattern. *)
Lemma item_shape (prev : option ascii) (s : string) (f : found) :
  search_from item_pattern false prev s = Some f →
  ∃ item, group1 f = Some item
          ∧ count_chars ends_item item = 0
          ∧ Text.contains "•" item = false.
Proof.
  intros (pre & prev0 & s0 & -> & H)%search_from_sound.
  apply match_at_sound in H as (p' & s' & c' & M & ->). cbn [group1].
  unfold item_pattern in M. cbn [matches] in M.
  destruct M as (m1 & _ & m2 & _ & m3 & M & [= -> -> ->]).
  eexists. split; [reflexivity|].
  set (class := λ c, negb (is_char c "010" || one_of "-*" c)) in *.
  destruct (matches_consumes false ends_item _ _ _ M) as (w & E & _ & B).
  rewrite E, consumed_append. split.
  - specialize (B 0 ltac:(by vm_compute)). lia.
  - unfold Plus in M. cbn [matches] in M. destruct M as (m & M1 & M2).
    apply run_without_bullet in M2 as (w2 & E2 & C2).
    destruct M1 as (m' & [Hn ->] & c & s1 & Ha & _ & ->).
    cbn [fst snd] in *.
    assert (w = String c w2) as ->.
    { apply (append_inj_r _ _ m3.1.2). by rewrite <- E, Ha, E2. }
    cbn [Text.contains]. rewrite C2, orb_false_r.
    destruct (String.prefix "•" (String c w2)) eqn:F; [|done].
    apply (prefix_append _ _ m3.1.2) in F.
    change (String c w2 +:+ m3.1.2) with (String c (w2 +:+ m3.1.2)) in F.
    rewrite <- E2, <- Ha in F. congruence.
Qed.

Lemma elem_of_take {A} (n : nat) (l : list A) (x : A) :
  x ∈ take n l → x ∈ l.
Proof. rewrite <- (take_drop n l) at 2. intros H. apply elem_of_app. by left. Qed.

(** X29: at most five responsibilities are returned; each has more than
    20 characters and holds no line feed, hyphen, asterisk or bullet. *)
Theorem responsibilities_are_at_most_five_long_items (text : string) :
  length (extract_responsibilities text) ≤ 5
  ∧ ∀ item, item ∈ extract_responsibilities text →
      20 < char_count item
      ∧ count_chars ends_item item = 0
      ∧ Text.contains "•" item = false.
Proof.
  unfold extract_responsibilities. split.
  - rewrite length_take. lia.
  - intros item Hin%elem_of_take.
    destruct (search responsibilities_pattern true text) as [section|];
      [|by apply elem_of_nil in Hin].
    destruct (findall_group1 item_pattern false
                (default EmptyString (group1 section))) as [|i0 items] eqn:E;
      [by apply elem_of_nil in Hin|].
    rewrite <- E in Hin. clear E.
    apply list_elem_of_filter in Hin as [Hlen Hin]. split; [exact Hlen|].
    apply list_elem_of_fmap in Hin as (g & -> & Hg).
    unfold findall_group1 in Hg.
    apply list_elem_of_fmap in Hg as (f & -> & Hf).
    apply findall_from_search in Hf as (prev' & s' & Hf).
    apply item_shape in Hf as (it & -> & Hc & Hb).
    change (default EmptyString (Some it)) with it.
    pose proof (strip_piece it) as Hp. split.
    + pose proof (count_chars_piece ends_item _ _ Hp). lia.
    + destruct (Text.contains "•" (Text.strip it)) eqn:F; [|done].
      rewrite (contains_piece _ _ _ Hp F) in Hb. discriminate.
Qed.

(** X30: a plain text that names neither "responsibilities" nor
    "duties", in any case of the letters, has no responsibilities. *)
Theorem no_responsibilities_without_a_section (text : string) :
  Text.is_plain text = true →
  Text.contains "responsibilities" (Text.lower text) = false →
  Text.contains "duties" (Text.lower text) = false →
  extract_responsibilities text = [].
Proof.
  intros _ Hr Hd. unfold extract_responsibilities.
  destruct (search responsibilities_pattern true text) as [f|] eqn:E; [|done].
  exfalso.
  apply search_from_sound in E as (pre & prev0 & s0 & -> & H).
  apply match_at_sound in H as (p' & s' & c' & M & _).
  unfold responsibilities_pattern in M. cbn [matches] in M.
  destruct M as (m1 & [[Hl _]|[Hl _]] & _); cbn [fst snd] in Hl;
    unfold at_literal in Hl; apply prefix_contains in Hl;
    rewrite lower_append in Hr, Hd.
  - rewrite (contains_append_r _ _ _ Hl) in Hr. discriminate.
  - rewrite (contains_append_r _ _ _ Hl) in Hd. discriminate.
Qed.

Lemma no_responsibilities_without_a_section_witness :
  extract_responsibilities labelled_posting = [].
Proof.
  apply (no_responsibilities_without_a_section labelled_posting);
    vm_compute; reflexivity.
Defined.

Lemma phone_found_has_ten_to_thirteen_digits_witness :
  phone (extract_personal_info example_resume_head) = EmptyString
  ∨ piece_of (phone (extract_personal_info example_resume_head))
      example_resume_head
    ∧ 10 ≤ count_chars Text.is_digit
             (phone (extract_personal_info example_resume_head)) ≤ 13
    ∧ count_chars (λ c, negb (is_phone_char c))
        (phone (extract_personal_info example_resume_head)) = 0
    ∧ Text.len (phone (extract_personal_info example_resume_head)) ≤ 19.
Proof.
  apply (phone_found_has_ten_to_thirteen_digits example_resume_head).
  reflexivity.
Defined.

Lemma profile_addresses_found_have_a_name_part_witness :
  (linkedin (extract_personal_info example_resume_head) = EmptyString
   ∨ piece_of (linkedin (extract_personal_info example_resume_head))
       example_resume_head
     ∧ ∃ head slug,
         linkedin (extract_personal_info example_resume_head) = head +:+ slug
         ∧ Text.lower head = "linkedin.com/in/"
         ∧ slug ≠ EmptyString
         ∧ count_chars (λ c, negb (is_word_or_hyphen c)) slug = 0)
  ∧ (github (extract_personal_info example_resume_head) = EmptyString
     ∨ piece_of (github (extract_personal_info example_resume_head))
         example_resume_head
       ∧ ∃ head slug,
           github (extract_personal_info example_resume_head) = head +:+ slug
           ∧ Text.lower head = "github.com/"
           ∧ slug ≠ EmptyString
           ∧ count_chars (λ c, negb (is_word_or_hyphen c)) slug = 0).
Proof.
  apply (profile_addresses_found_have_a_name_part example_resume_head).
  reflexivity.
Defined.

Lemma name_found_is_a_short_line_without_digits_witness :
  name (extract_personal_info example_resume_head) = EmptyString
  ∨ (∃ line, line ∈ take 5 (split_lines example_resume_head)
             ∧ name (extract_personal_info example_resume_head)
               = Text.strip line)
    ∧ 4 ≤ char_count (name (extract_personal_info example_resume_head)) ≤ 49
    ∧ count_chars (λ c, one_of "@" c || Text.is_digit c)
        (name (extract_personal_info example_resume_head)) = 0.
Proof.
  apply (name_found_is_a_short_line_without_digits example_resume_head).
  reflexivity.
Defined.

Lemma analyzer_takes_title_and_company_from_the_first_ten_lines_witness :
  job_title (analyze (λ _, elements) extract_responsibilities example_posting)
  = default EmptyString (head (heading_lines example_posting))
  ∧ company (analyze (λ _, elements) extract_responsibilities example_posting)
    = default EmptyString
        (head (filter
                 (λ line,
                    line ≠ job_title (analyze (λ _, elements)
                                        extract_responsibilities
                                        example_posting))
                 (tail (heading_lines example_posting))))
  ∧ (company (analyze (λ _, elements) extract_responsibilities example_posting)
     ≠ EmptyString →
     job_title (analyze (λ _, elements) extract_responsibilities
                  example_posting)
     ≠ EmptyString
     ∧ company (analyze (λ _, elements) extract_responsibilities
                  example_posting)
       ≠ job_title (analyze (λ _, elements) extract_responsibilities
                      example_posting)).
Proof.
  apply (analyzer_takes_title_and_company_from_the_first_ten_lines
           (λ _, elements) extract_responsibilities example_posting).
  reflexivity.
Defined.

(** The contact fields of the example résumé, and the requirements of the
    example posting: the hyphen of "cross-team" ends an item. *)
Lemma personal_info_and_requirements_of_the_examples :
  extract_personal_info example_resume_head
  = {| name := "Jane Doe";
       email := "jane.doe@example.org";
       phone := "+1 (555) 123-4567";
       location := EmptyString;
       linkedin := "LinkedIn.com/in/jane-doe";
       github := "GitHub.com/janedoe" |}
  ∧ analyze (λ _, elements) extract_responsibilities example_posting
    = {| job_title := "Senior Backend Engineer";
         company := "Acme Corporation";
         required_skills := [];
         preferred_skills := ["python"; "sql"];
         all_skills := ["python"; "sql"];
         responsibilities := [ "Build and maintain the data platform";
                               "team services for the product" ] |}.
Proof. split; vm_compute; reflexivity. Qed.

(** ** The texts given to [add_run] *)

Lemma accepts_text_append (a b : string) :
  accepts_text (a +:+ b) = accepts_text a && accepts_text b.
Proof.
  induction a as [|c a IH]; [done|].
  change (String c a +:+ b) with (String c (a +:+ b)).
  cbn [accepts_text]. by rewrite IH, andb_assoc.
Qed.

Lemma accepts_text_rev (s : string) :
  accepts_text (String.rev s) = accepts_text s.
Proof.
  induction s as [|c s IH]; [done|].
  rewrite rev_cons, accepts_text_append, IH. cbn [accepts_text].
  rewrite andb_true_r. apply andb_comm.
Qed.

Lemma accepts_text_strip (s : string) :
  accepts_text s = true → accepts_text (Text.strip s) = true.
Proof.
  intros H. unfold Text.strip.
  destruct (lstrip_suffix s) as [u Hu].
  rewrite Hu, accepts_text_append in H. apply andb_true_iff in H as [_ H].
  destruct (rstrip_prefix (Text.lstrip s)) as [t Ht].
  rewrite Ht, accepts_text_append in H. by apply andb_true_iff in H as [H _].
Qed.

Lemma accepts_text_drop_chars (n : nat) (s : string) :
  accepts_text s = true → accepts_text (Text.drop_chars n s) = true.
Proof.
  revert s. induction n as [|n IH]; intros s H; [by destruct s|].
  destruct s as [|c s]; [done|]. cbn [Text.drop_chars]. apply IH.
  cbn [accepts_text] in H. by apply andb_true_iff in H as [_ H].
Qed.

Lemma accepts_text_after_label (stem s rest : string) :
  accepts_text s = true → Re.after_label stem s = Some rest →
  accepts_text rest = true.
Proof.
  induction s as [|c s IH]; intros H; cbn [Re.after_label].
  - destruct (Re.label_here stem EmptyString); [|done].
    intros [= <-]. by apply accepts_text_drop_chars.
  - destruct (Re.label_here stem (String c s)).
    + intros [= <-]. by apply accepts_text_drop_chars.
    + apply IH. cbn [accepts_text] in H. by apply andb_true_iff in H as [_ H].
Qed.

Lemma accepts_text_until_label (n : nat) (stem s : string) :
  accepts_text s = true → accepts_text (Re.until_label n stem s) = true.
Proof.
  revert s. induction n as [|n IH]; intros s H; [exact H|].
  cbn [Re.until_label]. destruct (Re.label_here stem s); [done|].
  destruct s as [|c s]; [done|]. cbn [accepts_text] in *.
  apply andb_true_iff in H as [Hc H]. by rewrite Hc, IH.
Qed.

Lemma accepts_text_second_piece (stem s part : string) :
  accepts_text s = true → Re.second_piece stem s = Some part →
  accepts_text part = true.
Proof.
  intros H. unfold Re.second_piece.
  destruct (Re.after_label stem s) as [rest|] eqn:E; [|done].
  cbn [mbind option_bind]. generalize (S (Text.len rest)). intros n [= <-].
  apply accepts_text_until_label. by eapply accepts_text_after_label.
Qed.

Lemma accepts_text_separator (s s' : string) :
  accepts_text s = true → Re.separator s = Some s' → accepts_text s' = true.
Proof.
  intros H. unfold Re.separator, Re.literal.
  generalize (Text.len "•"). intros n.
  destruct (String.prefix "•" s).
  - intros [= <-]. by apply accepts_text_drop_chars.
  - destruct s as [|c s]; [done|]. destruct (_ || _); [|done].
    intros [= <-]. cbn [accepts_text] in H.
    by apply andb_true_iff in H as [_ H].
Qed.

Lemma accepts_text_split_items_go (n : nat) (cur s : string) :
  accepts_text cur = true → accepts_text s = true →
  Forall (λ piece, accepts_text piece = true) (Re.split_items_go n cur s).
Proof.
  revert cur s. induction n as [|n IH]; intros cur s Hcur Hs; simpl.
  - constructor; [|constructor]. by rewrite accepts_text_rev.
  - destruct (Re.separator s) as [s'|] eqn:E.
    + constructor; [by rewrite accepts_text_rev|].
      apply IH; [done|]. by eapply accepts_text_separator.
    + destruct s as [|c s].
      * constructor; [|constructor]. by rewrite accepts_text_rev.
      * cbn [accepts_text] in Hs. apply andb_true_iff in Hs as [Hc Hs].
        apply IH; [|done]. cbn [accepts_text]. by rewrite Hc, Hcur.
Qed.

Lemma accepts_text_skill_items (part : string) :
  accepts_text part = true →
  Forall (λ item, accepts_text item = true) (skill_items part).
Proof.
  intros H. unfold skill_items. apply Forall_forall.
  intros item [_ (piece & -> & Hp)%list_elem_of_fmap]%list_elem_of_filter.
  apply accepts_text_strip.
  pose proof (accepts_text_split_items_go (S (Text.len part)) EmptyString part
                eq_refl H) as F.
  rewrite Forall_forall in F. by apply F.
Qed.

Lemma accepts_text_parse_line (e : existing_skills) (text : string) :
  accepts_text text = true →
  Forall (λ item, accepts_text item = true) (soft_skills e)
  ∧ Forall (λ item, accepts_text item = true) (hard_skills e) →
  Forall (λ item, accepts_text item = true) (soft_skills (parse_line e text))
  ∧ Forall (λ item, accepts_text item = true) (hard_skills (parse_line e text)).
Proof.
  intros Ht [Hs Hh]. unfold parse_line.
  destruct (Text.contains "soft skill" (Text.lower text)).
  { destruct (Re.second_piece "soft skill" text) as [part|] eqn:E; [|done].
    cbn [add_soft soft_skills hard_skills]. rewrite Forall_app.
    split; [split; [done|]|done].
    by eapply accepts_text_skill_items, accepts_text_second_piece. }
  destruct (Text.contains "hard skill" (Text.lower text)).
  { destruct (Re.second_piece "hard skill" text) as [part|] eqn:E; [|done].
    cbn [add_hard soft_skills hard_skills]. rewrite Forall_app.
    split; [done|split; [done|]].
    by eapply accepts_text_skill_items, accepts_text_second_piece. }
  pose proof (accepts_text_skill_items text Ht).
  destruct (contains_any technical_cues (Text.lower text));
    [|destruct (contains_any interpersonal_cues (Text.lower text))];
    cbn [add_soft add_hard soft_skills hard_skills]; rewrite Forall_app; auto.
Qed.

Lemma accepts_text_parse_lines (lines : list string) (e : existing_skills) :
  Forall (λ line, accepts_text line = true) lines →
  Forall (λ item, accepts_text item = true) (soft_skills e)
  ∧ Forall (λ item, accepts_text item = true) (hard_skills e) →
  Forall (λ item, accepts_text item = true)
    (soft_skills (foldl parse_line e lines))
  ∧ Forall (λ item, accepts_text item = true)
      (hard_skills (foldl parse_line e lines)).
Proof.
  revert e. induction lines as [|l lines IH]; intros e Hl He; [exact He|].
  inversion Hl; subst. simpl. apply IH; [done|].
  by apply accepts_text_parse_line.
Qed.

Lemma mapM_lookup_elem_of {A} (l : list A) (idx : list nat) (xs : list A) :
  mapM (λ i, l !! i) idx = Some xs → ∀ x, x ∈ xs → x ∈ l.
Proof.
  intros H x Hx. apply mapM_Some in H.
  apply list_elem_of_lookup in Hx as [k Hk].
  destruct (Forall2_lookup_r _ _ _ _ _ H Hk) as (i & _ & Hi).
  by eapply list_elem_of_lookup_2.
Qed.

Lemma accepts_text_existing_skills (doc : document)
    (skills_start skills_end : nat) (existing : existing_skills) :
  Forall (λ p, accepts_text (par_text p) = true) (paragraphs doc) →
  extract_existing_skills doc skills_start skills_end = Some existing →
  Forall (λ item, accepts_text item = true) (soft_skills existing)
  ∧ Forall (λ item, accepts_text item = true) (hard_skills existing).
Proof.
  intros Hdoc. unfold extract_existing_skills, paragraphs_in.
  destruct (mapM _ _) as [ps|] eqn:E; [|discriminate].
  cbn [mbind option_bind]. intros [= <-].
  apply accepts_text_parse_lines; [|split; constructor].
  apply Forall_forall.
  intros line [_ (p & -> & Hp)%list_elem_of_fmap]%list_elem_of_filter.
  apply accepts_text_strip. rewrite Forall_forall in Hdoc. apply Hdoc.
  by eapply mapM_lookup_elem_of.
Qed.

Lemma accepts_text_join (items : list string) :
  Forall (λ item, accepts_text item = true) items →
  accepts_text (Text.join " • " items) = true.
Proof.
  unfold Text.join. induction 1 as [|x l Hx Hl IH]; [done|].
  cbn [String.concat]. destruct l as [|y l]; [done|].
  by rewrite !accepts_text_append, Hx, IH.
Qed.

Lemma accepts_text_merge_skills (seen : gset string) (l : list string) :
  Forall (λ item, accepts_text item = true) l →
  Forall (λ item, accepts_text item = true) (merge_skills seen l).
Proof.
  intros H. apply Forall_forall. intros item Hitem.
  pose proof (elem_of_sublist _ _ _ Hitem (merge_skills_sublist seen l))
    as Hin.
  apply list_elem_of_fmap in Hin as (skill & -> & Hskill).
  apply accepts_text_strip. rewrite Forall_forall in H. by apply H.
Qed.

(** The texts written are accepted when no paragraph of the document and
    no incoming skill holds a control character that [add_run] refuses. *)
Lemma written_texts_accepted (doc : document) (tailored_skills : list string) :
  Forall (λ p, accepts_text (par_text p) = true) (paragraphs doc) →
  Forall (λ skill, accepts_text skill = true) tailored_skills →
  forallb accepts_text (written_texts doc tailored_skills) = true.
Proof.
  intros Hdoc Hnew. unfold written_texts.
  destruct (find_skills_start (paragraphs doc)) as [start|].
  - destruct (extract_existing_skills doc start _) as [existing|] eqn:E;
      [|done].
    destruct (accepts_text_existing_skills _ _ _ _ Hdoc E) as [Hs Hh].
    unfold section_runs. rewrite forallb_app. apply andb_true_iff. split.
    + destruct (soft_skills existing) eqn:Es; [done|].
      cbn [forallb]. by rewrite accepts_text_join.
    + cbn [forallb]. rewrite accepts_text_join; [done|].
      apply accepts_text_merge_skills. by apply Forall_app.
  - cbn [forallb]. by rewrite accepts_text_join.
Qed.

(** X18: the export of a path that holds a plain document, with plain
    skills, raises in two cases only.  When no header is found and the
    document has no style "Heading 1" it raises [KeyError].  Otherwise it
    raises [ValueError] when a text given to [add_run] holds a control
    character, and when none does it tests the path, opens the document,
    saves once and returns a document.  Nothing is saved when it raises.
    The texts given to [add_run] hold no such character when no paragraph
    of the document and no incoming skill holds one. *)
Theorem export_of_a_document_raises_in_two_cases (fs : gmap string file)
    (path : string) (heading_style : bool) (doc : document)
    (tailored_skills : list string) :
  fs !! path = Some (docx_file heading_style doc) →
  plain_document doc →
  Forall (λ skill, Text.is_plain skill = true) tailored_skills →
  (find_skills_start (paragraphs doc) = None ∧ heading_style = false →
   export_docx path tailored_skills fs
   = ([EvExists path; EvOpen path],
      Raise (KeyError "no style with name 'Heading 1'")))
  ∧ (is_Some (find_skills_start (paragraphs doc)) ∨ heading_style = true →
     if forallb accepts_text (written_texts doc tailored_skills)
     then ∃ doc', export_docx path tailored_skills fs
                  = ([EvExists path; EvOpen path; EvSave], Return doc')
     else export_docx path tailored_skills fs
          = ([EvExists path; EvOpen path], Raise not_xml_compatible))
  ∧ (Forall (λ p, accepts_text (par_text p) = true) (paragraphs doc) →
     Forall (λ skill, accepts_text skill = true) tailored_skills →
     forallb accepts_text (written_texts doc tailored_skills) = true).
Proof.
  intros Hfile _ _.
  rewrite (and_assoc _ _ _).
  split; [|apply written_texts_accepted].
  rewrite (run_export_docx fs path heading_style doc tailored_skills Hfile).
  unfold written_texts.
  destruct (find_skills_start (paragraphs doc)) as [start|] eqn:Hstart.
  - split; [by intros [? _]|]. intros _.
    destruct (replace_skills_section_spec doc start tailored_skills)
      as (existing & -> & H); [by eapply find_skills_start_lt|].
    destruct (forallb accepts_text (section_runs existing tailored_skills)).
    + destruct H as (doc' & -> & _). by exists doc'.
    + by rewrite H.
  - split.
    + intros [_ ->]. reflexivity.
    + intros [[? [=]]| ->].
      unfold append_skills_section, add_labelled_paragraph.
      cbn [negb forallb].
      destruct (accepts_text (Text.join " • " tailored_skills));
        cbn [andb mbind outcome_mbind mret outcome_mret]; eauto.
Qed.

Lemma export_of_a_document_raises_in_two_cases_witness :
  (find_skills_start (paragraphs example_bare_body) = None ∧ false = false →
   export_docx "bare.docx" ["Python"] example_files_with_bare_document
   = ([EvExists "bare.docx"; EvOpen "bare.docx"],
      Raise (KeyError "no style with name 'Heading 1'")))
  ∧ (is_Some (find_skills_start (paragraphs example_bare_body))
     ∨ false = true →
     if forallb accepts_text (written_texts example_bare_body ["Python"])
     then ∃ doc',
            export_docx "bare.docx" ["Python"] example_files_with_bare_document
            = ([EvExists "bare.docx"; EvOpen "bare.docx"; EvSave],
               Return doc')
     else export_docx "bare.docx" ["Python"] example_files_with_bare_document
          = ([EvExists "bare.docx"; EvOpen "bare.docx"],
             Raise not_xml_compatible))
  ∧ (Forall (λ p, accepts_text (par_text p) = true)
       (paragraphs example_bare_body) →
     Forall (λ skill, accepts_text skill = true) ["Python"] →
     forallb accepts_text (written_texts example_bare_body ["Python"]) = true).
Proof.
  apply (export_of_a_document_raises_in_two_cases
           example_files_with_bare_document "bare.docx" false
           example_bare_body ["Python"]);
    try reflexivity; repeat constructor.
Defined.
